(** * Mermaid checker: extraction, validation wrapper and orchestration

    A shallow embedding of the scripts of the mermaid-checker plugin
    (mermaid-check.mjs, check.mjs, extract.mjs, validate.mjs) together with
    the properties their specification states about them.  The functions of
    mermaid-check.mjs are embedded as they are written; the file itself, as
    shipped, does not parse, and its runs are modelled accordingly. *)

From Stdlib Require Import String Ascii.
From Stdlib Require Import List NArith ZArith Bool Arith Lia.
Import ListNotations.

Set Implicit Arguments.

(** ** JavaScript strings

    A JavaScript string is a sequence of UTF-16 code units.  The scripts use
    [split('\n')], [trim()], [join('\n')], [startsWith] and strict equality
    on them. *)

Module JS.

Definition char := N.
Definition str := list char.

(** A literal written with 8-bit characters, as the markers of the scripts. *)
Definition lit (s : string) : str := map N_of_ascii (list_ascii_of_string s).

Definition NL : char := 10%N.

Fixpoint str_eqb (a b : str) : bool :=
  match a, b with
  | [], [] => true
  | x :: a', y :: b' => N.eqb x y && str_eqb a' b'
  | _, _ => false
  end.

(** WhiteSpace and LineTerminator code points of ECMAScript, the characters
    [String.prototype.trim] removes. *)
Definition isWhiteSpace (c : char) : bool :=
  existsb (N.eqb c)
    [9; 10; 11; 12; 13; 32; 160; 5760; 8232; 8233; 8239; 8287; 12288; 65279]%N
  || (N.leb 8192 c && N.leb c 8202).

Fixpoint trimStart (s : str) : str :=
  match s with
  | [] => []
  | c :: r => if isWhiteSpace c then trimStart r else s
  end.

Definition trimEnd (s : str) : str := rev (trimStart (rev s)).

Definition trim (s : str) : str := trimEnd (trimStart s).

(** [s.split(sep)] for a one-character separator: never empty. *)
Fixpoint split (sep : char) (s : str) : list str :=
  match s with
  | [] => [[]]
  | c :: r =>
      if N.eqb c sep then [] :: split sep r
      else match split sep r with
           | l :: ls => (c :: l) :: ls
           | [] => [[c]]
           end
  end.

(** [ls.join(sep)] for a one-character separator. *)
Fixpoint join (sep : char) (ls : list str) : str :=
  match ls with
  | [] => []
  | [l] => l
  | l :: rest => l ++ sep :: join sep rest
  end.

Fixpoint startsWith (s p : str) : bool :=
  match p, s with
  | [], _ => true
  | x :: p', y :: s' => N.eqb y x && startsWith s' p'
  | _ :: _, [] => false
  end.

(** [arr.includes(x)] on an array of strings. *)
Definition includes (arr : list str) (x : str) : bool := existsb (str_eqb x) arr.

End JS.

Import JS.

(** ** Block extraction (extractMermaidBlocks) *)

Module Extractor.

Definition OPEN : str := lit "```mermaid".
Definition CLOSE : str := lit "```".

Record Block := mkBlock {
  code : str;
  lineStart : nat;
  lineEnd : nat;
  index : nat
}.

(** The variables of the scanning loop. *)
Record scan := mkScan {
  blocks : list Block;
  inMermaidBlock : bool;
  blockStart : nat;
  blockContent : list str;
  blockIndex : nat
}.

Definition init : scan := mkScan [] false 0 [] 0.

(** One iteration of the [for] loop, at 0-based position [i]. *)
Definition step (st : scan) (i : nat) (line : str) : scan :=
  if str_eqb (trim line) OPEN then
    mkScan (blocks st) true (i + 1) [] (blockIndex st)
  else if inMermaidBlock st && str_eqb (trim line) CLOSE then
    mkScan (blocks st ++
              [mkBlock (join NL (blockContent st)) (blockStart st) i (blockIndex st)])
           false (blockStart st) [] (S (blockIndex st))
  else if inMermaidBlock st then
    mkScan (blocks st) true (blockStart st) (blockContent st ++ [line]) (blockIndex st)
  else st.

Fixpoint loop (st : scan) (i : nat) (lines : list str) : scan :=
  match lines with
  | [] => st
  | line :: rest => loop (step st i line) (S i) rest
  end.

Definition extractMermaidBlocks (content : str) : list Block :=
  blocks (loop init 0 (split NL content)).

End Extractor.

Import Extractor.

(** ** Diagram-type inference (detectDiagramType) *)

Module DiagramType.

(** The class [\w] of a regular expression without flags: [[A-Za-z0-9_]]. *)
Definition isWordChar (c : char) : bool :=
  (N.leb 48 c && N.leb c 57) || (N.leb 65 c && N.leb c 90)
  || N.eqb c 95 || (N.leb 97 c && N.leb c 122).

(** The capture of [code.match(/^(\w+)/)]; empty when there is no match. *)
Fixpoint leadingWord (code : str) : str :=
  match code with
  | [] => []
  | c :: r => if isWordChar c then c :: leadingWord r else []
  end.

(** The own properties of the object literal [typeMap].  The scripts differ
    in the label of [journey] only. *)
Definition typeMapWith (journey : str) : list (str * str) :=
  [ (lit "graph", lit "flowchart");
    (lit "sequenceDiagram", lit "sequence");
    (lit "classDiagram", lit "class");
    (lit "stateDiagram", lit "state");
    (lit "erDiagram", lit "er");
    (lit "journey", journey) ].

(** mermaid-check.mjs *)
Definition typeMapStandalone := typeMapWith (lit "journey map").
(** validate.mjs and extract.mjs *)
Definition typeMapScripts := typeMapWith (lit "journey-map").

(** [typeMap] is an ordinary object: a lookup that misses its own properties
    continues in [Object.prototype], whose property names are these. *)
Definition objectPrototype : list str :=
  map lit
    [ "constructor"; "__defineGetter__"; "__defineSetter__"; "hasOwnProperty";
      "__lookupGetter__"; "__lookupSetter__"; "isPrototypeOf";
      "propertyIsEnumerable"; "toString"; "valueOf"; "__proto__";
      "toLocaleString" ]%string.

(** What [detectDiagramType] can return: a string, or the member of
    [Object.prototype] found under the leading word (a function, or the
    prototype itself for [__proto__]). *)
Inductive value :=
| VString (s : str)
| VInherited (name : str).

Fixpoint ownProperty (m : list (str * str)) (key : str) : option str :=
  match m with
  | [] => None
  | (k, v) :: m' => if str_eqb key k then Some v else ownProperty m' key
  end.

(** [typeMap[type]]; [None] is [undefined]. *)
Definition getProperty (m : list (str * str)) (key : str) : option value :=
  match ownProperty m key with
  | Some v => Some (VString v)
  | None => if includes objectPrototype key then Some (VInherited key) else None
  end.

Definition truthy (v : value) : bool :=
  match v with
  | VString [] => false
  | _ => true
  end.

Definition detectDiagramType (typeMap : list (str * str)) (code : str) : value :=
  match leadingWord code with
  | [] => VString (lit "unknown")
  | type =>
      match getProperty typeMap type with
      | Some v => if truthy v then v else VString type
      | None => VString type
      end
  end.

End DiagramType.

Import DiagramType.

(** ** The runtime the scripts run in

    Exceptions, [process.exit], the clock, the file system and the console
    are threaded explicitly.  What lies outside the repository (the mermaid
    parser, module loading, glob expansion, the [path] helpers, the shell that
    [execSync] starts, the reasons for which the operating system refuses a
    file operation, the arithmetic of JavaScript numbers) is an environment
    [Env]. *)

Module Runtime.

(** A thrown value, as a [catch] clause observes it: an object with its
    [message] property ([None] when absent) and the result of its
    [toString()]. *)
Record Failure := mkFailure {
  message : option str;
  toString : str
}.

(** [new Error(msg)]: its string form is the name alone when the message is
    empty. *)
Definition errorOf (msg : str) : Failure :=
  mkFailure (Some msg)
    (match msg with
     | [] => lit "Error"
     | _ :: _ => lit "Error: " ++ msg
     end).

(** [`${error.message}`] *)
Definition showMessage (e : Failure) : str :=
  match message e with
  | Some m => m
  | None => lit "undefined"
  end.

(** [error.message || error.toString()] *)
Definition messageOrString (e : Failure) : str :=
  match message e with
  | Some (c :: m) => c :: m
  | _ => toString e
  end.

Section Process.

Context {num : Type}.

Record ValidationResult := mkResult {
  valid : bool;
  executionTime : num;
  error : option str
}.

(** [{...block, diagramType, ...result}] of mermaid-check.mjs *)
Record Diagram := mkDiagram {
  block : Block;
  diagramType : value;
  result : ValidationResult
}.

(** The object built by [validateMarkdownFile]. *)
Record FileResults := mkFileResults {
  filePath : str;
  fileName : str;
  totalDiagrams : nat;
  validCount : nat;
  invalidCount : nat;
  diagrams : list Diagram;
  totalTime : num
}.

(** One entry of the [blocks] array extract.mjs prints. *)
Record BlockInfo := mkBlockInfo {
  bi_fileName : str;
  bi_filePath : str;
  bi_lineStart : nat;
  bi_lineEnd : nat;
  bi_diagramType : value;
  bi_index : nat
}.

Record ExtractOutput := mkExtractOutput {
  eo_sourceFile : str;
  eo_outputDir : str;
  eo_totalBlocks : nat;
  eo_blocks : list BlockInfo
}.

(** What validate.mjs prints. *)
Record ValidateOutput := mkValidateOutput {
  vo_file : str;
  vo_fileName : str;
  vo_diagramType : value;
  vo_result : ValidationResult
}.

(** [{...blockInfo, valid, executionTime, error}] of check.mjs; the diagram
    type went through JSON, which keeps it only when it is a string. *)
Record CheckedBlock := mkCheckedBlock {
  cb_info : BlockInfo;
  cb_diagramType : option str;
  cb_valid : bool;
  cb_executionTime : num;
  cb_error : option str
}.

(** The [result] object of check.mjs. *)
Record Report := mkReport {
  sourceFile : str;
  outputDir : str;
  totalBlocks : nat;
  r_validCount : nat;
  r_invalidCount : nat;
  r_blocks : list CheckedBlock;
  r_totalTime : num
}.

(** What a process writes or does, in order. *)
Inductive event :=
| Usage
| Log (text : str)
| Error (text : str)
| Setup                                   (* JSDOM created, globals installed *)
| Parse (code : str)                       (* mermaid.parse called *)
| PrintResults (r : FileResults) (verbose : bool)
| PrintSummary (rs : list FileResults)
| PrintReport (r : Report)
| PrintJson (r : Report)
| StdoutExtract (o : ExtractOutput)
| StdoutValidate (o : ValidateOutput)
| Exec (script : str) (args : list str)     (* execSync called *)
| Mkdir (dir : str)                          (* fs.mkdirSync called *)
| Cleanup (dir : str).                       (* fs.rmSync called *)

Record World := mkWorld {
  clock : nat;
  trace : list event;
  existsSync : str -> bool;
  files : str -> option str
}.

Inductive outcome (A : Type) :=
| Return (a : A)
| Throw (e : Failure)
| Exit (code : nat).

Arguments Return {A}.
Arguments Throw {A}.
Arguments Exit {A}.

Definition M (A : Type) := World -> outcome A * World.

Definition ret {A} (a : A) : M A := fun w => (Return a, w).

Definition bind {A B} (m : M A) (k : A -> M B) : M B :=
  fun w =>
    match m w with
    | (Return a, w') => k a w'
    | (Throw e, w') => (Throw e, w')
    | (Exit c, w') => (Exit c, w')
    end.

Definition throw {A} (e : Failure) : M A := fun w => (Throw e, w).

(** [process.exit(code)]: nothing after it runs, no handler sees it. *)
Definition exit {A} (code : nat) : M A := fun w => (Exit code, w).

Definition tryCatch {A} (body : M A) (handler : Failure -> M A) : M A :=
  fun w =>
    match body w with
    | (Throw e, w') => handler e w'
    | r => r
    end.

Definition emit (ev : event) : M unit :=
  fun w => (Return tt, mkWorld (clock w) (trace w ++ [ev]) (existsSync w) (files w)).

Definition getWorld : M World := fun w => (Return w, w).

(** [for (const x of xs)] updating the variables [acc]. *)
Fixpoint forOf {A S} (xs : list A) (body : S -> A -> M S) (acc : S) : M S :=
  match xs with
  | [] => ret acc
  | x :: rest => bind (body acc x) (forOf rest body)
  end.

(** A script [main().catch(fatal)]: the exit status of the process. *)
Definition runScript (main : M unit) (fatal : Failure -> M unit) (w : World) : nat * World :=
  match tryCatch main fatal w with
  | (Exit c, w') => (c, w')
  | (Return _, w') => (0, w')
  | (Throw _, w') => (1, w')
  end.

End Process.

Arguments Return {A}.
Arguments Throw {A}.
Arguments Exit {A}.
Arguments ValidationResult : clear implicits.
Arguments Diagram : clear implicits.
Arguments FileResults : clear implicits.
Arguments CheckedBlock : clear implicits.
Arguments Report : clear implicits.
Arguments ValidateOutput : clear implicits.
Arguments event : clear implicits.
Arguments World : clear implicits.
Arguments M : clear implicits.

(** What lies outside the repository. *)
Record Env (num : Type) := mkEnv {
  zero : num;
  add : num -> num -> num;
  sub : num -> num -> num;
  (** value of the n-th read of [performance.now()] *)
  now : nat -> num;
  (** [mermaid.parse(code)]: [None] when it resolves *)
  parse : str -> option Failure;
  (** loading a module by name: [None] when it loads *)
  importModule : str -> option Failure;
  (** [glob(pattern, {cwd, absolute: true})]; an absent pattern is [undefined] *)
  glob : option str -> option str -> Failure + list str;
  basename : str -> str;
  (** [path.join(outputDir, `${mdFileName}_block${index}_${diagramType}.mmd`)] *)
  blockFile : str -> str -> nat -> value -> str * str;
  (** [path.join(__dirname, name)]: where a sibling script is installed *)
  scriptPath : str -> str;
  (** [sh name args]: the command line [node "<script>" "<arg>" ...] when one
      of its quoted texts has a character the shell interprets between double
      quotes.  [Some argv]: node runs the script [name] on the arguments
      [argv]; [None]: the command fails before the script runs (the shell
      rejects the line, or node finds no script at the expanded path). *)
  sh : str -> list str -> option (list str);
  (** [inside dir p]: the path [p] is the directory [dir] or lies below it *)
  inside : str -> str -> bool;
  (** a reason the modelled file system does not show (an unreadable file
      of that name, a path component that is no directory, permissions) for
      which [fs.mkdirSync] fails *)
  mkdirError : str -> option Failure;
  (** a reason (the path is a directory, permissions) for which
      [fs.writeFileSync] fails *)
  writeError : str -> option Failure;
  (** [fs.rmSync(dir, { recursive: true, force: true })].  [None]: everything
      inside [dir] is removed; [Some kept]: it throws, and of the paths inside
      [dir] those in [kept] are still there. *)
  rmFailure : str -> option (str -> bool);
  (** what a child process has written exceeds the [maxBuffer] of
      [execSync] *)
  overflows : list (event num) -> bool
}.

Arguments zero {num}.
Arguments add {num}.
Arguments sub {num}.
Arguments now {num}.
Arguments parse {num}.
Arguments importModule {num}.
Arguments glob {num}.
Arguments basename {num}.
Arguments blockFile {num}.
Arguments scriptPath {num}.
Arguments sh {num}.
Arguments inside {num}.
Arguments mkdirError {num}.
Arguments writeError {num}.
Arguments rmFailure {num}.
Arguments overflows {num}.

Declare Scope proc_scope.
Delimit Scope proc_scope with proc.
Notation "x <- m ;; k" := (bind m (fun x => k))
  (at level 61, m at next level, right associativity) : proc_scope.
Notation "m ;;; k" := (bind m (fun _ => k))
  (at level 61, right associativity) : proc_scope.

End Runtime.

Import Runtime.

(** ** What the scripts share: clock, parser call, file reads, the validator *)

Module Node.

Section WithEnv.

Context {num : Type} (env : Env num).
Local Open Scope proc_scope.

Definition performanceNow : M num num :=
  fun w => (Return (now env (clock w)),
            mkWorld (S (clock w)) (trace w) (existsSync w) (files w)).

(** [await mermaid.parse(code)] *)
Definition mermaidParse (code : str) : M num unit :=
  emit (Parse code) ;;;
  match parse env code with
  | None => ret tt
  | Some e => throw e
  end.

Definition readError (path : str) : Failure :=
  errorOf (lit "ENOENT: no such file or directory, open '" ++ path ++ lit "'").

(** [fs.readFileSync(path, 'utf-8')] *)
Definition readFileSync (path : str) : M num str :=
  fun w =>
    match files w path with
    | Some content => (Return content, w)
    | None => (Throw (readError path), w)
    end.

(** [fs.writeFileSync(path, content, 'utf-8')] *)
Definition writeFileSync (path content : str) : M num unit :=
  fun w =>
    match writeError env path with
    | Some e => (Throw e, w)
    | None =>
        (Return tt,
         mkWorld (clock w) (trace w)
           (fun q => if str_eqb q path then true else existsSync w q)
           (fun q => if str_eqb q path then Some content else files w q))
    end.

Definition existsError (path : str) : Failure :=
  errorOf (lit "EEXIST: file already exists, mkdir '" ++ path ++ lit "'").

(** [fs.mkdirSync(dir, { recursive: true })]: it throws when a file is in
    the way; otherwise [dir] and the directories above it exist afterwards. *)
Definition mkdirSync (dir : str) : M num unit :=
  emit (Mkdir dir) ;;;
  fun w =>
    match files w dir with
    | Some _ => (Throw (existsError dir), w)
    | None =>
        match mkdirError env dir with
        | Some e => (Throw e, w)
        | None =>
            (Return tt,
             mkWorld (clock w) (trace w)
               (fun p => inside env p dir || existsSync w p) (files w))
        end
    end.

(** The path [p] inside [dir] is removed by [fs.rmSync(dir, ...)]. *)
Definition removes (dir p : str) : bool :=
  inside env dir p
  && match rmFailure env dir with
     | None => true
     | Some kept => negb (kept p)
     end.

(** The file system after [fs.rmSync(dir, { recursive: true, force: true })]. *)
Definition removed (dir : str) (w : World num) : World num :=
  mkWorld (clock w) (trace w)
    (fun p => if removes dir p then false else existsSync w p)
    (fun p => if removes dir p then None else files w p).

Definition rmError (dir : str) : Failure :=
  errorOf (lit "EACCES: permission denied, rm '" ++ dir ++ lit "'").

(** [fs.rmSync(dir, { recursive: true, force: true })]: a directory that does
    not exist is no error. *)
Definition rmSync (dir : str) : M num unit :=
  emit (Cleanup dir) ;;;
  fun w =>
    (match rmFailure env dir with
     | None => Return tt
     | Some _ => Throw (rmError dir)
     end, removed dir w).

(** [await import(name)] and the [importModule(name)] helper of validate.mjs *)
Definition importModule_ (name : str) : M num unit :=
  match importModule env name with
  | None => ret tt
  | Some e => throw e
  end.

(** The function [setupMermaidValidator] returns, the same in every script. *)
Definition validator (code : str) : M num (ValidationResult num) :=
  startTime <- performanceNow ;;
  tryCatch
    (mermaidParse code ;;;
     t <- performanceNow ;;
     ret (mkResult true (sub env t startTime) None))
    (fun error =>
       t <- performanceNow ;;
       ret (mkResult false (sub env t startTime) (Some (messageOrString error)))).

(** [args[1] || dflt] *)
Definition orDefault (a : option str) (dflt : str) : str :=
  match a with
  | Some (c :: s) => c :: s
  | _ => dflt
  end.

End WithEnv.

End Node.

Import Node.

(** ** mermaid-check.mjs: the standalone checker *)

Module MermaidCheck.

Section WithEnv.

Context {num : Type} (env : Env num).
Local Open Scope proc_scope.

(** jsdom is imported statically by this script; mermaid dynamically. *)
Definition setupMermaidValidator : M num (str -> M num (ValidationResult num)) :=
  emit Setup ;;;
  importModule_ env (lit "mermaid") ;;;
  ret (validator env).

Definition validateMarkdownFile (filePath : str)
    (validator : str -> M num (ValidationResult num)) : M num (FileResults num) :=
  content <- readFileSync filePath ;;
  let blocks := extractMermaidBlocks content in
  let results :=
    mkFileResults filePath (basename env filePath) (length blocks) 0 0 [] (zero env) in
  forOf blocks
    (fun results block =>
       result <- validator (code block) ;;
       let diagramType := detectDiagramType typeMapStandalone (code block) in
       ret (mkFileResults (Runtime.filePath results) (fileName results)
              (totalDiagrams results)
              (if valid result then S (validCount results) else validCount results)
              (if valid result then invalidCount results else S (invalidCount results))
              (diagrams results ++ [mkDiagram block diagramType result])
              (add env (totalTime results) (executionTime result))))
    results.

Definition isDir (a : option str) : bool :=
  match a with
  | Some s => str_eqb s (lit "--dir")
  | None => false
  end.

Definition globM (pattern cwd : option str) : M num (list str) :=
  match glob env pattern cwd with
  | inl e => throw e
  | inr paths => ret paths
  end.

Definition main (args : list str) : M num unit :=
  match args with
  | [] => emit Usage ;;; exit 2
  | _ :: _ =>
      let quiet := includes args (lit "-q") || includes args (lit "--quiet") in
      let filteredArgs := filter (fun a => negb (startsWith a (lit "-"))) args in
      validator <- setupMermaidValidator ;;
      filePaths <-
        (if isDir (nth_error filteredArgs 0) then
           let dir := nth_error filteredArgs 1 in
           let recursive := includes filteredArgs (lit "--recursive") in
           let pattern := if recursive then lit "**/*.md" else lit "*.md" in
           globM (Some pattern) dir
         else globM (nth_error filteredArgs 0) None) ;;
      match filePaths with
      | [] => emit (Error (lit "No Markdown files found.")) ;;; exit 2
      | _ :: _ =>
          results <-
            forOf filePaths
              (fun results filePath =>
                 tryCatch
                   (result <- validateMarkdownFile filePath validator ;;
                    emit (PrintResults result (negb quiet)) ;;;
                    ret (results ++ [result]))
                   (fun error =>
                      emit (Error (lit "Error processing " ++ filePath ++ lit ": "
                                     ++ showMessage error)) ;;;
                      ret results))
              [] ;;
          (if 1 <? length results then emit (PrintSummary results) else ret tt) ;;;
          let hasErrors := existsb (fun r => 0 <? invalidCount r) results in
          exit (if hasErrors then 1 else 0)
      end
  end.

(** [main().catch(error => { console.error('Fatal error:', error); process.exit(2) })],
    the last statement of the file: what it does once the module is loaded. *)
Definition mainCatch (args : list str) : World num -> nat * World num :=
  runScript (main args)
    (fun error => emit (Error (lit "Fatal error: " ++ toString error)) ;;; exit 2).

(** The text after the first [*/]: a block comment ends there, whatever
    follows. *)
Fixpoint afterCommentEnd (s : str) : option str :=
  match s with
  | [] => None
  | c :: rest =>
      match rest with
      | d :: rest' =>
          if N.eqb c 42 && N.eqb d 47 then Some rest' else afterCommentEnd rest
      | [] => None
      end
  end.

(** The file as shipped, after its [#!] line: lines 2 to 10, the header
    comment down to the usage example with the glob pattern. *)
Definition head : str :=
  join NL
    [lit "/**";
     lit " * Mermaid Diagram Syntax Validator";
     lit " *";
     lit " * Fast (50x faster than mmdc) Mermaid syntax checker for Markdown files.";
     lit " * Uses Node.js + JSDOM to validate Mermaid diagrams without rendering.";
     lit " *";
     lit " * Usage:";
     lit " *   node mermaid-check.mjs <file.md>              # Check single file";
     lit " *   node mermaid-check.mjs " ++ [34%N] ++ lit "**/*.md" ++ [34%N]
       ++ lit "              # Check multiple files (glob)"].

(** What the parser reads as code after the header comment. *)
Definition afterHeader : option str :=
  match head with
  | c :: d :: text =>
      if N.eqb c 47 && N.eqb d 42 then afterCommentEnd text else Some head
  | _ => Some head
  end.

(** The module parses only if the header comment is closed and the code
    after it does not begin with the punctuator [*], with which no statement
    starts. *)
Definition loads : bool :=
  match afterHeader with
  | Some text =>
      match trimStart text with
      | c :: _ => negb (N.eqb c 42)
      | [] => true
      end
  | None => false
  end.

Definition syntaxError : Failure :=
  mkFailure (Some (lit "Unexpected token '*'"))
    (lit "SyntaxError: Unexpected token '*'").

(** [node mermaid-check.mjs args]: a module that does not parse ends the
    process with status 1 before any of its statements runs. *)
Definition script (args : list str) : World num -> nat * World num :=
  if loads then mainCatch args
  else fun w => (1, snd (emit (Error (toString syntaxError)) w)).

End WithEnv.

End MermaidCheck.

(** ** extract.mjs: blocks written to files, metadata printed as JSON *)

Module ExtractScript.

Section WithEnv.

Context {num : Type} (env : Env num).
Local Open Scope proc_scope.

(** The text printed when a document has no block. *)
Definition noBlocksText (mdFile : str) : str :=
  [26410; 25214; 21040]%N ++ lit " Mermaid " ++ [20195; 30721; 22359]%N
    ++ lit ": " ++ mdFile.

Definition errorPrefix : str := [38169; 35823]%N ++ lit ": ".

Definition missingFileText (file : str) : str :=
  [25991; 20214; 19981; 23384; 22312]%N ++ lit ": " ++ file.

Definition main (args : list str) : M num unit :=
  match args with
  | [] => emit Usage ;;; exit 1
  | mdFile :: _ =>
      let outputDir := orDefault (nth_error args 1) (lit ".mermaid_temp") in
      w <- getWorld ;;
      if negb (existsSync w mdFile) then
        emit (Error (errorPrefix ++ missingFileText mdFile)) ;;; exit 1
      else
        content <- readFileSync mdFile ;;
        let blocks := extractMermaidBlocks content in
        match blocks with
        | [] => emit (Log (noBlocksText mdFile)) ;;; exit 0
        | _ :: _ =>
            mkdirSync env outputDir ;;;
            results <-
              forOf blocks
                (fun results block =>
                   let diagramType := detectDiagramType typeMapScripts (code block) in
                   let '(fileName, filePath) :=
                     blockFile env outputDir mdFile (index block) diagramType in
                   writeFileSync env filePath (code block) ;;;
                   ret (results ++
                          [mkBlockInfo fileName filePath (lineStart block)
                             (lineEnd block) diagramType (index block)]))
                [] ;;
            emit (StdoutExtract (mkExtractOutput mdFile outputDir (length blocks) results))
        end
  end.

Definition script (args : list str) : World num -> nat * World num :=
  runScript (main args)
    (fun error => emit (Error (errorPrefix ++ showMessage error)) ;;; exit 1).

End WithEnv.

End ExtractScript.

(** ** validate.mjs: one diagram file checked, the result printed as JSON *)

Module ValidateScript.

Section WithEnv.

Context {num : Type} (env : Env num).
Local Open Scope proc_scope.

Definition setupMermaidValidator : M num (str -> M num (ValidationResult num)) :=
  importModule_ env (lit "jsdom") ;;;
  emit Setup ;;;
  importModule_ env (lit "mermaid") ;;;
  ret (validator env).

Definition main (args : list str) : M num unit :=
  match args with
  | [] => emit Usage ;;; exit 1
  | mmdFile :: _ =>
      w <- getWorld ;;
      if negb (existsSync w mmdFile) then
        emit (Error (ExtractScript.missingFileText mmdFile)) ;;; exit 1
      else
        code <- readFileSync mmdFile ;;
        validator <- setupMermaidValidator ;;
        result <- validator code ;;
        emit (StdoutValidate
                (mkValidateOutput mmdFile (basename env mmdFile)
                   (detectDiagramType typeMapScripts code) result)) ;;;
        exit (if valid result then 0 else 1)
  end.

Definition script (args : list str) : World num -> nat * World num :=
  runScript (main args)
    (fun error => emit (Error (showMessage error)) ;;; exit 1).

End WithEnv.

End ValidateScript.

(** ** check.mjs: extract, validate every block in a child process, report *)

Module CheckScript.

Section WithEnv.

Context {num : Type} (env : Env num).
Local Open Scope proc_scope.

(** What a child does besides writing to its standard streams. *)
Definition isEffect (ev : event num) : bool :=
  match ev with
  | Setup | Parse _ | Exec _ _ | Mkdir _ | Cleanup _ => true
  | _ => false
  end.

Definition isStdout (ev : event num) : bool :=
  match ev with
  | Usage | Log _ | StdoutExtract _ | StdoutValidate _
  | PrintResults _ _ | PrintSummary _ | PrintReport _ | PrintJson _ => true
  | _ => false
  end.

Definition commandFailed : Failure := errorOf (lit "Command failed").
Definition syntaxError : Failure :=
  mkFailure (Some (lit "Unexpected token"))
    (lit "SyntaxError: Unexpected token").

(** The characters /bin/sh interprets between double quotes: the double
    quote, [$], the backslash and the backquote. *)
Definition shellSpecial (c : char) : bool :=
  N.eqb c 34 || N.eqb c 36 || N.eqb c 92 || N.eqb c 96.

(** A text the shell leaves as it is between double quotes. *)
Definition plainWord (s : str) : bool := forallb (fun c => negb (shellSpecial c)) s.

(** The arguments the script [name] is started on by the command line
    [node "${scriptPath}" "${arg}" ...]: the arguments as they are when the
    quoted texts are plain, what the shell makes of them otherwise. *)
Definition shell (name : str) (args : list str) : option (list str) :=
  if forallb plainWord (scriptPath env name :: args) then Some args
  else sh env name args.

(** [execSync(`node "${scriptPath}" "${arg}" ...`, { encoding: 'utf-8' })]:
    the command line goes through /bin/sh; the child runs on the same file
    system; its standard output is returned when its exit status is 0 and its
    output fits the buffer, an error is thrown otherwise.  (The scripts print
    as their last action: a child stopped for its output is taken to have run
    to its end.) *)
Definition execSync (name : str) (args : list str)
    (child : list str -> World num -> nat * World num) : M num (list (event num)) :=
  emit (Exec name args) ;;;
  fun w =>
    match shell name args with
    | None => (Throw commandFailed, w)
    | Some argv =>
        let '(status, w') :=
          child argv (mkWorld (clock w) [] (existsSync w) (files w)) in
        let w'' :=
          mkWorld (clock w') (trace w ++ filter isEffect (trace w'))
            (existsSync w') (files w') in
        if (status =? 0) && negb (overflows env (trace w'))
        then (Return (filter isStdout (trace w')), w'')
        else (Throw commandFailed, w'')
    end.

(** [JSON.parse(output)] of the output of extract.mjs *)
Definition extractBlocks (mdFile outputDir : str) : M num ExtractOutput :=
  output <- execSync (lit "extract.mjs") [mdFile; outputDir]
              (ExtractScript.script env) ;;
  match output with
  | [StdoutExtract o] => ret o
  | _ => throw syntaxError
  end.

(** [JSON.parse(output)] of the output of validate.mjs *)
Definition validateFile (mmdFile : str) : M num (ValidateOutput num) :=
  output <- execSync (lit "validate.mjs") [mmdFile]
              (ValidateScript.script env) ;;
  match output with
  | [StdoutValidate o] => ret o
  | _ => throw syntaxError
  end.

(** A diagram type after [JSON.stringify] and [JSON.parse]. *)
Definition viaJson (v : value) : option str :=
  match v with
  | VString s => Some s
  | VInherited _ => None
  end.

(** [try { fs.rmSync(outputDir, { recursive: true, force: true }) } catch (e) {}] *)
Definition cleanup (outputDir : str) : M num unit :=
  tryCatch (rmSync env outputDir) (fun _ => ret tt).

(** The variables the validation loop updates. *)
Record totals := mkTotals {
  t_blocks : list (CheckedBlock num);
  t_totalTime : num;
  t_validCount : nat;
  t_invalidCount : nat
}.

(** The [try] block of [main]. *)
Definition tryBlock (mdFile outputDir : str) (keepTemp quiet : bool) : M num unit :=
  extractResult <- extractBlocks mdFile outputDir ;;
  if eo_totalBlocks extractResult =? 0 then
    (if quiet then ret tt
     else emit (Log (ExtractScript.noBlocksText mdFile))) ;;;
    exit 0
  else
    t <- forOf (eo_blocks extractResult)
           (fun t blockInfo =>
              validationResult <- validateFile (bi_filePath blockInfo) ;;
              let r := vo_result validationResult in
              ret (mkTotals
                     (t_blocks t ++
                        [mkCheckedBlock blockInfo
                           (viaJson (bi_diagramType blockInfo))
                           (valid r) (executionTime r) (error r)])
                     (add env (t_totalTime t) (executionTime r))
                     (if valid r then S (t_validCount t) else t_validCount t)
                     (if valid r then t_invalidCount t else S (t_invalidCount t))))
           (mkTotals [] (zero env) 0 0) ;;
    let result :=
      mkReport mdFile outputDir (eo_totalBlocks extractResult)
        (t_validCount t) (t_invalidCount t) (t_blocks t) (t_totalTime t) in
    (if quiet then emit (PrintJson result) else emit (PrintReport result)) ;;;
    (if keepTemp then ret tt else cleanup outputDir) ;;;
    exit (if 0 <? t_invalidCount t then 1 else 0).

(** The [catch] clause of [main]. *)
Definition catchClause (outputDir : str) (error : Failure) : M num unit :=
  emit (Error (ExtractScript.errorPrefix ++ showMessage error)) ;;;
  cleanup outputDir ;;;
  exit 1.

Definition main (args : list str) : M num unit :=
  match args with
  | [] => emit Usage ;;; exit 1
  | mdFile :: _ =>
      let outputDir := orDefault (nth_error args 1) (lit ".mermaid_temp") in
      let keepTemp := includes args (lit "--keep-temp") in
      let quiet := includes args (lit "--quiet") in
      w <- getWorld ;;
      if negb (existsSync w mdFile) then
        emit (Error (ExtractScript.errorPrefix ++ ExtractScript.missingFileText mdFile)) ;;;
        exit 1
      else
        tryCatch (tryBlock mdFile outputDir keepTemp quiet) (catchClause outputDir)
  end.

Definition script (args : list str) : World num -> nat * World num :=
  runScript (main args)
    (fun error => emit (Error (lit "Fatal error: " ++ toString error)) ;;; exit 1).

End WithEnv.

End CheckScript.

(** ** Vocabulary of the statements about extraction *)

Module Fences.

(** The line with 1-based number [n]. *)
Definition lineAt (lines : list str) (n : nat) : option str :=
  match n with
  | 0 => None
  | S k => nth_error lines k
  end.

Definition isOpen (line : str) : bool := str_eqb (trim line) OPEN.
Definition isClose (line : str) : bool := str_eqb (trim line) CLOSE.

(** A line that leaves the extractor outside: anything but an opening fence. *)
Definition plain (line : str) : bool := negb (isOpen line).
(** A line that is content of an open block: neither marker. *)
Definition content (line : str) : bool := negb (isOpen line) && negb (isClose line).

(** A well-formed fence with the text in front of it. *)
Record fence := mkFence {
  outside : list str;
  opening : str;
  body : list str;
  closing : str
}.

Definition fenceLines (f : fence) : list str :=
  outside f ++ opening f :: body f ++ [closing f].

Definition wellFormed (f : fence) : bool :=
  forallb plain (outside f) && isOpen (opening f)
  && forallb content (body f) && isClose (closing f).

(** The lines of a document: fences in order, then what follows the last. *)
Definition document (fs : list fence) (rest : list str) : list str :=
  flat_map fenceLines fs ++ rest.

(** The blocks of [fs] when its first line has 0-based position [i] and
    [k] blocks were found before. *)
Fixpoint expected (fs : list fence) (i k : nat) : list Block :=
  match fs with
  | [] => []
  | f :: fs' =>
      mkBlock (join NL (body f))
        (i + length (outside f) + 1)
        (i + length (outside f) + 1 + length (body f)) k
      :: expected fs' (i + length (fenceLines f)) (S k)
  end.

Definition openMarkers (lines : list str) : nat := length (filter isOpen lines).

(** Where the line numbers of a block point: [lineStart] is the number of
    the opening fence line, [lineEnd + 1] the number of the closing one. *)
Definition located (lines : list str) (b : Block) : Prop :=
  lineStart b <= lineEnd b
  /\ (exists o, lineAt lines (lineStart b) = Some o /\ isOpen o = true)
  /\ (exists c, lineAt lines (lineEnd b + 1) = Some c /\ isClose c = true).

(** The reading in which [lineStart] numbers the first content line (the
    line after the opening fence) and [lineEnd] the closing fence line. *)
Definition locatedByContent (lines : list str) (b : Block) : Prop :=
  lineStart b <= lineEnd b
  /\ (exists o, lineAt lines (lineStart b - 1) = Some o /\ isOpen o = true)
  /\ (exists c, lineAt lines (lineEnd b) = Some c /\ isClose c = true).

(** What the loop maintains after the lines [pre]. *)
Definition scanned (pre : list str) (st : scan) : Prop :=
  Forall (located pre) (blocks st)
  /\ (inMermaidBlock st = true ->
      blockStart st <= length pre
      /\ exists o, lineAt pre (blockStart st) = Some o /\ isOpen o = true).

End Fences.

Import Fences.

(** ** Vocabulary of the statements about type inference and validation *)

Module Vocabulary.

Definition isLetter (c : char) : bool :=
  (N.leb 65 c && N.leb c 90) || (N.leb 97 c && N.leb c 122).

(** The code starts with a letter: it has a leading alphabetic token. *)
Definition startsWithLetter (code : str) : bool :=
  match code with
  | [] => false
  | c :: _ => isLetter c
  end.

Definition startsWithWordChar (code : str) : bool :=
  match code with
  | [] => false
  | c :: _ => isWordChar c
  end.

(** The invariant of a validation result: valid without error, or invalid
    with a non-empty error. *)
Definition wellFormedResult {num : Type} (r : ValidationResult num) : Prop :=
  (valid r = true /\ error r = None)
  \/ (valid r = false /\ exists c m, error r = Some (c :: m)).

Definition isSome {A : Type} (o : option A) : bool :=
  match o with
  | Some _ => true
  | None => false
  end.

(** Times added the way the loops add them: from zero, left to right. *)
Definition sumTimes {num : Type} (env : Env num) (ts : list num) : num :=
  fold_left (add env) ts (zero env).



(** The parser rejects the code of this block. *)
Definition rejected {num : Type} (env : Env num) (b : Block) : bool :=
  isSome (parse env (code b)).

Definition isReport {num : Type} (ev : event num) : bool :=
  match ev with
  | PrintReport _ | PrintJson _ => true
  | _ => false
  end.

(** [r.invalidCount > 0] *)
Definition bad {num : Type} (r : FileResults num) : bool := 0 <? invalidCount r.

(** The first argument that is not an option, as mermaid-check.mjs finds it. *)
Definition firstOperand (args : list str) : option str :=
  nth_error (filter (fun a => negb (startsWith a (lit "-"))) args) 0.

(** Some block of the file at [path] is rejected by the parser. *)
Definition hasInvalid {num : Type} (env : Env num) (files : str -> option str)
    (path : str) : bool :=
  match files path with
  | Some content => existsb (rejected env) (extractMermaidBlocks content)
  | None => false
  end.

(** The exit status [main] of mermaid-check.mjs and its catch handler
    compute, read off their inputs. *)
Definition exitStatus {num : Type} (env : Env num) (args : list str)
    (files : str -> option str) : nat :=
  match args with
  | [] => 2
  | _ :: _ =>
      match importModule env (lit "mermaid") with
      | Some _ => 2
      | None =>
          match glob env (firstOperand args) None with
          | inl _ => 2
          | inr [] => 2
          | inr paths => if existsb (hasInvalid env files) paths then 1 else 0
          end
      end
  end.

(** The report events of a trace. *)
Definition reports {num : Type} (tr : list (event num)) : list (event num) :=
  filter isReport tr.

(** The world a child process starts in. *)
Definition childWorld {num : Type} (w : World num) : World num :=
  mkWorld (clock w) [] (existsSync w) (files w).

(** What extract.mjs prints as JSON: one entry per block, in order. *)
Definition extractShape (o : ExtractOutput) : Prop :=
  eo_totalBlocks o = length (eo_blocks o)
  /\ map bi_index (eo_blocks o) = seq 0 (length (eo_blocks o))
  /\ eo_totalBlocks o <> 0.

(** The validation loop of check.mjs: the totals it keeps. *)
Definition totalsOk {num : Type} (env : Env num) (done : list BlockInfo)
    (t : CheckScript.totals (num := num)) : Prop :=
  map (@cb_info num) (CheckScript.t_blocks t) = done
  /\ CheckScript.t_validCount t + CheckScript.t_invalidCount t = length done
  /\ CheckScript.t_totalTime t
     = sumTimes env (map (@cb_executionTime num) (CheckScript.t_blocks t)).

End Vocabulary.

Import Vocabulary.

(** ** A concrete environment, for running the scripts on examples *)

Module Sample.

(** The parser rejects exactly the diagrams that start with [bad]. *)
Definition sampleParse (code : str) : option Failure :=
  if startsWith code (lit "bad") then Some (errorOf (lit "Parse error on line 1"))
  else None.

Definition sampleGlob (pattern cwd : option str) : Failure + list str :=
  match pattern with
  | Some p => inr [p]
  | None => inl (errorOf (lit "invalid pattern"))
  end.

Definition digit (n : nat) : str := [N.of_nat n + 48]%N.

(** A shell in which no variable is set: [$name] expands to nothing.  Of the
    expansions between double quotes only this one is modelled. *)
Fixpoint expandUnset (skipping : bool) (s : str) : str :=
  match s with
  | [] => []
  | c :: r =>
      if N.eqb c 36 then expandUnset true r
      else if skipping && isWordChar c then expandUnset true r
      else c :: expandUnset false r
  end.

(** [p] is [dir] or starts with [dir] and a slash. *)
Definition below (dir p : str) : bool :=
  str_eqb p dir || startsWith p (dir ++ lit "/").

(** A host with the given parser, module loader and glob: scripts installed
    under /plugin, every file operation permitted. *)
Definition hostEnv (parse : str -> option Failure)
    (importModule : str -> option Failure)
    (glob : option str -> option str -> Failure + list str) : Env Z :=
  mkEnv 0%Z Z.add Z.sub (fun n => Z.of_nat (n * n)) parse importModule glob
    (fun p => p)
    (fun dir md i _ =>
       (md ++ lit "_block" ++ digit i,
        dir ++ lit "/" ++ md ++ lit "_block" ++ digit i))
    (fun name => lit "/plugin/" ++ name)
    (fun _ args => Some (map (expandUnset false) args))
    below
    (fun _ => None) (fun _ => None) (fun _ => None) (fun _ => false).

Definition sampleEnv : Env Z := hostEnv sampleParse (fun _ => None) sampleGlob.

(** The same, where the pattern matches no file. *)
Definition noMatchEnv : Env Z :=
  hostEnv sampleParse (fun _ => None) (fun _ _ => inr []).

(** The same, where mermaid cannot be loaded. *)
Definition noMermaidEnv : Env Z :=
  hostEnv sampleParse
    (fun _ => Some (errorOf (lit "Cannot find package 'mermaid'"))) sampleGlob.

(** The same, where jsdom loads and mermaid does not. *)
Definition jsdomOnlyEnv : Env Z :=
  hostEnv sampleParse
    (fun name =>
       if str_eqb name (lit "mermaid")
       then Some (errorOf (lit "Cannot find package 'mermaid'")) else None)
    sampleGlob.

(** A parser that rejects with the empty string ([throw '']): no message,
    the empty string form. *)
Definition silentEnv : Env Z :=
  hostEnv (fun _ => Some (mkFailure None [])) (fun _ => None) sampleGlob.

(** A file system holding the given readable files and nothing else. *)
Definition worldOf (fs : list (str * str)) : World Z :=
  mkWorld 0 [] (fun p => existsb (fun kv => str_eqb p (fst kv)) fs)
    (fun p => ownProperty fs p).

(** A file system where [path] exists but cannot be read. *)
Definition unreadable (path : str) : World Z :=
  mkWorld 0 [] (fun p => str_eqb p path) (fun _ => None).

Definition doc (lines : list string) : str := join NL (map lit lines).

Definition goodAndBad : str :=
  doc ["x"; "```mermaid"; "graph TD"; "```"; "```mermaid"; "bad ->"; "```"]%string.
Definition twoGood : str :=
  doc ["x"; "```mermaid"; "graph TD"; "```"; "```mermaid"; "pie"; "```"]%string.

Definition noDiagram : str := doc ["# Title"; "plain text"]%string.
Definition oneBlock : str := doc ["```mermaid"; "A"; "```"]%string.
Definition nestedOpen : str :=
  doc ["```mermaid"; "A"; "```mermaid"; "B"; "```"]%string.
Definition twoFences : str :=
  doc ["# t"; "```mermaid"; "graph TD"; "```"; "```"; ""; " ```mermaid"; "pie";
       "```"; "end"]%string.
Definition unterminated : str :=
  doc ["# t"; "```mermaid"; "graph TD"; "```"; "text"; "```mermaid"; "pie"; ""]%string.

End Sample.

(** ** Vocabulary of the further statements *)

Module Further.

Definition closeMarkers (lines : list str) : nat := length (filter isClose lines).

(** The lines with 0-based positions [from], ..., [to - 1]. *)
Definition slice (lines : list str) (from to : nat) : list str :=
  firstn (to - from) (skipn from lines).

(** Blocks in document order that do not overlap: each ends before the
    next one starts. *)
Definition before (b1 b2 : Block) : Prop := lineEnd b1 < lineStart b2.

(** A block found [i] lines and [k] blocks further down. *)
Definition shift (i k : nat) (b : Block) : Block :=
  mkBlock (code b) (lineStart b + i) (lineEnd b + i) (index b + k).

(** The scan of a document ends outside any block. *)
Definition endsOutside (content : str) : bool :=
  negb (inMermaidBlock (loop init 0 (split NL content))).

(** The scan from [st0] at position 0 and the scan from [st] at position
    [i], after the same lines. *)
Definition shifted (i k : nat) (prefix : list Block) (st0 st : scan) : Prop :=
  blocks st = prefix ++ map (shift i k) (blocks st0)
  /\ inMermaidBlock st = inMermaidBlock st0
  /\ blockIndex st = blockIndex st0 + k
  /\ (inMermaidBlock st0 = true ->
      blockStart st = blockStart st0 + i /\ blockContent st = blockContent st0).

(** What the loop keeps about the accumulated content, after the lines
    [pre]. *)
Definition gathering (pre : list str) (st : scan) : Prop :=
  (inMermaidBlock st = true ->
   blockStart st <= length pre
   /\ blockContent st = skipn (blockStart st) pre
   /\ forallb content (blockContent st) = true
   /\ Forall (fun b => lineEnd b < blockStart st) (blocks st))
  /\ Forall (fun b => lineEnd b < length pre) (blocks st)
  /\ Forall (fun b => code b = join NL (slice pre (lineStart b) (lineEnd b))
                      /\ forallb content (split NL (code b)) = true)
       (blocks st)
  /\ ForallOrdPairs before (blocks st)
  /\ blockIndex st + (if inMermaidBlock st then 1 else 0) <= openMarkers pre
  /\ blockIndex st <= closeMarkers pre
  /\ length (blocks st) = blockIndex st.

(** The environment [env] with another [glob]. *)
Definition withGlob {num : Type} (env : Env num)
    (g : option str -> option str -> Failure + list str) : Env num :=
  mkEnv (zero env) (add env) (sub env) (now env) (parse env) (importModule env)
    g (basename env) (blockFile env) (scriptPath env) (sh env) (inside env)
    (mkdirError env) (writeError env) (rmFailure env) (overflows env).

Definition isSetup {num : Type} (ev : event num) : bool :=
  match ev with
  | Setup => true
  | _ => false
  end.

(** How often the validator environment was set up. *)
Definition setups {num : Type} (tr : list (event num)) : nat :=
  length (filter isSetup tr).

(** The values [printSummary] computes from the results of the files. *)
Record Summary (num : Type) := mkSummary {
  s_totalFiles : nat;
  s_totalDiagrams : nat;
  s_totalValid : nat;
  s_totalInvalid : nat;
  s_totalTime : num;
  s_filesWithErrors : nat
}.

Arguments s_totalFiles {num}.
Arguments s_totalDiagrams {num}.
Arguments s_totalValid {num}.
Arguments s_totalInvalid {num}.
Arguments s_totalTime {num}.
Arguments s_filesWithErrors {num}.

Definition printSummary {num : Type} (env : Env num)
    (results : list (FileResults num)) : Summary num :=
  mkSummary (length results)
    (fold_left (fun sum r => sum + totalDiagrams r) results 0)
    (fold_left (fun sum r => sum + validCount r) results 0)
    (fold_left (fun sum r => sum + invalidCount r) results 0)
    (fold_left (fun sum r => add env sum (totalTime r)) results (zero env))
    (length (filter (fun r => 0 <? invalidCount r) results)).

(** The entry extract.mjs builds for a block. *)
Definition blockInfoOf {num : Type} (env : Env num) (outputDir mdFile : str)
    (b : Block) : BlockInfo :=
  let diagramType := detectDiagramType typeMapScripts (code b) in
  mkBlockInfo (fst (blockFile env outputDir mdFile (index b) diagramType))
    (snd (blockFile env outputDir mdFile (index b) diagramType))
    (lineStart b) (lineEnd b) diagramType (index b).

(** The file extract.mjs writes a block to. *)
Definition blockPath {num : Type} (env : Env num) (outputDir mdFile : str)
    (b : Block) : str :=
  bi_filePath (blockInfoOf env outputDir mdFile b).

(** The directory check.mjs and extract.mjs use for the block files. *)
Definition tempDir (args : list str) : str :=
  orDefault (nth_error args 1) (lit ".mermaid_temp").

(** The paths of a list are pairwise different. *)
Fixpoint distinct (paths : list str) : bool :=
  match paths with
  | [] => true
  | p :: rest => negb (existsb (str_eqb p) rest) && distinct rest
  end.

(** No write to one of these paths is refused. *)
Definition writable {num : Type} (env : Env num) (paths : list str) : bool :=
  forallb (fun p => negb (isSome (writeError env p))) paths.

(** A block entry of a report of check.mjs that records a valid diagram. *)
Definition checkedValid {num : Type} (b : CheckedBlock num) : Prop :=
  cb_valid b = true /\ cb_error b = None.

End Further.

Import Further.

(** * Properties *)

Unset Implicit Arguments.

(** ** Strings *)

Module JSFacts.

Lemma str_eqb_eq (a b : str) : str_eqb a b = true <-> a = b.
Proof.
  revert b; induction a as [|x a IH]; intros [|y b]; simpl; split;
    try congruence; try reflexivity.
  - intros H. apply andb_true_iff in H as [Hx Hr].
    apply N.eqb_eq in Hx. apply IH in Hr. congruence.
  - intros H. injection H as -> ->. rewrite N.eqb_refl. simpl. now apply IH.
Qed.

Lemma str_eqb_refl (a : str) : str_eqb a a = true.
Proof. now apply str_eqb_eq. Qed.

Lemma str_eqb_neq (a b : str) : str_eqb a b = false <-> a <> b.
Proof.
  split.
  - intros H E. apply str_eqb_eq in E. congruence.
  - intros H. destruct (str_eqb a b) eqn:E; [|reflexivity].
    apply str_eqb_eq in E. contradiction.
Qed.

Lemma split_nonempty (sep : char) (s : str) : split sep s <> [].
Proof.
  destruct s as [|c r]; simpl; [discriminate|].
  destruct (N.eqb c sep); [discriminate|].
  destruct (split sep r); discriminate.
Qed.

Lemma split_cons_other (sep c : char) (r : str) :
  N.eqb c sep = false ->
  exists l ls, split sep r = l :: ls /\ split sep (c :: r) = (c :: l) :: ls.
Proof.
  intros H. simpl. rewrite H.
  destruct (split sep r) as [|l ls] eqn:E.
  - now apply split_nonempty in E.
  - now exists l, ls.
Qed.

(** Splitting distributes over a separator. *)
Lemma split_app (sep : char) (a b : str) :
  split sep (a ++ sep :: b) = split sep a ++ split sep b.
Proof.
  induction a as [|c a IH]; simpl.
  - now rewrite N.eqb_refl.
  - destruct (N.eqb c sep); [now rewrite IH|].
    rewrite IH. destruct (split sep a) as [|l ls] eqn:E.
    + now apply split_nonempty in E.
    + reflexivity.
Qed.

Lemma split_no_sep (sep : char) (l : str) :
  ~ In sep l -> split sep l = [l].
Proof.
  induction l as [|c l IH]; intros H; simpl; [reflexivity|].
  destruct (N.eqb c sep) eqn:E.
  - apply N.eqb_eq in E. exfalso. apply H. now left.
  - rewrite IH; [reflexivity|]. intros Hin. apply H. now right.
Qed.

Lemma join_cons (sep : char) (l : str) (ls : list str) :
  ls <> [] -> join sep (l :: ls) = l ++ sep :: join sep ls.
Proof. destruct ls; [congruence|reflexivity]. Qed.

(** [s.split(sep).join(sep)] gives [s] back. *)
Lemma join_split (sep : char) (s : str) : join sep (split sep s) = s.
Proof.
  induction s as [|c r IH]; [reflexivity|].
  destruct (N.eqb c sep) eqn:E.
  - simpl. rewrite E. rewrite join_cons by apply split_nonempty.
    apply N.eqb_eq in E. simpl. now rewrite IH, E.
  - destruct (split_cons_other sep c r E) as (l & ls & E1 & E2).
    rewrite E2. rewrite E1 in IH.
    destruct ls as [|l' ls'].
    + simpl in *. now rewrite IH.
    + change (join sep ((c :: l) :: l' :: ls')) with (c :: join sep (l :: l' :: ls')).
      now rewrite IH.
Qed.

(** Lines without a separator, joined and split again, are the same lines. *)
Lemma split_join (sep : char) (ls : list str) :
  ls <> [] -> Forall (fun l => ~ In sep l) ls -> split sep (join sep ls) = ls.
Proof.
  induction ls as [|l ls IH]; intros Hne Hall; [congruence|].
  inversion Hall as [|? ? Hl Hls]; subst.
  destruct ls as [|l' ls'].
  - simpl. now apply split_no_sep.
  - rewrite join_cons by discriminate.
    rewrite split_app, split_no_sep by assumption.
    rewrite IH; [reflexivity|discriminate|assumption].
Qed.

Lemma split_lines_no_sep (sep : char) (s : str) :
  Forall (fun l => ~ In sep l) (split sep s).
Proof.
  induction s as [|c r IH]; simpl.
  - constructor; [intros []|constructor].
  - destruct (N.eqb c sep) eqn:E.
    + constructor; [intros []|assumption].
    + destruct (split sep r) as [|l ls]; [repeat constructor|].
      * intros [H|[]]. subst. now rewrite N.eqb_refl in E.
      * inversion IH; subst. constructor; [|assumption].
        intros [H|H]; [subst; now rewrite N.eqb_refl in E|contradiction].
Qed.

End JSFacts.

Import JSFacts.

(** ** The extraction loop *)

Module ExtractFacts.

Lemma isClose_not_open (line : str) : isClose line = true -> isOpen line = false.
Proof.
  unfold isClose, isOpen. intros H. apply str_eqb_eq in H. now rewrite H.
Qed.

Lemma step_open (st : scan) (i : nat) (line : str) :
  isOpen line = true ->
  step st i line = mkScan (blocks st) true (i + 1) [] (blockIndex st).
Proof. unfold step, isOpen. now intros ->. Qed.

Lemma step_close (st : scan) (i : nat) (line : str) :
  inMermaidBlock st = true -> isClose line = true ->
  step st i line =
    mkScan (blocks st ++
              [mkBlock (join NL (blockContent st)) (blockStart st) i (blockIndex st)])
      false (blockStart st) [] (S (blockIndex st)).
Proof.
  intros Hin Hc. pose proof (isClose_not_open _ Hc) as Ho.
  unfold step. unfold isOpen in Ho. unfold isClose in Hc.
  now rewrite Ho, Hin, Hc.
Qed.

Lemma step_content (st : scan) (i : nat) (line : str) :
  inMermaidBlock st = true -> content line = true ->
  step st i line =
    mkScan (blocks st) true (blockStart st) (blockContent st ++ [line]) (blockIndex st).
Proof.
  unfold content, isOpen, isClose, step. intros Hin H.
  apply andb_true_iff in H as [Ho Hc].
  apply negb_true_iff in Ho, Hc. now rewrite Ho, Hin, Hc.
Qed.

Lemma step_outside (st : scan) (i : nat) (line : str) :
  inMermaidBlock st = false -> plain line = true -> step st i line = st.
Proof.
  unfold plain, isOpen, step. intros Hin H.
  apply negb_true_iff in H. now rewrite H, Hin.
Qed.

Lemma loop_app (st : scan) (i : nat) (a b : list str) :
  loop st i (a ++ b) = loop (loop st i a) (i + length a) b.
Proof.
  revert st i; induction a as [|l a IH]; intros st i; simpl.
  - now rewrite Nat.add_0_r.
  - rewrite IH. f_equal. lia.
Qed.

Lemma loop_outside (st : scan) (i : nat) (ls : list str) :
  inMermaidBlock st = false -> forallb plain ls = true -> loop st i ls = st.
Proof.
  revert i; induction ls as [|l ls IH]; intros i Hin H; simpl in *; [reflexivity|].
  apply andb_true_iff in H as [Hl Hls].
  rewrite step_outside by assumption. now apply IH.
Qed.

Lemma loop_content (st : scan) (i : nat) (ls : list str) :
  inMermaidBlock st = true -> forallb content ls = true ->
  loop st i ls =
    mkScan (blocks st) true (blockStart st) (blockContent st ++ ls) (blockIndex st).
Proof.
  revert st i; induction ls as [|l ls IH]; intros st i Hin H; simpl in *.
  - rewrite app_nil_r. destruct st; simpl in *. now subst.
  - apply andb_true_iff in H as [Hl Hls].
    rewrite step_content by assumption.
    rewrite IH by (simpl; auto). simpl. now rewrite <- app_assoc.
Qed.

(** One well-formed fence, met outside a block, yields exactly its block. *)
Lemma loop_fence (st : scan) (i : nat) (f : fence) :
  inMermaidBlock st = false -> wellFormed f = true ->
  loop st i (fenceLines f) =
    mkScan (blocks st ++
              [mkBlock (join NL (body f)) (i + length (outside f) + 1)
                 (i + length (outside f) + 1 + length (body f)) (blockIndex st)])
      false (i + length (outside f) + 1) [] (S (blockIndex st)).
Proof.
  intros Hin Hwf. unfold wellFormed in Hwf.
  repeat (apply andb_true_iff in Hwf as [Hwf ?]).
  unfold fenceLines.
  rewrite loop_app, (loop_outside st i (outside f)) by assumption.
  simpl loop at 1. rewrite step_open by assumption.
  rewrite loop_app.
  match goal with |- context [loop ?s ?j (body f)] =>
    rewrite (loop_content s j (body f)) by (simpl; auto) end.
  simpl. rewrite step_close by (simpl; auto). simpl.
  replace (S (i + length (outside f) + length (body f)))
    with (i + length (outside f) + 1 + length (body f)) by lia.
  reflexivity.
Qed.

Lemma loop_fences (fs : list fence) (st : scan) (i : nat) :
  inMermaidBlock st = false -> forallb wellFormed fs = true ->
  blocks (loop st i (flat_map fenceLines fs)) = blocks st ++ expected fs i (blockIndex st)
  /\ inMermaidBlock (loop st i (flat_map fenceLines fs)) = false
  /\ blockIndex (loop st i (flat_map fenceLines fs)) = blockIndex st + length fs.
Proof.
  revert st i; induction fs as [|f fs IH]; intros st i Hin H; simpl in *.
  - rewrite app_nil_r. auto.
  - apply andb_true_iff in H as [Hf Hfs].
    rewrite loop_app, loop_fence by assumption.
    match goal with |- context [loop ?s ?j (flat_map fenceLines fs)] =>
      destruct (IH s j eq_refl Hfs) as (Hb & Hi & Hk) end.
    rewrite Hb, Hi, Hk. simpl. rewrite <- app_assoc. simpl.
    repeat split; lia.
Qed.

Lemma expected_index (fs : list fence) (i k : nat) :
  map index (expected fs i k) = seq k (length fs).
Proof.
  revert i k; induction fs as [|f fs IH]; intros i k; simpl; [reflexivity|].
  now rewrite IH.
Qed.

Lemma expected_code (fs : list fence) (i k : nat) :
  map code (expected fs i k) = map (fun f => join NL (body f)) fs.
Proof.
  revert i k; induction fs as [|f fs IH]; intros i k; simpl; [reflexivity|].
  now rewrite IH.
Qed.

Lemma expected_length (fs : list fence) (i k : nat) :
  length (expected fs i k) = length fs.
Proof.
  rewrite <- (length_map index), expected_index. apply length_seq.
Qed.

(** The blocks of a document made of well-formed fences. *)
Lemma blocks_document (fs : list fence) (rest : list str) :
  forallb wellFormed fs = true -> forallb plain rest = true ->
  blocks (loop init 0 (document fs rest)) = expected fs 0 0.
Proof.
  intros Hfs Hrest. unfold document. rewrite loop_app.
  destruct (loop_fences fs init 0 eq_refl Hfs) as (Hb & Hi & _).
  match goal with |- context [loop ?s ?j rest] =>
    rewrite (loop_outside s j rest) by assumption end.
  exact Hb.
Qed.

(** The same when the document ends inside a fence that is never closed. *)
Lemma blocks_unterminated (fs : list fence) (pre : list str) (o : str) (ls : list str) :
  forallb wellFormed fs = true -> forallb plain pre = true ->
  isOpen o = true -> forallb content ls = true ->
  blocks (loop init 0 (document fs (pre ++ o :: ls))) = expected fs 0 0.
Proof.
  intros Hfs Hpre Ho Hls. unfold document. rewrite loop_app.
  destruct (loop_fences fs init 0 eq_refl Hfs) as (Hb & Hi & _).
  rewrite loop_app.
  match goal with |- context [loop ?s ?j pre] =>
    rewrite (loop_outside s j pre) by assumption end.
  simpl loop at 1. rewrite step_open by assumption.
  rewrite loop_content by (simpl; auto). exact Hb.
Qed.

Lemma openMarkers_app (a b : list str) :
  openMarkers (a ++ b) = openMarkers a + openMarkers b.
Proof. unfold openMarkers. now rewrite filter_app, length_app. Qed.

Lemma openMarkers_plain (ls : list str) :
  forallb plain ls = true -> openMarkers ls = 0.
Proof.
  unfold openMarkers, plain. induction ls as [|l ls IH]; simpl; [reflexivity|].
  intros H. apply andb_true_iff in H as [Hl Hls].
  apply negb_true_iff in Hl. rewrite Hl. auto.
Qed.

Lemma openMarkers_content (ls : list str) :
  forallb content ls = true -> openMarkers ls = 0.
Proof.
  intros H. apply openMarkers_plain.
  rewrite forallb_forall in *. intros l Hl. specialize (H l Hl).
  unfold content in H. now apply andb_true_iff in H as [H _].
Qed.

Lemma openMarkers_fences (fs : list fence) :
  forallb wellFormed fs = true -> openMarkers (flat_map fenceLines fs) = length fs.
Proof.
  induction fs as [|f fs IH]; simpl; intros H; [reflexivity|].
  apply andb_true_iff in H as [Hf Hfs].
  unfold wellFormed in Hf. repeat (apply andb_true_iff in Hf as [Hf ?]).
  rewrite openMarkers_app, IH by assumption.
  unfold fenceLines. rewrite openMarkers_app, openMarkers_plain by assumption.
  change (opening f :: body f ++ [closing f])
    with ([opening f] ++ body f ++ [closing f]).
  rewrite !openMarkers_app, (openMarkers_content (body f)) by assumption.
  unfold openMarkers. simpl.
  match goal with Ho : isOpen (opening f) = true |- _ => rewrite Ho end.
  match goal with Hc : isClose (closing f) = true |- _ =>
    rewrite (isClose_not_open _ Hc) end.
  reflexivity.
Qed.

End ExtractFacts.

Import ExtractFacts.

(** ** Line numbers of the extracted blocks *)

Module LineNumbers.

Lemma lineAt_app (pre ls : list str) (n : nat) (x : str) :
  lineAt pre n = Some x -> lineAt (pre ++ ls) n = Some x.
Proof.
  destruct n as [|k]; simpl; [discriminate|]. intros H.
  rewrite nth_error_app1; [assumption|].
  apply nth_error_Some. congruence.
Qed.

Lemma lineAt_last (pre : list str) (l : str) :
  lineAt (pre ++ [l]) (length pre + 1) = Some l.
Proof.
  rewrite Nat.add_1_r. simpl.
  rewrite nth_error_app2, Nat.sub_diag by lia. reflexivity.
Qed.

Lemma located_app (pre ls : list str) (b : Block) :
  located pre b -> located (pre ++ ls) b.
Proof.
  intros (Hle & (o & Ho & Hoo) & (c & Hc & Hcc)). repeat split.
  - assumption.
  - exists o. split; [now apply lineAt_app|assumption].
  - exists c. split; [now apply lineAt_app|assumption].
Qed.

Lemma scanned_init : scanned [] init.
Proof. split; [constructor|discriminate]. Qed.

Lemma scanned_step (pre : list str) (st : scan) (line : str) :
  scanned pre st -> scanned (pre ++ [line]) (step st (length pre) line).
Proof.
  intros [Hbs Hopen].
  assert (Hbs' : Forall (located (pre ++ [line])) (blocks st)).
  { eapply Forall_impl; [|exact Hbs]. intros b. apply located_app. }
  destruct (isOpen line) eqn:Ho.
  - rewrite step_open by assumption. split; simpl; [assumption|].
    intros _. rewrite length_app. simpl. split; [lia|].
    exists line. split; [apply lineAt_last|assumption].
  - destruct (inMermaidBlock st) eqn:Hin.
    + destruct (Hopen eq_refl) as (Hle & o & Hat & Hoo).
      destruct (isClose line) eqn:Hc.
      * rewrite step_close by assumption. split; simpl; [|discriminate].
        apply Forall_app. split; [assumption|].
        constructor; [|constructor]. repeat split; simpl.
        -- assumption.
        -- exists o. split; [now apply lineAt_app|assumption].
        -- exists line. split; [apply lineAt_last|assumption].
      * rewrite step_content by (try assumption; unfold content; now rewrite Ho, Hc).
        split; simpl; [assumption|]. intros _. rewrite length_app. simpl.
        split; [lia|]. exists o. split; [now apply lineAt_app|assumption].
    + rewrite step_outside by (try assumption; unfold plain; now rewrite Ho).
      split; [assumption|]. intros E. congruence.
Qed.

Lemma scanned_loop (lines pre : list str) (st : scan) :
  scanned pre st -> scanned (pre ++ lines) (loop st (length pre) lines).
Proof.
  revert pre st; induction lines as [|l lines IH]; intros pre st H; simpl.
  - now rewrite app_nil_r.
  - apply scanned_step with (line := l) in H.
    apply IH in H. rewrite length_app, <- app_assoc in H. simpl in H.
    now rewrite Nat.add_1_r in H.
Qed.

End LineNumbers.

Import LineNumbers.

(** ** Statements about the extractor *)

Module ExtractSpec.

Import Sample.

Example extract_one :
  extractMermaidBlocks
    (doc ["# t"; "```mermaid"; "graph TD"; "  A-->B"; "```"; "end"]%string)
  = [mkBlock (doc ["graph TD"; "  A-->B"]%string) 2 4 0].
Proof. reflexivity. Qed.

Example extract_indented_fences :
  extractMermaidBlocks (doc ["  ```mermaid  "; " x "; "   ```"]%string)
  = [mkBlock (lit " x ") 1 2 0].
Proof. reflexivity. Qed.

Example extract_other_language :
  extractMermaidBlocks (doc ["```js"; "x"; "```"]%string) = [].
Proof. reflexivity. Qed.

(** An opening fence inside an open block starts the block again. *)
Example extract_nested_open :
  extractMermaidBlocks nestedOpen = [mkBlock (lit "B") 3 4 0].
Proof. reflexivity. Qed.

(** C2, as stated, fails: inside an open block a line whose trimmed content
    is the opening marker is not appended; it empties the accumulated content
    and moves the start position. *)
Lemma nested_open_fence_not_content :
  ~ (forall (st : scan) (i : nat) (line : str),
       inMermaidBlock st = true -> isClose line = false ->
       blockContent (step st i line) = blockContent st ++ [line]
       /\ blockStart (step st i line) = blockStart st).
Proof.
  intros H.
  destruct (H (loop init 0 [OPEN; lit "A"]) 2 OPEN eq_refl eq_refl) as [Hc _].
  vm_compute in Hc. discriminate Hc.
Qed.

(** C2 (amended): inside an open block, a line whose trimmed content is
    neither marker is appended verbatim to the accumulated content and nothing
    else changes; a line whose trimmed content is the opening marker keeps the
    block open but discards the accumulated content and resets the start
    position to that line. *)
Theorem open_block_step (st : scan) (i : nat) (line : str) :
  inMermaidBlock st = true ->
  (content line = true ->
     step st i line =
       mkScan (blocks st) true (blockStart st) (blockContent st ++ [line])
         (blockIndex st))
  /\ (isOpen line = true ->
        step st i line = mkScan (blocks st) true (i + 1) [] (blockIndex st)).
Proof.
  intros Hin. split.
  - now apply step_content.
  - now apply step_open.
Qed.

Lemma open_block_step_witness :
  step (mkScan [] true 1 [lit "A"] 0) 2 (lit "  B") =
    mkScan [] true 1 [lit "A"; lit "  B"] 0
  /\ step (mkScan [] true 1 [lit "A"] 0) 2 OPEN = mkScan [] true 3 [] 0.
Proof.
  split.
  - apply (proj1 (open_block_step (mkScan [] true 1 [lit "A"] 0) 2 (lit "  B") eq_refl)).
    reflexivity.
  - apply (proj2 (open_block_step (mkScan [] true 1 [lit "A"] 0) 2 OPEN eq_refl)).
    reflexivity.
Defined.

(** C3, as stated, fails: for the three-line document made of an opening
    fence, one content line and a closing fence, the block has [lineStart = 1]
    (the fence line, not the content line 2) and [lineEnd = 2] (the content
    line, not the closing fence line 3). *)
Lemma line_numbers_not_by_content :
  ~ (forall (content : str) (b : Block),
       In b (extractMermaidBlocks content) ->
       locatedByContent (split NL content) b).
Proof.
  intros H.
  destruct (H oneBlock (mkBlock (lit "A") 1 2 0) (or_introl eq_refl))
    as (_ & (o & Ho & _) & _).
  discriminate Ho.
Qed.

(** C3 (amended): for every extracted block, [lineStart] is the 1-based
    number of the opening fence line, [lineEnd] is the 0-based position of the
    closing fence line (so the closing fence is line [lineEnd + 1]), and
    [lineStart <= lineEnd]. *)
Theorem block_line_numbers (content : str) (b : Block) :
  In b (extractMermaidBlocks content) -> located (split NL content) b.
Proof.
  intros Hin.
  pose proof (scanned_loop (split NL content) [] init scanned_init) as [Hall _].
  simpl in Hall. unfold extractMermaidBlocks in Hin.
  rewrite Forall_forall in Hall. now apply Hall.
Qed.

Lemma block_line_numbers_witness :
  located (split NL oneBlock) (mkBlock (lit "A") 1 2 0).
Proof.
  apply (block_line_numbers oneBlock (mkBlock (lit "A") 1 2 0)).
  vm_compute. left. reflexivity.
Defined.

(** C9: a document of [N] well-formed fences (each opened and closed, no
    marker inside) yields exactly [N] blocks, with indices [0..N-1] and the
    bodies of the fences in document order; when such a document goes on with
    one more opening fence that is never closed, no block is emitted for it:
    the blocks are one fewer than the opening markers. *)
Theorem well_formed_fences_extracted :
  (forall (content : str) (fs : list fence) (rest : list str),
     split NL content = document fs rest ->
     forallb wellFormed fs = true -> forallb plain rest = true ->
     length (extractMermaidBlocks content) = length fs
     /\ map index (extractMermaidBlocks content) = seq 0 (length fs)
     /\ map code (extractMermaidBlocks content) = map (fun f => join NL (body f)) fs
     /\ openMarkers (split NL content) = length fs)
  /\ (forall (content : str) (fs : list fence) (pre : list str) (o : str)
        (ls : list str),
        split NL content = document fs (pre ++ o :: ls) ->
        forallb wellFormed fs = true -> forallb plain pre = true ->
        isOpen o = true -> forallb Fences.content ls = true ->
        length (extractMermaidBlocks content) = length fs
        /\ map index (extractMermaidBlocks content) = seq 0 (length fs)
        /\ openMarkers (split NL content) = S (length fs)).
Proof.
  split.
  - intros content fs rest Hdoc Hfs Hrest. unfold extractMermaidBlocks.
    rewrite Hdoc, blocks_document by assumption.
    rewrite expected_length, expected_index, expected_code.
    repeat split. unfold document.
    rewrite openMarkers_app, openMarkers_fences, openMarkers_plain by assumption.
    lia.
  - intros content fs pre o ls Hdoc Hfs Hpre Ho Hls. unfold extractMermaidBlocks.
    rewrite Hdoc, blocks_unterminated by assumption.
    rewrite expected_length, expected_index.
    repeat split. unfold document.
    rewrite openMarkers_app, openMarkers_fences by assumption.
    rewrite openMarkers_app, openMarkers_plain by assumption.
    change (o :: ls) with ([o] ++ ls).
    rewrite openMarkers_app, (openMarkers_content ls) by assumption.
    unfold openMarkers. simpl. rewrite Ho. simpl. lia.
Qed.

Lemma well_formed_fences_extracted_witness :
  (length (extractMermaidBlocks twoFences) = 2
   /\ map index (extractMermaidBlocks twoFences) = [0; 1]
   /\ map code (extractMermaidBlocks twoFences) = [lit "graph TD"; lit "pie"]
   /\ openMarkers (split NL twoFences) = 2)
  /\ (length (extractMermaidBlocks unterminated) = 1
      /\ map index (extractMermaidBlocks unterminated) = [0]
      /\ openMarkers (split NL unterminated) = 2).
Proof.
  split.
  - apply (proj1 well_formed_fences_extracted twoFences
             [mkFence [lit "# t"] OPEN [lit "graph TD"] CLOSE;
              mkFence [lit "```"; lit ""] (lit " ```mermaid") [lit "pie"] CLOSE]
             [lit "end"]); reflexivity.
  - apply (proj2 well_formed_fences_extracted unterminated
             [mkFence [lit "# t"] OPEN [lit "graph TD"] CLOSE]
             [lit "text"] OPEN [lit "pie"; lit ""]); reflexivity.
Defined.

(** C10: wrapping a text none of whose lines trims to a marker between an
    opening and a closing fence and extracting gives exactly one block, whose
    code is the text. *)
Theorem fenced_round_trip (S : str) :
  forallb Fences.content (split NL S) = true ->
  extractMermaidBlocks (join NL (OPEN :: split NL S ++ [CLOSE]))
  = [mkBlock S 1 (1 + length (split NL S)) 0].
Proof.
  intros Hbody. unfold extractMermaidBlocks.
  rewrite split_join.
  - replace (OPEN :: split NL S ++ [CLOSE])
      with (document [mkFence [] OPEN (split NL S) CLOSE] [])
      by (unfold document, fenceLines; simpl; now rewrite !app_nil_r).
    rewrite blocks_document.
    + simpl. now rewrite join_split.
    + simpl. unfold wellFormed. simpl. now rewrite Hbody.
    + reflexivity.
  - discriminate.
  - constructor.
    + vm_compute. intuition discriminate.
    + apply Forall_app. split; [apply split_lines_no_sep|].
      constructor; [|constructor]. vm_compute. intuition discriminate.
Qed.

Lemma fenced_round_trip_witness :
  extractMermaidBlocks
    (join NL (OPEN :: split NL (doc ["graph TD"; ""; "  A --> B"]%string) ++ [CLOSE]))
  = [mkBlock (doc ["graph TD"; ""; "  A --> B"]%string) 1 4 0].
Proof.
  apply (fenced_round_trip (doc ["graph TD"; ""; "  A --> B"]%string)).
  reflexivity.
Defined.

End ExtractSpec.

(** ** Diagram-type inference *)

Module DiagramTypeSpec.

Lemma leadingWord_prefix (code : str) :
  exists rest, code = leadingWord code ++ rest
               /\ forallb isWordChar (leadingWord code) = true
               /\ startsWithWordChar rest = false.
Proof.
  induction code as [|c r (rest & E & Hall & Hrest)]; simpl.
  - now exists [].
  - destruct (isWordChar c) eqn:Hc.
    + exists rest. simpl. rewrite Hc, Hall. now rewrite <- E.
    + exists (c :: r). simpl. now rewrite Hc.
Qed.

Lemma leadingWord_empty (code : str) :
  startsWithWordChar code = false -> leadingWord code = [].
Proof. destruct code as [|c r]; simpl; [reflexivity|]. now intros ->. Qed.

Example detect_flowchart_keyword :
  detectDiagramType typeMapScripts (lit "flowchart TD") = VString (lit "flowchart").
Proof. reflexivity. Qed.

Example detect_journey_standalone :
  detectDiagramType typeMapStandalone (lit "journey") = VString (lit "journey map").
Proof. reflexivity. Qed.

Example detect_journey_scripts :
  detectDiagramType typeMapScripts (lit "journey") = VString (lit "journey-map").
Proof. reflexivity. Qed.

Example detect_leading_space :
  detectDiagramType typeMapScripts (lit " graph TD") = VString (lit "unknown").
Proof. reflexivity. Qed.

Example detect_longer_word :
  detectDiagramType typeMapScripts (lit "graphics TD") = VString (lit "graphics").
Proof. reflexivity. Qed.

(** A leading word that names a member of [Object.prototype] finds that
    member in the table lookup. *)
Example detect_inherited_name :
  detectDiagramType typeMapScripts (lit "constructor A")
  = VInherited (lit "constructor").
Proof. reflexivity. Qed.

(** C7, as stated, fails: an input with no leading alphabetic token may
    still start with a digit or an underscore, which [\w] matches, and is then
    not mapped to "unknown". *)
Lemma digits_are_not_unknown :
  ~ (forall code : str,
       startsWithLetter code = false ->
       detectDiagramType typeMapScripts code = VString (lit "unknown")).
Proof.
  intros H. specialize (H (lit "1abc") eq_refl). discriminate H.
Qed.

(** C7 (amended): the type is read from the leading run of word characters
    (letters, digits, underscore) at the very start of the code.  A run that
    is exactly [sequenceDiagram] gives "sequence", exactly [graph] gives
    "flowchart"; a run that is neither a key of the table nor a property name
    of [Object.prototype] is kept literally; an input that does not start with
    a word character gives "unknown". *)
Theorem detect_diagram_type (journey : str) (code : str) :
  (leadingWord code = lit "sequenceDiagram" ->
     detectDiagramType (typeMapWith journey) code = VString (lit "sequence"))
  /\ (leadingWord code = lit "graph" ->
        detectDiagramType (typeMapWith journey) code = VString (lit "flowchart"))
  /\ (startsWithWordChar code = true ->
      ownProperty (typeMapWith journey) (leadingWord code) = None ->
      includes objectPrototype (leadingWord code) = false ->
        detectDiagramType (typeMapWith journey) code = VString (leadingWord code))
  /\ (startsWithWordChar code = false ->
        detectDiagramType (typeMapWith journey) code = VString (lit "unknown")).
Proof.
  unfold detectDiagramType. repeat split.
  - intros ->. reflexivity.
  - intros ->. reflexivity.
  - intros Hw Hown Hinh. unfold getProperty.
    destruct (leadingWord code) as [|c' w'] eqn:E.
    + destruct code as [|c r]; simpl in *; [discriminate|].
      rewrite Hw in E. discriminate.
    + now rewrite Hown, Hinh.
  - intros Hw. now rewrite leadingWord_empty.
Qed.

Lemma detect_diagram_type_witness :
  detectDiagramType typeMapScripts (lit "sequenceDiagram") = VString (lit "sequence")
  /\ detectDiagramType typeMapScripts (lit "graph TD;") = VString (lit "flowchart")
  /\ detectDiagramType typeMapScripts (lit "gantt_2 x") = VString (lit "gantt_2")
  /\ detectDiagramType typeMapScripts (lit "%% note") = VString (lit "unknown").
Proof.
  split; [|split; [|split]].
  - apply (proj1 (detect_diagram_type (lit "journey-map") (lit "sequenceDiagram"))).
    reflexivity.
  - apply (proj1 (proj2 (detect_diagram_type (lit "journey-map") (lit "graph TD;")))).
    reflexivity.
  - apply (proj1 (proj2 (proj2
             (detect_diagram_type (lit "journey-map") (lit "gantt_2 x")))));
      reflexivity.
  - apply (proj2 (proj2 (proj2
             (detect_diagram_type (lit "journey-map") (lit "%% note"))))).
    reflexivity.
Defined.

End DiagramTypeSpec.

(** ** The validator *)

Module ValidatorSpec.

Import Sample.

Lemma messageOrString_message (e : Failure) (c : char) (m : str) :
  message e = Some (c :: m) -> messageOrString e = c :: m.
Proof. unfold messageOrString. now intros ->. Qed.

Lemma messageOrString_fallback (e : Failure) :
  message e = None \/ message e = Some [] -> messageOrString e = toString e.
Proof. unfold messageOrString. now intros [-> | ->]. Qed.

(** What one call of the validator does, whatever the parser answers. *)
Lemma validator_run {num : Type} (env : Env num) (code : str) (w : World num) :
  validator env code w =
    (Return (mkResult (negb (isSome (parse env code)))
               (sub env (now env (S (clock w))) (now env (clock w)))
               (match parse env code with
                | None => None
                | Some e => Some (messageOrString e)
                end)),
     mkWorld (S (S (clock w))) (trace w ++ [Parse code]) (existsSync w) (files w)).
Proof.
  unfold validator, bind, tryCatch, performanceNow, mermaidParse, bind, emit, ret, throw.
  simpl. destruct (parse env code); reflexivity.
Qed.

(** C4, as stated, fails: when the parser rejects with a value that has
    no message and an empty string form, the result is invalid with the empty
    string as its error. *)
Lemma empty_failure_empty_error :
  ~ (forall (env : Env Z) (code : str) (w w' : World Z) (r : ValidationResult Z),
       validator env code w = (Return r, w') -> wellFormedResult r).
Proof.
  intros H.
  destruct (H silentEnv (lit "x") (worldOf []) _ _ eq_refl)
    as [[Hv _]|[_ (c & m & He)]].
  - discriminate Hv.
  - discriminate He.
Qed.

(** C4 (amended): for every code string the validator returns a result and
    never an exception: valid with no error when the parser succeeds; invalid,
    with the message of the failure or, when that is absent or empty, its
    string form, when the parser raises.  The error is null exactly when the
    result is valid; it is the empty string exactly when the failure has no
    message, or an empty one, and an empty string form. *)
Theorem validator_never_throws {num : Type} (env : Env num) (code : str)
    (w : World num) :
  exists r w',
    validator env code w = (Return r, w')
    /\ (parse env code = None -> valid r = true /\ error r = None)
    /\ (forall e, parse env code = Some e ->
          valid r = false
          /\ error r = Some (messageOrString e)
          /\ (forall c m, message e = Some (c :: m) -> error r = Some (c :: m))
          /\ (message e = None \/ message e = Some [] -> error r = Some (toString e))
          /\ (error r = Some []
              <-> (message e = None \/ message e = Some []) /\ toString e = []))
    /\ (valid r = true <-> error r = None)
    /\ ((valid r = true /\ error r = None)
        \/ (valid r = false /\ exists s, error r = Some s)).
Proof.
  rewrite validator_run. eexists. eexists. split; [reflexivity|].
  simpl. destruct (parse env code) as [e|] eqn:E; simpl.
  - split; [discriminate|]. split; [|split].
    + intros e' [= <-]. split; [reflexivity|]. split; [reflexivity|]. split; [|split].
      * intros c m Hm. now rewrite (messageOrString_message e c m Hm).
      * intros Hm. now rewrite (messageOrString_fallback e Hm).
      * unfold messageOrString.
        destruct (message e) as [[|c m]|]; split.
        -- intros [= H]. split; [now right|exact H].
        -- intros [_ ->]. reflexivity.
        -- discriminate.
        -- intros [[H|H] _]; discriminate H.
        -- intros [= H]. split; [now left|exact H].
        -- intros [_ ->]. reflexivity.
    + split; discriminate.
    + right. split; [reflexivity|]. eauto.
  - split; [now split|]. split; [discriminate|]. split; [now split|].
    left. now split.
Qed.

Lemma validator_never_throws_witness :
  exists r w',
    validator sampleEnv (lit "bad arrow") (worldOf []) = (Return r, w')
    /\ valid r = false
    /\ error r = Some (lit "Parse error on line 1").
Proof.
  destruct (validator_never_throws sampleEnv (lit "bad arrow") (worldOf []))
    as (r & w' & Hrun & _ & Hfail & _).
  exists r, w'. split; [exact Hrun|].
  destruct (Hfail (errorOf (lit "Parse error on line 1")) eq_refl)
    as (Hv & He & _).
  split; [exact Hv|exact He].
Defined.

Example validator_accepts :
  fst (validator sampleEnv (lit "graph TD") (worldOf []))
  = Return (mkResult true 1%Z None).
Proof. reflexivity. Qed.

(** A failure without a message is reported by its string form. *)
Example validator_string_form :
  fst (validator
         (hostEnv (fun _ => Some (mkFailure None (lit "[object Object]")))
            (fun _ => None) sampleGlob)
         (lit "x") (worldOf []))
  = Return (mkResult false 1%Z (Some (lit "[object Object]"))).
Proof. reflexivity. Qed.

End ValidatorSpec.

(** ** Loops in the process monad *)

Module MonadFacts.

Section Loops.

Context {num : Type} {A S : Type}.
Variable body : S -> A -> M num S.

(** An invariant [I] of the loop head; [QT] and [QE] are what is known of
    the world when an iteration throws or exits. *)
Lemma forOf_outcome
    (I : list A -> S -> World num -> Prop) (QT QE : World num -> Prop) :
  (forall done x acc w o w',
     I done acc w -> body acc x w = (o, w') ->
     match o with
     | Return acc' => I (done ++ [x]) acc' w'
     | Throw _ => QT w'
     | Exit _ => QE w'
     end) ->
  forall xs done acc w o w',
    I done acc w -> forOf xs body acc w = (o, w') ->
    match o with
    | Return acc' => I (done ++ xs) acc' w'
    | Throw _ => QT w'
    | Exit _ => QE w'
    end.
Proof.
  intros Hstep. induction xs as [|x xs IH]; intros done acc w o w' HI Hrun.
  - simpl in Hrun. injection Hrun as <- <-. now rewrite app_nil_r.
  - simpl in Hrun. unfold bind in Hrun.
    destruct (body acc x w) as [o1 w1] eqn:Hb.
    specialize (Hstep done x acc w o1 w1 HI Hb).
    destruct o1 as [acc1|e|c].
    + specialize (IH (done ++ [x]) acc1 w1 o w' Hstep Hrun).
      now rewrite <- app_assoc in IH.
    + now injection Hrun as <- <-.
    + now injection Hrun as <- <-.
Qed.

(** A loop whose iterations all return, returns. *)
Lemma forOf_returns :
  (forall acc x w, exists acc' w', body acc x w = (Return acc', w')) ->
  forall xs acc w, exists acc' w', forOf xs body acc w = (Return acc', w').
Proof.
  intros Hstep. induction xs as [|x xs IH]; intros acc w; simpl.
  - now exists acc, w.
  - unfold bind. destruct (Hstep acc x w) as (acc1 & w1 & ->). apply IH.
Qed.

End Loops.

Section Runs.

Context {num : Type} {A B : Type}.

Lemma bind_Return (m : M num A) (k : A -> M num B) (w w' : World num) (a : A) :
  m w = (Return a, w') -> bind m k w = k a w'.
Proof. unfold bind. now intros ->. Qed.

Lemma bind_Throw (m : M num A) (k : A -> M num B) (w w' : World num) (e : Failure) :
  m w = (Throw e, w') -> bind m k w = (Throw e, w').
Proof. unfold bind. now intros ->. Qed.

Lemma bind_Exit (m : M num A) (k : A -> M num B) (w w' : World num) (c : nat) :
  m w = (Exit c, w') -> bind m k w = (Exit c, w').
Proof. unfold bind. now intros ->. Qed.

Lemma tryCatch_Return (m : M num A) (h : Failure -> M num A) (w w' : World num) (a : A) :
  m w = (Return a, w') -> tryCatch m h w = (Return a, w').
Proof. unfold tryCatch. now intros ->. Qed.

Lemma tryCatch_Throw (m : M num A) (h : Failure -> M num A) (w w' : World num)
    (e : Failure) :
  m w = (Throw e, w') -> tryCatch m h w = h e w'.
Proof. unfold tryCatch. now intros ->. Qed.

Lemma tryCatch_Exit (m : M num A) (h : Failure -> M num A) (w w' : World num) (c : nat) :
  m w = (Exit c, w') -> tryCatch m h w = (Exit c, w').
Proof. unfold tryCatch. now intros ->. Qed.

End Runs.

Lemma sumTimes_snoc {num : Type} (env : Env num) (ts : list num) (t : num) :
  sumTimes env (ts ++ [t]) = add env (sumTimes env ts) t.
Proof. unfold sumTimes. now rewrite fold_left_app. Qed.

(** The indices the extractor gives are [0, 1, 2, ...] for every document. *)
Lemma loop_index (lines : list str) (st : scan) (i : nat) :
  map index (blocks st) = seq 0 (blockIndex st) ->
  map index (blocks (loop st i lines)) = seq 0 (blockIndex (loop st i lines)).
Proof.
  revert st i; induction lines as [|l lines IH]; intros st i H; simpl; [assumption|].
  apply IH. unfold step.
  destruct (str_eqb (trim l) OPEN); simpl; [assumption|].
  destruct (inMermaidBlock st); simpl; [|assumption].
  destruct (str_eqb (trim l) CLOSE); cbn [blocks blockIndex]; [|assumption].
  rewrite map_app, H, seq_S. reflexivity.
Qed.

Lemma extract_index (content : str) :
  map index (extractMermaidBlocks content)
  = seq 0 (length (extractMermaidBlocks content)).
Proof.
  unfold extractMermaidBlocks.
  pose proof (loop_index (split NL content) init 0 eq_refl) as H.
  rewrite H. f_equal.
  rewrite <- (length_map index), H. now rewrite length_seq.
Qed.

End MonadFacts.

Import MonadFacts.

(** ** mermaid-check.mjs: one file, then the whole run *)

Module MermaidCheckFacts.

Section WithEnv.

Context {num : Type} (env : Env num).

Lemma validateMarkdownFile_unreadable (path : str)
    (v : str -> M num (ValidationResult num)) (w : World num) :
  files w path = None ->
  MermaidCheck.validateMarkdownFile env path v w = (Throw (readError path), w).
Proof.
  intros H. unfold MermaidCheck.validateMarkdownFile, bind, readFileSync.
  now rewrite H.
Qed.

(** A readable file always yields its results: one entry per extracted
    block, in extraction order, with counts and times as accumulated. *)
Lemma validateMarkdownFile_run (path content : str) (w : World num) :
  files w path = Some content ->
  exists r w',
    MermaidCheck.validateMarkdownFile env path (validator env) w = (Return r, w')
    /\ files w' = files w
    /\ Runtime.filePath r = path
    /\ fileName r = basename env path
    /\ totalDiagrams r = length (extractMermaidBlocks content)
    /\ validCount r + invalidCount r = length (extractMermaidBlocks content)
    /\ map (@block num) (diagrams r) = extractMermaidBlocks content
    /\ totalTime r
       = sumTimes env (map (fun d => executionTime (result d)) (diagrams r))
    /\ invalidCount r = length (filter (rejected env) (extractMermaidBlocks content)).
Proof.
  intros Hread. unfold MermaidCheck.validateMarkdownFile, bind at 1, readFileSync.
  rewrite Hread.
  set (n := length (extractMermaidBlocks content)).
  match goal with |- context [forOf ?xs ?b ?a w] =>
    set (body := b); set (r0 := a) end.
  assert (Hbody : forall acc x w1,
             body acc x w1 =
               (Return (mkFileResults (Runtime.filePath acc) (fileName acc)
                          (totalDiagrams acc)
                          (if rejected env x then validCount acc
                           else S (validCount acc))
                          (if rejected env x then S (invalidCount acc)
                           else invalidCount acc)
                          (diagrams acc ++
                             [mkDiagram x
                                (detectDiagramType typeMapStandalone (code x))
                                (mkResult (negb (rejected env x))
                                   (sub env (now env (S (clock w1))) (now env (clock w1)))
                                   (match parse env (code x) with
                                    | None => None
                                    | Some e => Some (messageOrString e)
                                    end))])
                          (add env (totalTime acc)
                             (sub env (now env (S (clock w1))) (now env (clock w1))))),
                mkWorld (S (S (clock w1))) (trace w1 ++ [Parse (code x)])
                  (existsSync w1) (files w1))).
  { intros acc x w1. unfold body, bind. rewrite ValidatorSpec.validator_run.
    unfold ret, rejected. simpl. destruct (parse env (code x)); reflexivity. }
  destruct (forOf_returns body
              (fun acc x w1 => ex_intro _ _ (ex_intro _ _ (Hbody acc x w1)))
              (extractMermaidBlocks content) r0 w) as (r & w' & Hrun).
  exists r, w'. split; [exact Hrun|].
  pose proof (forOf_outcome body
    (fun done acc w1 =>
       files w1 = files w
       /\ Runtime.filePath acc = path
       /\ fileName acc = basename env path
       /\ totalDiagrams acc = n
       /\ validCount acc + invalidCount acc = length done
       /\ map (@block num) (diagrams acc) = done
       /\ totalTime acc
          = sumTimes env (map (fun d => executionTime (result d)) (diagrams acc))
       /\ invalidCount acc = length (filter (rejected env) done))
    (fun _ => False) (fun _ => False)) as Hinv.
  assert (Hstep : forall done x acc w1 o w2,
             (files w1 = files w
              /\ Runtime.filePath acc = path
              /\ fileName acc = basename env path
              /\ totalDiagrams acc = n
              /\ validCount acc + invalidCount acc = length done
              /\ map (@block num) (diagrams acc) = done
              /\ totalTime acc
                 = sumTimes env (map (fun d => executionTime (result d)) (diagrams acc))
              /\ invalidCount acc = length (filter (rejected env) done)) ->
             body acc x w1 = (o, w2) ->
             match o with
             | Return acc' =>
                 files w2 = files w
                 /\ Runtime.filePath acc' = path
                 /\ fileName acc' = basename env path
                 /\ totalDiagrams acc' = n
                 /\ validCount acc' + invalidCount acc' = length (done ++ [x])
                 /\ map (@block num) (diagrams acc') = done ++ [x]
                 /\ totalTime acc'
                    = sumTimes env
                        (map (fun d => executionTime (result d)) (diagrams acc'))
                 /\ invalidCount acc' = length (filter (rejected env) (done ++ [x]))
             | _ => False
             end).
  { intros done x acc w1 o w2 (Hf & Hp & Hn & Ht & Hc & Hb & Htime & Hi) Hx.
    rewrite Hbody in Hx. injection Hx as <- <-.
    cbn [files Runtime.filePath fileName totalDiagrams validCount invalidCount
         diagrams totalTime].
    rewrite !map_app, filter_app, !length_app.
    cbn [map result executionTime block length filter].
    rewrite sumTimes_snoc, <- Htime, Hb.
    destruct (rejected env x); cbn [length];
      repeat (split; [first [assumption | reflexivity | lia]|]);
      first [assumption | reflexivity | lia]. }
  specialize (Hinv Hstep (extractMermaidBlocks content) [] r0 w (Return r) w').
  simpl in Hinv. subst n.
  destruct Hinv as (Hf & Hp & Hn & Ht & Hc & Hb & Htime & Hi);
    [repeat split; reflexivity | exact Hrun | ].
  repeat split; assumption.
Qed.

Lemma isDir_firstOperand (args : list str) :
  MermaidCheck.isDir (firstOperand args) = false.
Proof.
  unfold firstOperand, MermaidCheck.isDir.
  destruct (filter (fun a => negb (startsWith a (lit "-"))) args) as [|a rest] eqn:E;
    [reflexivity|]. simpl.
  assert (Hin : In a (filter (fun a => negb (startsWith a (lit "-"))) args))
    by (rewrite E; now left).
  apply filter_In in Hin as [_ Hneg]. apply negb_true_iff in Hneg.
  destruct (str_eqb a (lit "--dir")) eqn:Hd; [|reflexivity].
  apply str_eqb_eq in Hd. subst a. discriminate Hneg.
Qed.

Lemma existsb_count {A : Type} (f : A -> bool) (l : list A) :
  (0 <? length (filter f l)) = existsb f l.
Proof.
  induction l as [|x l IH]; simpl; [reflexivity|].
  destruct (f x); simpl; [reflexivity|assumption].
Qed.

(** One iteration of the loop over the matched files always completes: a
    readable file adds its results, an unreadable one is reported and
    skipped. *)
Lemma file_iteration (quiet : bool) (results : list (FileResults num))
    (path : str) (w : World num) :
  exists results' w',
    tryCatch
      (bind (MermaidCheck.validateMarkdownFile env path (validator env))
         (fun result =>
            bind (emit (PrintResults result (negb quiet)))
              (fun _ => ret (results ++ [result]))))
      (fun error =>
         bind (emit (Error (lit "Error processing " ++ path ++ lit ": "
                              ++ showMessage error)))
           (fun _ => ret results)) w
    = (Return results', w')
    /\ files w' = files w
    /\ existsb bad results' = existsb bad results || hasInvalid env (files w) path.
Proof.
  unfold tryCatch, bind at 1, hasInvalid.
  destruct (files w path) as [content|] eqn:Hread.
  - destruct (validateMarkdownFile_run path content w Hread)
      as (r & w1 & Hrun & Hf & _ & _ & _ & _ & _ & _ & Hi).
    rewrite Hrun. unfold bind, emit, ret. simpl.
    eexists. eexists. split; [reflexivity|]. split; [assumption|].
    rewrite existsb_app. cbn [existsb]. unfold bad at 2.
    now rewrite Hi, existsb_count, orb_false_r.
  - rewrite validateMarkdownFile_unreadable by assumption.
    unfold bind, emit, ret. simpl.
    eexists. eexists. split; [reflexivity|]. split; [reflexivity|].
    now rewrite orb_false_r.
Qed.

Lemma setup_run (w : World num) :
  MermaidCheck.setupMermaidValidator env w =
    match importModule env (lit "mermaid") with
    | None => (Return (validator env),
               mkWorld (clock w) (trace w ++ [Setup]) (existsSync w) (files w))
    | Some e => (Throw e,
                 mkWorld (clock w) (trace w ++ [Setup]) (existsSync w) (files w))
    end.
Proof.
  unfold MermaidCheck.setupMermaidValidator, importModule_, bind, emit, ret, throw.
  destruct (importModule env (lit "mermaid")); reflexivity.
Qed.

(** The loop over the matched files completes, leaves the files as they
    were, and has recorded an invalid diagram exactly when some readable file
    has one. *)
Lemma files_loop (quiet : bool) (paths : list str) (w : World num) :
  exists results w',
    forOf paths
      (fun results path =>
         tryCatch
           (bind (MermaidCheck.validateMarkdownFile env path (validator env))
              (fun result =>
                 bind (emit (PrintResults result (negb quiet)))
                   (fun _ => ret (results ++ [result]))))
           (fun error =>
              bind (emit (Error (lit "Error processing " ++ path ++ lit ": "
                                   ++ showMessage error)))
                (fun _ => ret results)))
      [] w
    = (Return results, w')
    /\ files w' = files w
    /\ existsb bad results = existsb (hasInvalid env (files w)) paths.
Proof.
  match goal with |- context [forOf paths ?b _ _] => set (body := b) end.
  assert (Hbody : forall acc x w2, exists acc' w3, body acc x w2 = (Return acc', w3)).
  { intros acc x w2. unfold body.
    destruct (file_iteration quiet acc x w2) as (r' & w3 & Hrun & _). eauto. }
  destruct (forOf_returns body Hbody paths [] w) as (results & w2 & Hloop).
  exists results, w2. split; [exact Hloop|].
  assert (Hstep : forall done x acc w3 o w4,
             files w3 = files w
             /\ existsb bad acc = existsb (hasInvalid env (files w)) done ->
             body acc x w3 = (o, w4) ->
             match o with
             | Return acc' =>
                 files w4 = files w
                 /\ existsb bad acc' = existsb (hasInvalid env (files w)) (done ++ [x])
             | _ => False
             end).
  { intros done x acc w3 o w4 [Hf Hb] Hx. unfold body in Hx.
    destruct (file_iteration quiet acc x w3) as (r' & w5 & Hrun & Hf' & Hb').
    rewrite Hrun in Hx. injection Hx as <- <-.
    split; [congruence|].
    rewrite Hb', Hb, existsb_app, Hf. simpl. now rewrite orb_false_r. }
  apply (forOf_outcome body
           (fun done acc w3 =>
              files w3 = files w
              /\ existsb bad acc = existsb (hasInvalid env (files w)) done)
           (fun _ => False) (fun _ => False) Hstep paths [] [] w (Return results) w2);
    [now split | exact Hloop].
Qed.

(** The exit status [main] and its catch handler compute, for every run of
    theirs. *)
Lemma mainCatch_exit (args : list str) (w : World num) :
  fst (MermaidCheck.mainCatch env args w) = exitStatus env args (files w).
Proof.
  unfold MermaidCheck.mainCatch, runScript, MermaidCheck.main, exitStatus.
  destruct args as [|a args]; [reflexivity|].
  set (argv := a :: args).
  fold (firstOperand argv). rewrite isDir_firstOperand.
  pose proof (setup_run w) as Hsetup.
  destruct (importModule env (lit "mermaid")) as [e|].
  { erewrite tryCatch_Throw by (erewrite bind_Throw by exact Hsetup; reflexivity).
    reflexivity. }
  unfold MermaidCheck.globM.
  destruct (glob env (firstOperand argv) None) as [e|paths].
  { erewrite tryCatch_Throw
      by (erewrite bind_Return by exact Hsetup; reflexivity).
    reflexivity. }
  destruct paths as [|p paths].
  { erewrite tryCatch_Exit
      by (erewrite bind_Return by exact Hsetup; reflexivity).
    reflexivity. }
  set (ps := p :: paths).
  match goal with |- context [tryCatch _ _ w] => idtac end.
  destruct (files_loop (includes argv (lit "-q") || includes argv (lit "--quiet")) ps
              (mkWorld (clock w) (trace w ++ [Setup]) (existsSync w) (files w)))
    as (results & w2 & Hloop & Hf & Hb).
  cbn [files] in Hb.
  match goal with |- context [tryCatch ?m _ w] =>
    assert (Hmain : exists w3,
               m w = (Exit (if existsb (hasInvalid env (files w)) ps then 1 else 0), w3))
  end.
  { erewrite bind_Return by exact Hsetup.
    unfold bind at 1, ret at 1. subst ps. cbv beta iota.
    erewrite bind_Return by exact Hloop.
    change (fun r : FileResults num => 0 <? invalidCount r) with (@bad num).
    rewrite Hb.
    destruct (1 <? length results); eexists; unfold bind, emit, ret, exit;
      reflexivity. }
  destruct Hmain as (w3 & Hmain).
  erewrite tryCatch_Exit by exact Hmain. reflexivity.
Qed.

(** The header comment of the shipped file ends at the [*/] of the glob
    pattern in its usage example; what follows starts with [*]. *)
Lemma header_closed_early :
  MermaidCheck.afterHeader
  = Some (lit "*.md" ++ [34%N] ++ lit "              # Check multiple files (glob)")
  /\ MermaidCheck.loads = false.
Proof. split; reflexivity. Qed.

(** Every run of the shipped mermaid-check.mjs: a syntax error, status 1,
    whatever the arguments and the files. *)
Lemma script_run (args : list str) (w : World num) :
  MermaidCheck.script env args w
  = (1, mkWorld (clock w)
          (trace w ++ [Error (lit "SyntaxError: Unexpected token '*'")])
          (existsSync w) (files w)).
Proof. reflexivity. Qed.

End WithEnv.

End MermaidCheckFacts.

(** ** check.mjs and its child processes *)

Module CheckFacts.

Section WithEnv.

Context {num : Type} (env : Env num).

Lemma reports_app (a b : list (event num)) : reports (a ++ b) = reports a ++ reports b.
Proof. apply filter_app. Qed.

Lemma reports_effects (tr : list (event num)) : reports (filter CheckScript.isEffect tr) = [].
Proof.
  induction tr as [|ev tr IH]; simpl; [reflexivity|].
  destruct ev; simpl; assumption.
Qed.

Lemma execSync_run (name : str) (args : list str)
    (child : list str -> World num -> nat * World num) (w : World num) :
  CheckScript.execSync env name args child w =
    match CheckScript.shell env name args with
    | None =>
        (Throw CheckScript.commandFailed,
         mkWorld (clock w) (trace w ++ [Exec name args]) (existsSync w) (files w))
    | Some argv =>
        (if (fst (child argv (childWorld w)) =? 0)
            && negb (overflows env (trace (snd (child argv (childWorld w)))))
         then Return (filter CheckScript.isStdout
                        (trace (snd (child argv (childWorld w)))))
         else Throw CheckScript.commandFailed,
         mkWorld (clock (snd (child argv (childWorld w))))
           ((trace w ++ [Exec name args])
              ++ filter CheckScript.isEffect (trace (snd (child argv (childWorld w)))))
           (existsSync (snd (child argv (childWorld w))))
           (files (snd (child argv (childWorld w)))))
    end.
Proof.
  unfold CheckScript.execSync, bind, emit, childWorld. simpl.
  destruct (CheckScript.shell env name args) as [argv|]; [|reflexivity].
  destruct (child argv _) as [status wc]. simpl.
  destruct ((status =? 0) && negb (overflows env (trace wc))); reflexivity.
Qed.

(** Quoted texts without a character the shell interprets reach the child as
    they are. *)
Lemma shell_plain (name : str) (args : list str) :
  forallb CheckScript.plainWord (scriptPath env name :: args) = true ->
  CheckScript.shell env name args = Some args.
Proof. unfold CheckScript.shell. now intros ->. Qed.

(** A child process leaves no report in the trace of its parent, and its
    call either returns or throws. *)
Lemma execSync_outcome (name : str) (args : list str)
    (child : list str -> World num -> nat * World num) (w : World num) o w' :
  CheckScript.execSync env name args child w = (o, w') ->
  reports (trace w') = reports (trace w)
  /\ match o with
     | Return out =>
         exists argv,
           fst (child argv (childWorld w)) = 0
           /\ out = filter CheckScript.isStdout (trace (snd (child argv (childWorld w))))
     | Throw _ => True
     | Exit _ => False
     end.
Proof.
  rewrite execSync_run.
  destruct (CheckScript.shell env name args) as [argv|]; intros H;
    injection H as <- <-; simpl.
  - split.
    + rewrite !reports_app, reports_effects. simpl. now rewrite !app_nil_r.
    + destruct ((fst (child argv (childWorld w)) =? 0)
                && negb (overflows env (trace (snd (child argv (childWorld w))))))
        eqn:E; [|exact I].
      apply andb_true_iff in E as [E _].
      apply Nat.eqb_eq in E. exists argv. now split.
  - split; [|exact I]. rewrite reports_app. simpl. now rewrite app_nil_r.
Qed.

(** [fs.mkdirSync] changes no file and writes nothing. *)
Lemma mkdirSync_outcome (dir : str) (w : World num) o w' :
  mkdirSync env dir w = (o, w') ->
  trace w' = trace w ++ [Mkdir dir]
  /\ clock w' = clock w
  /\ files w' = files w
  /\ match o with
     | Return _ =>
         files w dir = None /\ mkdirError env dir = None
         /\ existsSync w' = (fun p => inside env p dir || existsSync w p)
     | Throw _ => existsSync w' = existsSync w
     | Exit _ => False
     end.
Proof.
  unfold mkdirSync, bind, emit. simpl.
  destruct (files w dir); [intros [= <- <-]; now repeat split|].
  destruct (mkdirError env dir); intros [= <- <-]; now repeat split.
Qed.

(** The loop of extract.mjs that writes the block files prints nothing, and
    when it completes it has one entry per block, in order. *)
Lemma extract_files_loop (outputDir mdFile : str) (blocks : list Block)
    (w : World num) o w' :
  forOf blocks
    (fun results block =>
       let diagramType := detectDiagramType typeMapScripts (code block) in
       let '(fileName, filePath) :=
         blockFile env outputDir mdFile (index block) diagramType in
       bind (writeFileSync env filePath (code block))
         (fun _ =>
            ret (results ++
                   [mkBlockInfo fileName filePath (lineStart block)
                      (lineEnd block) diagramType (index block)])))
    [] w
  = (o, w') ->
  trace w' = trace w
  /\ match o with
     | Return results => map bi_index results = map index blocks
     | Throw _ => True
     | Exit _ => False
     end.
Proof.
  intros Hrun.
  match type of Hrun with forOf _ ?b _ _ = _ => set (body := b) in * end.
  assert (Hinv : match o with
                 | Return results =>
                     trace w' = trace w /\ map bi_index results = map index ([] ++ blocks)
                 | Throw _ => trace w' = trace w
                 | Exit _ => False
                 end).
  { apply (forOf_outcome body
             (fun done acc w1 => trace w1 = trace w /\ map bi_index acc = map index done)
             (fun w1 => trace w1 = trace w) (fun _ => False))
      with (xs := blocks) (done := []) (acc := []) (w := w); [|now split|exact Hrun].
    intros done x acc w1 o1 w2 [Ht Hm] Hx. unfold body in Hx.
    destruct (blockFile env outputDir mdFile (index x)
                (detectDiagramType typeMapScripts (code x))) as [fn fp].
    unfold bind, writeFileSync, ret in Hx.
    destruct (writeError env fp); injection Hx as <- <-; [exact Ht|].
    split; [exact Ht|]. rewrite !map_app, Hm. reflexivity. }
  destruct o as [results|e|c]; [|now split|contradiction].
  destruct Hinv as [Ht Hm]. now split.
Qed.

(** Whatever extract.mjs does, when its standard output is one JSON
    document, that document has the shape above. *)
Lemma extract_script_stdout (args : list str) (w : World num) (out : ExtractOutput) :
  trace w = [] ->
  filter CheckScript.isStdout (trace (snd (ExtractScript.script env args w)))
  = [StdoutExtract out] ->
  extractShape out.
Proof.
  intros Htr. unfold ExtractScript.script, runScript, ExtractScript.main.
  destruct args as [|mdFile rest].
  { unfold tryCatch, bind, emit, exit. simpl. rewrite Htr. discriminate. }
  unfold tryCatch, bind at 1, getWorld.
  destruct (existsSync w mdFile); cbn [negb].
  2:{ unfold bind, emit, exit. simpl. rewrite Htr. discriminate. }
  unfold bind at 1, readFileSync.
  destruct (files w mdFile) as [content|].
  2:{ unfold bind, emit, exit. simpl. rewrite Htr. discriminate. }
  destruct (extractMermaidBlocks content) as [|b bs] eqn:Hblocks.
  { unfold bind, emit, exit. simpl. rewrite Htr. discriminate. }
  rewrite <- Hblocks.
  set (dir := orDefault (nth_error (mdFile :: rest) 1) (lit ".mermaid_temp")).
  unfold bind at 1.
  destruct (mkdirSync env dir w) as [o1 w1] eqn:Hmk.
  destruct (mkdirSync_outcome _ _ _ _ Hmk) as (Ht1 & _ & _ & Ho1).
  destruct o1 as [[]|e|c]; [| |contradiction].
  2:{ unfold bind, emit, exit. simpl. rewrite Ht1, Htr. discriminate. }
  unfold bind at 1.
  match goal with |- context [forOf _ ?b ?a w1] =>
    destruct (forOf (extractMermaidBlocks content) b a w1) as [o2 w2] eqn:Hloop
  end.
  destruct (extract_files_loop _ _ _ _ _ _ Hloop) as [Ht2 Ho2].
  destruct o2 as [results|e|c]; [| |contradiction].
  2:{ unfold bind, emit, exit. simpl. rewrite Ht2, Ht1, Htr. discriminate. }
  unfold emit. simpl. rewrite Ht2, Ht1, Htr. simpl.
  intros [= <-]. unfold extractShape. simpl.
  assert (Hlen : length results = length (extractMermaidBlocks content)).
  { rewrite <- (length_map bi_index), Ho2. apply length_map. }
  rewrite Ho2, Hlen, extract_index. repeat split.
  rewrite Hblocks. discriminate.
Qed.

Lemma extractBlocks_outcome (mdFile outputDir : str) (w : World num) o w' :
  CheckScript.extractBlocks env mdFile outputDir w = (o, w') ->
  reports (trace w') = reports (trace w)
  /\ match o with
     | Return out => extractShape out
     | Throw _ => True
     | Exit _ => False
     end.
Proof.
  unfold CheckScript.extractBlocks, bind.
  destruct (CheckScript.execSync _ _ _ _ w) as [o1 w1] eqn:Hexec.
  apply execSync_outcome in Hexec as [Hrep Ho].
  destruct o1 as [output|e|c]; [|intros [= <- <-]; now split|contradiction].
  destruct Ho as (argv & _ & Hout).
  destruct output as [|ev [|ev' output']];
    try (intros [= <- <-]; now split);
    try (destruct ev; intros [= <- <-]; now split).
  destruct ev; try (intros [= <- <-]; now split).
  unfold ret. intros [= <- <-]. split; [exact Hrep|].
  eapply extract_script_stdout; [|symmetry; exact Hout]. reflexivity.
Qed.

Lemma validateFile_outcome (mmdFile : str) (w : World num) o w' :
  CheckScript.validateFile env mmdFile w = (o, w') ->
  reports (trace w') = reports (trace w)
  /\ match o with
     | Exit _ => False
     | _ => True
     end.
Proof.
  unfold CheckScript.validateFile, bind.
  destruct (CheckScript.execSync _ _ _ _ w) as [o1 w1] eqn:Hexec.
  apply execSync_outcome in Hexec as [Hrep Ho].
  destruct o1 as [output|e|c]; [|intros [= <- <-]; now split|contradiction].
  destruct output as [|ev [|ev' output']];
    try (intros [= <- <-]; now split);
    destruct ev; intros [= <- <-]; now split.
Qed.

(** [cleanup] always returns: a failure of [fs.rmSync] is swallowed. *)
Lemma cleanup_run (outputDir : str) (w : World num) :
  CheckScript.cleanup env outputDir w
  = (Return tt,
     removed env outputDir
       (mkWorld (clock w) (trace w ++ [Cleanup outputDir]) (existsSync w) (files w))).
Proof.
  unfold CheckScript.cleanup, tryCatch, rmSync, bind, emit, ret. simpl.
  destruct (rmFailure env outputDir); reflexivity.
Qed.

(** What the catch clause of [main] does. *)
Lemma catchClause_run (outputDir : str) (error : Failure) (w : World num) :
  CheckScript.catchClause env outputDir error w
  = (Exit 1,
     removed env outputDir
       (mkWorld (clock w)
          ((trace w ++ [Error (ExtractScript.errorPrefix ++ showMessage error)])
             ++ [Cleanup outputDir])
          (existsSync w) (files w))).
Proof.
  unfold CheckScript.catchClause, bind at 1, emit at 1. unfold bind.
  rewrite cleanup_run. reflexivity.
Qed.

Lemma validation_loop (infos : list BlockInfo) (w : World num) o w' :
  forOf infos
    (fun t blockInfo =>
       bind (CheckScript.validateFile env (bi_filePath blockInfo))
         (fun validationResult =>
            let r := vo_result validationResult in
            ret (CheckScript.mkTotals
                   (CheckScript.t_blocks t ++
                      [mkCheckedBlock blockInfo
                         (CheckScript.viaJson (bi_diagramType blockInfo))
                         (valid r) (executionTime r) (error r)])
                   (add env (CheckScript.t_totalTime t) (executionTime r))
                   (if valid r then S (CheckScript.t_validCount t)
                    else CheckScript.t_validCount t)
                   (if valid r then CheckScript.t_invalidCount t
                    else S (CheckScript.t_invalidCount t)))))
    (CheckScript.mkTotals [] (zero env) 0 0) w
  = (o, w') ->
  match o with
  | Return t => reports (trace w') = reports (trace w) /\ totalsOk env infos t
  | Throw _ => reports (trace w') = reports (trace w)
  | Exit _ => False
  end.
Proof.
  intros Hrun.
  match type of Hrun with forOf _ ?b _ _ = _ => set (body := b) in * end.
  apply (forOf_outcome body
           (fun done t w1 => reports (trace w1) = reports (trace w) /\ totalsOk env done t)
           (fun w1 => reports (trace w1) = reports (trace w))
           (fun _ => False))
    with (xs := infos) (done := []) (acc := CheckScript.mkTotals [] (zero env) 0 0)
         (w := w); [| |exact Hrun].
  - intros done x t w1 o1 w2 [Hrep (Hb & Hc & Ht)] Hx. unfold body, bind in Hx.
    destruct (CheckScript.validateFile env (bi_filePath x) w1) as [o2 w3] eqn:Hv.
    apply validateFile_outcome in Hv as [Hrep' Hne].
    destruct o2 as [v|e|c]; [|injection Hx as <- <-; congruence|contradiction].
    unfold ret in Hx. injection Hx as <- <-.
    split; [congruence|]. unfold totalsOk.
    cbn [CheckScript.t_blocks CheckScript.t_validCount CheckScript.t_invalidCount CheckScript.t_totalTime].
    rewrite !map_app, length_app. cbn [map length cb_info cb_executionTime].
    rewrite sumTimes_snoc, <- Ht, Hb.
    repeat split. destruct (valid (vo_result v)); lia.
  - split; [reflexivity|]. now repeat split.
Qed.


Lemma validate_setup_run (w : World num) :
  ValidateScript.setupMermaidValidator env w =
    match importModule env (lit "jsdom") with
    | Some e => (Throw e, w)
    | None =>
        match importModule env (lit "mermaid") with
        | Some e => (Throw e,
                     mkWorld (clock w) (trace w ++ [Setup]) (existsSync w) (files w))
        | None => (Return (validator env),
                   mkWorld (clock w) (trace w ++ [Setup]) (existsSync w) (files w))
        end
    end.
Proof.
  unfold ValidateScript.setupMermaidValidator, importModule_, bind, emit, ret, throw.
  destruct (importModule env (lit "jsdom")); [reflexivity|].
  destruct (importModule env (lit "mermaid")); reflexivity.
Qed.

(** When validate.mjs ends with status 0 and has printed one JSON document,
    that document reports a valid diagram. *)
Lemma validate_script_stdout (args : list str) (w : World num)
    (o : ValidateOutput num) :
  trace w = [] ->
  fst (ValidateScript.script env args w) = 0 ->
  filter CheckScript.isStdout (trace (snd (ValidateScript.script env args w)))
  = [StdoutValidate o] ->
  valid (vo_result o) = true /\ error (vo_result o) = None.
Proof.
  intros Htr. unfold ValidateScript.script, runScript, tryCatch.
  destruct (ValidateScript.main env args w) as [o1 w1] eqn:Hmain.
  unfold ValidateScript.main in Hmain.
  destruct args as [|mmdFile rest].
  { injection Hmain as <- <-. simpl. discriminate. }
  rewrite (bind_Return getWorld _ w w w eq_refl) in Hmain.
  destruct (existsSync w mmdFile); cbn [negb] in Hmain.
  2:{ injection Hmain as <- <-. simpl. discriminate. }
  destruct (files w mmdFile) as [code|] eqn:Hread.
  2:{ erewrite bind_Throw in Hmain
        by (unfold readFileSync; rewrite Hread; reflexivity).
      injection Hmain as <- <-. simpl. discriminate. }
  erewrite bind_Return in Hmain
    by (unfold readFileSync; rewrite Hread; reflexivity).
  pose proof (validate_setup_run w) as Hsetup.
  destruct (importModule env (lit "jsdom")) as [e|].
  { erewrite bind_Throw in Hmain by exact Hsetup.
    injection Hmain as <- <-. simpl. discriminate. }
  destruct (importModule env (lit "mermaid")) as [e|].
  { erewrite bind_Throw in Hmain by exact Hsetup.
    injection Hmain as <- <-. simpl. discriminate. }
  erewrite bind_Return in Hmain by exact Hsetup.
  erewrite bind_Return in Hmain by apply ValidatorSpec.validator_run.
  unfold bind, emit, exit in Hmain. simpl in Hmain.
  injection Hmain as <- <-. simpl. rewrite Htr. simpl.
  destruct (parse env code); simpl; [discriminate|].
  intros _ [= <-]. now split.
Qed.

Lemma validateFile_valid (mmdFile : str) (w : World num)
    (o : ValidateOutput num) (w' : World num) :
  CheckScript.validateFile env mmdFile w = (Return o, w') ->
  valid (vo_result o) = true /\ error (vo_result o) = None.
Proof.
  unfold CheckScript.validateFile, bind.
  destruct (CheckScript.execSync _ _ _ _ w) as [o1 w1] eqn:Hexec.
  apply execSync_outcome in Hexec as [_ Ho].
  destruct o1 as [output|e|c]; [|discriminate|contradiction].
  destruct Ho as (argv & Hstatus & Hout).
  destruct output as [|ev [|ev' output']]; try discriminate;
    try (destruct ev; discriminate).
  destruct ev; try discriminate.
  unfold ret. intros [= -> ->].
  apply (validate_script_stdout argv (childWorld w) o eq_refl Hstatus).
  now symmetry.
Qed.

(** The validation loop of check.mjs completes only when every block was
    found valid. *)
Lemma validation_loop_valid (infos : list BlockInfo) (w : World num)
    (t : CheckScript.totals) (w' : World num) :
  forOf infos
    (fun t blockInfo =>
       bind (CheckScript.validateFile env (bi_filePath blockInfo))
         (fun validationResult =>
            let r := vo_result validationResult in
            ret (CheckScript.mkTotals
                   (CheckScript.t_blocks t ++
                      [mkCheckedBlock blockInfo
                         (CheckScript.viaJson (bi_diagramType blockInfo))
                         (valid r) (executionTime r) (error r)])
                   (add env (CheckScript.t_totalTime t) (executionTime r))
                   (if valid r then S (CheckScript.t_validCount t)
                    else CheckScript.t_validCount t)
                   (if valid r then CheckScript.t_invalidCount t
                    else S (CheckScript.t_invalidCount t)))))
    (CheckScript.mkTotals [] (zero env) 0 0) w
  = (Return t, w') ->
  CheckScript.t_invalidCount t = 0
  /\ CheckScript.t_validCount t = length infos
  /\ Forall checkedValid (CheckScript.t_blocks t).
Proof.
  intros Hrun.
  match type of Hrun with forOf _ ?b _ _ = _ => set (body := b) in * end.
  apply (forOf_outcome body
           (fun done t w1 =>
              CheckScript.t_invalidCount t = 0
              /\ CheckScript.t_validCount t = length done
              /\ Forall checkedValid (CheckScript.t_blocks t))
           (fun _ => True) (fun _ => True))
    with (xs := infos) (done := []) (acc := CheckScript.mkTotals [] (zero env) 0 0)
         (w := w) (o := Return t) (w' := w'); [| |exact Hrun].
  - intros done x t1 w1 o1 w2 (Hi & Hv & Hall) Hx. unfold body, bind in Hx.
    destruct (CheckScript.validateFile env (bi_filePath x) w1) as [o2 w3] eqn:Hvf.
    destruct o2 as [v|e|c]; [|now injection Hx as <- <-|now injection Hx as <- <-].
    destruct (validateFile_valid _ _ _ _ Hvf) as [Hvalid Herr].
    unfold ret in Hx. injection Hx as <- <-.
    cbn [CheckScript.t_blocks CheckScript.t_validCount CheckScript.t_invalidCount].
    rewrite Hvalid, length_app. cbn [length]. split; [assumption|]. split; [lia|].
    apply Forall_app. split; [assumption|].
    constructor; [|constructor]. split; [reflexivity|exact Herr].
  - simpl. repeat split; constructor.
Qed.


End WithEnv.

End CheckFacts.

(** ** Statements about the orchestrators *)

Module OrchestratorSpec.

Import Sample MermaidCheckFacts CheckFacts.







Example check_invalid_block :
  fst (CheckScript.script sampleEnv [lit "a.md"] (worldOf [(lit "a.md", goodAndBad)])) = 1.
Proof. reflexivity. Qed.

Example check_all_valid :
  fst (CheckScript.script sampleEnv [lit "a.md"] (worldOf [(lit "a.md", twoGood)])) = 0.
Proof. reflexivity. Qed.

(** extract.mjs on a readable document without blocks: a line of text on
    the standard output, status 0. *)
Lemma extract_script_no_blocks {num : Type} (env : Env num) (mdFile : str)
    (rest : list str) (content : str) (w : World num) :
  existsSync w mdFile = true ->
  files w mdFile = Some content ->
  extractMermaidBlocks content = [] ->
  ExtractScript.script env (mdFile :: rest) w =
    (0, mkWorld (clock w) (trace w ++ [Log (ExtractScript.noBlocksText mdFile)])
          (existsSync w) (files w)).
Proof.
  intros Hex Hread Hblocks. unfold ExtractScript.script, runScript.
  erewrite tryCatch_Exit; [reflexivity|].
  unfold ExtractScript.main.
  rewrite (bind_Return getWorld _ w w w eq_refl). rewrite Hex. cbn [negb].
  erewrite bind_Return by (unfold readFileSync; rewrite Hread; reflexivity).
  rewrite Hblocks. reflexivity.
Qed.

(** check.mjs on a readable document without blocks, named by plain words:
    extract.mjs answers with a line of text, not with JSON, [JSON.parse]
    throws and the run ends in the catch clause. *)
Lemma check_no_blocks {num : Type} (env : Env num) (mdFile content : str)
    (rest : list str) (w : World num) :
  existsSync w mdFile = true ->
  files w mdFile = Some content ->
  extractMermaidBlocks content = [] ->
  forallb CheckScript.plainWord
    [scriptPath env (lit "extract.mjs"); mdFile; tempDir (mdFile :: rest)] = true ->
  overflows env [Log (ExtractScript.noBlocksText mdFile)] = false ->
  CheckScript.script env (mdFile :: rest) w =
    (1, removed env (tempDir (mdFile :: rest))
          (mkWorld (clock w)
             (((trace w
                  ++ [Exec (lit "extract.mjs") [mdFile; tempDir (mdFile :: rest)]])
                 ++ [Error (ExtractScript.errorPrefix ++ lit "Unexpected token")])
                ++ [Cleanup (tempDir (mdFile :: rest))])
             (existsSync w) (files w))).
Proof.
  intros Hex Hread Hblocks Hplain Hbuf.
  set (dir := tempDir (mdFile :: rest)) in *.
  assert (Hext : CheckScript.extractBlocks env mdFile dir w =
                   (Throw CheckScript.syntaxError,
                    mkWorld (clock w)
                      (trace w ++ [Exec (lit "extract.mjs") [mdFile; dir]])
                      (existsSync w) (files w))).
  { unfold CheckScript.extractBlocks, bind. rewrite execSync_run.
    rewrite (shell_plain env _ _ Hplain).
    rewrite (extract_script_no_blocks env mdFile [dir] content (childWorld w)
               Hex Hread Hblocks).
    cbn [fst snd trace childWorld app Nat.eqb]. rewrite Hbuf.
    simpl. now rewrite app_nil_r. }
  unfold CheckScript.script, runScript.
  erewrite tryCatch_Exit; [reflexivity|].
  unfold CheckScript.main. fold (tempDir (mdFile :: rest)). fold dir.
  rewrite (bind_Return getWorld _ w w w eq_refl). rewrite Hex. cbn [negb].
  erewrite tryCatch_Throw
    by (unfold CheckScript.tryBlock; erewrite bind_Throw by exact Hext; reflexivity).
  rewrite catchClause_run. reflexivity.
Qed.

(** C5 (the code departs from it): check.mjs on a document without diagram
    blocks.  No validator is set up and the parser is never called, but the
    run does not reach its own [process.exit(0)]: extract.mjs has printed a
    line of text where check.mjs parses JSON, and the run ends in the catch
    clause with status 1, without report and without the message that no
    block was found. *)
Theorem no_blocks_exit_one :
  fst (CheckScript.script sampleEnv [lit "z.md"] (worldOf [(lit "z.md", noDiagram)])) = 1
  /\ trace (snd (CheckScript.script sampleEnv [lit "z.md"]
                   (worldOf [(lit "z.md", noDiagram)])))
     = [Exec (lit "extract.mjs") [lit "z.md"; lit ".mermaid_temp"];
        Error (ExtractScript.errorPrefix ++ lit "Unexpected token");
        Cleanup (lit ".mermaid_temp")]
  /\ filter CheckScript.isStdout
       (trace (snd (ExtractScript.script sampleEnv [lit "z.md"; lit ".mermaid_temp"]
                      (worldOf [(lit "z.md", noDiagram)]))))
     = [Log (ExtractScript.noBlocksText (lit "z.md"))].
Proof. repeat split. Qed.

(** The same with [--quiet]. *)
Example no_blocks_quiet :
  fst (CheckScript.script sampleEnv [lit "z.md"; lit "--quiet"]
         (worldOf [(lit "z.md", noDiagram)])) = 1.
Proof. reflexivity. Qed.



(** An error in the middle of a run: mermaid cannot be loaded by the
    validation child. *)
Example check_module_missing :
  fst (CheckScript.script noMermaidEnv [lit "a.md"] (worldOf [(lit "a.md", twoGood)])) = 1
  /\ trace (snd (CheckScript.script noMermaidEnv [lit "a.md"]
                   (worldOf [(lit "a.md", twoGood)])))
     = [Exec (lit "extract.mjs") [lit "a.md"; lit ".mermaid_temp"];
        Mkdir (lit ".mermaid_temp");
        Exec (lit "validate.mjs") [lit ".mermaid_temp/a.md_block0"];
        Error (ExtractScript.errorPrefix ++ lit "Command failed");
        Cleanup (lit ".mermaid_temp")]
  /\ files (snd (CheckScript.script noMermaidEnv [lit "a.md"]
                   (worldOf [(lit "a.md", twoGood)])))
       (lit ".mermaid_temp/a.md_block0") = None.
Proof. repeat split. Qed.

(** The shell expands [$b] in the name of the document: the extraction
    child looks for another file and the run ends with status 1. *)
Example check_dollar_in_document :
  fst (CheckScript.script sampleEnv [lit "a$b.md"] (worldOf [(lit "a$b.md", twoGood)]))
  = 1.
Proof. reflexivity. Qed.

(** The shell expands [$x] in the name of the directory: the block files
    are written to [tmp], check.mjs removes [tmp$x], and they stay. *)
Example check_dollar_in_directory :
  fst (CheckScript.script sampleEnv [lit "a.md"; lit "tmp$x"]
         (worldOf [(lit "a.md", twoGood)])) = 0
  /\ last (trace (snd (CheckScript.script sampleEnv [lit "a.md"; lit "tmp$x"]
                         (worldOf [(lit "a.md", twoGood)])))) Usage
     = Cleanup (lit "tmp$x")
  /\ files (snd (CheckScript.script sampleEnv [lit "a.md"; lit "tmp$x"]
                   (worldOf [(lit "a.md", twoGood)])))
       (lit "tmp/a.md_block0") = Some (lit "graph TD").
Proof. repeat split. Qed.

(** ** [main] of mermaid-check.mjs as it is written

    What [main] and its catch handler compute on a module that is loaded;
    the shipped file does not get that far. *)

Example main_all_valid :
  fst (MermaidCheck.mainCatch sampleEnv [lit "a.md"] (worldOf [(lit "a.md", twoGood)]))
  = 0.
Proof. reflexivity. Qed.

Example main_invalid_block :
  fst (MermaidCheck.mainCatch sampleEnv [lit "a.md"; lit "-q"]
         (worldOf [(lit "a.md", goodAndBad)])) = 1.
Proof. reflexivity. Qed.

Example main_no_operand :
  fst (MermaidCheck.mainCatch sampleEnv [lit "-q"] (worldOf [])) = 2.
Proof. reflexivity. Qed.

Example main_no_match :
  fst (MermaidCheck.mainCatch noMatchEnv [lit "missing.md"] (worldOf [])) = 2.
Proof. reflexivity. Qed.

Example main_setup_failure :
  fst (MermaidCheck.mainCatch noMermaidEnv [lit "a.md"]
         (worldOf [(lit "a.md", twoGood)])) = 2.
Proof. reflexivity. Qed.

(** [main] sets the validator up before it looks at any document, and
    skips a file it cannot read. *)
Example main_no_blocks :
  MermaidCheck.mainCatch sampleEnv [lit "z.md"] (worldOf [(lit "z.md", noDiagram)])
  = (0, mkWorld 0
          [Setup; PrintResults (mkFileResults (lit "z.md") (lit "z.md") 0 0 0 [] 0%Z) true]
          (existsSync (worldOf [(lit "z.md", noDiagram)]))
          (files (worldOf [(lit "z.md", noDiagram)]))).
Proof. reflexivity. Qed.

Example main_unreadable_file :
  MermaidCheck.mainCatch sampleEnv [lit "doc.md"] (unreadable (lit "doc.md"))
  = (0, mkWorld 0
          [Setup;
           Error (lit "Error processing doc.md: "
                    ++ showMessage (readError (lit "doc.md")))]
          (fun p => str_eqb p (lit "doc.md")) (fun _ => None)).
Proof. reflexivity. Qed.

End OrchestratorSpec.

(** ** More about the extraction loop *)

Module ExtractMore.

Import Sample.

Lemma ordPairs_snoc {A : Type} (R : A -> A -> Prop) (l : list A) (x : A) :
  ForallOrdPairs R l -> Forall (fun a => R a x) l -> ForallOrdPairs R (l ++ [x]).
Proof.
  induction l as [|a l IH]; intros Hl Hx; simpl.
  - repeat constructor.
  - inversion Hl as [|? ? Ha Hl']; subst. inversion Hx as [|? ? Hax Hx']; subst.
    constructor.
    + apply Forall_app. split; [assumption|]. now constructor.
    + now apply IH.
Qed.

Lemma slice_app (pre more : list str) (from to : nat) :
  to <= length pre -> slice (pre ++ more) from to = slice pre from to.
Proof.
  intros Hto. unfold slice.
  destruct (Nat.le_gt_cases from to) as [Hle|Hgt].
  - rewrite skipn_app, firstn_app, length_skipn.
    replace (to - from - (length pre - from)) with 0 by lia.
    simpl. now rewrite app_nil_r.
  - replace (to - from) with 0 by lia. reflexivity.
Qed.

Lemma slice_all (pre : list str) (line : str) (from : nat) :
  from <= length pre ->
  slice (pre ++ [line]) from (length pre) = skipn from pre.
Proof.
  intros Hle. unfold slice.
  rewrite skipn_app. replace (from - length pre) with 0 by lia. simpl.
  rewrite firstn_app, length_skipn, Nat.sub_diag. simpl.
  rewrite app_nil_r. apply firstn_all2. rewrite length_skipn. lia.
Qed.

Lemma openMarkers_snoc (pre : list str) (line : str) :
  openMarkers (pre ++ [line]) = openMarkers pre + (if isOpen line then 1 else 0).
Proof.
  rewrite openMarkers_app. unfold openMarkers at 2. simpl.
  now destruct (isOpen line).
Qed.

Lemma closeMarkers_snoc (pre : list str) (line : str) :
  closeMarkers (pre ++ [line]) = closeMarkers pre + (if isClose line then 1 else 0).
Proof.
  unfold closeMarkers. rewrite filter_app, length_app. simpl.
  now destruct (isClose line).
Qed.

Lemma content_of_joined (ls : list str) :
  Forall (fun l => ~ In NL l) ls -> forallb content ls = true ->
  forallb content (split NL (join NL ls)) = true.
Proof.
  intros Hnl Hc. destruct ls as [|l ls]; [reflexivity|].
  rewrite split_join; [assumption|discriminate|assumption].
Qed.

Lemma Forall_skipn {A : Type} (P : A -> Prop) (n : nat) (l : list A) :
  Forall P l -> Forall P (skipn n l).
Proof.
  revert l; induction n as [|n IH]; intros l H; [assumption|].
  destruct l as [|a l]; [constructor|]. inversion H; subst. now apply IH.
Qed.

Lemma gathering_init : gathering [] init.
Proof.
  unfold gathering. simpl. repeat split; try constructor; try discriminate; lia.
Qed.

Lemma gathering_step (pre : list str) (st : scan) (line : str) :
  Forall (fun l => ~ In NL l) pre ->
  gathering pre st -> gathering (pre ++ [line]) (step st (length pre) line).
Proof.
  intros Hnl (Hin & Hend & Hcode & Hord & Hopen & Hclose & Hlen).
  assert (Hend' : Forall (fun b => lineEnd b < length pre + 1) (blocks st)).
  { eapply Forall_impl; [|exact Hend]. intros b Hb. cbv beta in *. lia. }
  assert (Hcode' : Forall (fun b =>
                      code b = join NL (slice (pre ++ [line]) (lineStart b) (lineEnd b))
                      /\ forallb content (split NL (code b)) = true) (blocks st)).
  { rewrite Forall_forall in *. intros b Hb.
    destruct (Hcode b Hb) as [Hc1 Hc2]. split; [|assumption].
    rewrite slice_app; [assumption|]. specialize (Hend b Hb). cbv beta in Hend. lia. }
  unfold gathering. rewrite openMarkers_snoc, closeMarkers_snoc, length_app.
  cbn [length].
  destruct (isOpen line) eqn:Ho.
  - rewrite step_open by assumption.
    cbn [blocks inMermaidBlock blockStart blockContent blockIndex].
    assert (Hskip : [] = skipn (length pre + 1) (pre ++ [line])).
    { rewrite skipn_all2; [reflexivity|]. rewrite length_app. simpl. lia. }
    assert (Hidx : blockIndex st + 1 <= openMarkers pre + 1)
      by (destruct (inMermaidBlock st); lia).
    assert (Hcl : blockIndex st <= closeMarkers pre + (if isClose line then 1 else 0))
      by lia.
    split; [intros _; repeat split; try assumption; lia|].
    repeat split; assumption.
  - destruct (inMermaidBlock st) eqn:Hi.
    + destruct (Hin eq_refl) as (Hbs & Hcont & Hall & Hbefore).
      destruct (isClose line) eqn:Hc.
      * rewrite step_close by assumption.
        cbn [blocks inMermaidBlock blockStart blockContent blockIndex].
        split; [discriminate|].
        assert (H1 : Forall (fun b => lineEnd b < length pre + 1)
                       (blocks st ++
                          [mkBlock (join NL (blockContent st)) (blockStart st)
                             (length pre) (blockIndex st)])).
        { apply Forall_app. split; [assumption|]. repeat constructor. simpl. lia. }
        assert (H2 : Forall (fun b =>
                        code b = join NL (slice (pre ++ [line]) (lineStart b) (lineEnd b))
                        /\ forallb content (split NL (code b)) = true)
                       (blocks st ++
                          [mkBlock (join NL (blockContent st)) (blockStart st)
                             (length pre) (blockIndex st)])).
        { apply Forall_app. split; [assumption|]. constructor; [|constructor].
          cbn [code lineStart lineEnd]. split.
          - rewrite slice_all by assumption. now rewrite Hcont.
          - apply content_of_joined; [|assumption].
            rewrite Hcont. now apply Forall_skipn. }
        assert (H3 : ForallOrdPairs before
                       (blocks st ++
                          [mkBlock (join NL (blockContent st)) (blockStart st)
                             (length pre) (blockIndex st)])).
        { apply ordPairs_snoc; [assumption|].
          eapply Forall_impl; [|exact Hbefore]. intros b Hb. exact Hb. }
        rewrite length_app. cbn [length].
        repeat split; try assumption; lia.
      * rewrite step_content by (try assumption; unfold content; now rewrite Ho, Hc).
        cbn [blocks inMermaidBlock blockStart blockContent blockIndex].
        assert (H1 : blockContent st ++ [line] = skipn (blockStart st) (pre ++ [line])).
        { rewrite skipn_app, Hcont.
          replace (blockStart st - length pre) with 0 by lia. reflexivity. }
        assert (H2 : forallb content (blockContent st ++ [line]) = true).
        { rewrite forallb_app, Hall. simpl. unfold content. now rewrite Ho, Hc. }
        split; [intros _; repeat split; try assumption; lia|].
        repeat split; try assumption; lia.
    + rewrite step_outside by (try assumption; unfold plain; now rewrite Ho).
      rewrite Hi in *. split; [discriminate|].
      repeat split; try assumption; try lia.
      all: destruct (isClose line); lia.
Qed.

Lemma gathering_loop (lines pre : list str) (st : scan) :
  Forall (fun l => ~ In NL l) (pre ++ lines) ->
  gathering pre st -> gathering (pre ++ lines) (loop st (length pre) lines).
Proof.
  revert pre st; induction lines as [|l lines IH]; intros pre st Hnl H; simpl.
  - now rewrite app_nil_r.
  - assert (Hpre : Forall (fun l => ~ In NL l) pre)
      by (apply Forall_app in Hnl; tauto).
    apply (gathering_step pre st l Hpre) in H.
    replace (pre ++ l :: lines) with ((pre ++ [l]) ++ lines) in *
      by (now rewrite <- app_assoc).
    apply IH in H; [|assumption].
    rewrite length_app in H. simpl in H. now rewrite Nat.add_1_r in H.
Qed.

Lemma gathering_document (content : str) :
  gathering (split NL content) (loop init 0 (split NL content)).
Proof.
  apply (gathering_loop (split NL content) [] init).
  - apply split_lines_no_sep.
  - apply gathering_init.
Qed.

(** Every pair of extracted blocks is in document order and does not
    overlap: a block ends before the next one starts. *)
Theorem blocks_do_not_overlap (content : str) :
  ForallOrdPairs before (extractMermaidBlocks content).
Proof.
  destruct (gathering_document content) as (_ & _ & _ & H & _). exact H.
Qed.

(** The code of an extracted block is the text of the source lines between
    its line numbers: the lines at 0-based positions [lineStart], ...,
    [lineEnd - 1], joined by newlines. *)
Theorem block_code_is_slice (content : str) (b : Block) :
  In b (extractMermaidBlocks content) ->
  code b = join NL (slice (split NL content) (lineStart b) (lineEnd b)).
Proof.
  intros Hb. destruct (gathering_document content) as (_ & _ & H & _).
  rewrite Forall_forall in H. now apply H.
Qed.

Lemma block_code_is_slice_witness :
  lit "B" = join NL (slice (split NL nestedOpen) 3 4).
Proof.
  apply (block_code_is_slice nestedOpen (mkBlock (lit "B") 3 4 0)).
  vm_compute. left. reflexivity.
Defined.

(** No line of the code of an extracted block is a fence marker: extracting
    never returns code that contains an opening or a closing fence line. *)
Theorem block_code_has_no_marker (content : str) (b : Block) :
  In b (extractMermaidBlocks content) ->
  forallb Fences.content (split NL (code b)) = true.
Proof.
  intros Hb. destruct (gathering_document content) as (_ & _ & H & _).
  rewrite Forall_forall in H. now apply H.
Qed.

Lemma block_code_has_no_marker_witness :
  forallb Fences.content (split NL (lit "B")) = true.
Proof.
  apply (block_code_has_no_marker nestedOpen (mkBlock (lit "B") 3 4 0)).
  vm_compute. left. reflexivity.
Defined.

(** There are never more blocks than opening markers, nor than closing
    markers; a document without an opening marker has no block. *)
Theorem block_count_bounded (content : str) :
  length (extractMermaidBlocks content) <= openMarkers (split NL content)
  /\ length (extractMermaidBlocks content) <= closeMarkers (split NL content)
  /\ (openMarkers (split NL content) = 0 -> extractMermaidBlocks content = []).
Proof.
  destruct (gathering_document content) as (_ & _ & _ & _ & Ho & Hc & Hl).
  unfold extractMermaidBlocks. rewrite Hl.
  split; [lia|]. split; [lia|].
  intros Hz. apply length_zero_iff_nil. lia.
Qed.

Lemma block_count_bounded_witness :
  extractMermaidBlocks (doc ["```js"; "x"; "```"; ""; "```"]%string) = [].
Proof.
  apply (proj2 (proj2 (block_count_bounded (doc ["```js"; "x"; "```"; ""; "```"]%string)))).
  reflexivity.
Defined.

(** The block at position [k] of the result has index [k], for every
    document. *)
Theorem block_indices_sequential (content : str) (k : nat) (b : Block) :
  nth_error (extractMermaidBlocks content) k = Some b -> index b = k.
Proof.
  intros Hk.
  pose proof (map_nth_error index k (extractMermaidBlocks content) Hk) as Hm.
  rewrite extract_index in Hm.
  assert (Hlt : k < length (extractMermaidBlocks content))
    by (apply nth_error_Some; congruence).
  rewrite nth_error_seq in Hm.
  destruct (Nat.ltb_spec k (length (extractMermaidBlocks content))) as [_|Hge];
    [|lia].
  now injection Hm as ->.
Qed.

Lemma block_indices_sequential_witness :
  index (mkBlock (lit "pie") 7 8 1) = 1.
Proof.
  apply (block_indices_sequential twoFences 1 (mkBlock (lit "pie") 7 8 1)).
  reflexivity.
Defined.

(** *** Documents put one after the other *)

Lemma shifted_step (i k j : nat) (prefix : list Block) (st0 st : scan) (line : str) :
  shifted i k prefix st0 st ->
  shifted i k prefix (step st0 j line) (step st (j + i) line).
Proof.
  intros (Hb & Hin & Hidx & Hopen). unfold shifted.
  destruct (isOpen line) eqn:Ho.
  - rewrite !step_open by assumption. simpl. repeat split; try assumption; lia.
  - destruct (inMermaidBlock st0) eqn:Hi0.
    + destruct (Hopen eq_refl) as [Hs Hc].
      destruct (isClose line) eqn:Hcl.
      * rewrite !step_close by (try assumption; congruence). simpl.
        rewrite Hb, Hs, Hc, Hidx, map_app, <- app_assoc. simpl.
        repeat split; try reflexivity; discriminate.
      * rewrite !step_content
          by (try assumption; try congruence; unfold content; now rewrite Ho, Hcl).
        simpl. rewrite Hc. repeat split; try assumption; reflexivity.
    + rewrite !step_outside
        by (try assumption; try congruence; unfold plain; now rewrite Ho).
      rewrite Hi0. repeat split; try assumption; discriminate.
Qed.

Lemma shifted_loop (lines : list str) (i k j : nat) (prefix : list Block)
    (st0 st : scan) :
  shifted i k prefix st0 st ->
  shifted i k prefix (loop st0 j lines) (loop st (j + i) lines).
Proof.
  revert st0 st j; induction lines as [|l lines IH]; intros st0 st j H; simpl.
  - assumption.
  - apply (IH _ _ (S j)). now apply shifted_step.
Qed.

(** When the first of two documents ends outside a block, the blocks of
    the two put together (with a line break between them) are the blocks of
    the first followed by the blocks of the second, moved down by the lines of
    the first and numbered after its blocks. *)
Theorem extract_concatenation (d1 d2 : str) :
  endsOutside d1 = true ->
  extractMermaidBlocks (d1 ++ NL :: d2)
  = extractMermaidBlocks d1
    ++ map (shift (length (split NL d1)) (length (extractMermaidBlocks d1)))
         (extractMermaidBlocks d2).
Proof.
  intros Hout. unfold endsOutside in Hout. apply negb_true_iff in Hout.
  unfold extractMermaidBlocks. rewrite split_app, loop_app. simpl.
  set (st1 := loop init 0 (split NL d1)) in *.
  assert (Hlen : length (blocks st1) = blockIndex st1).
  { destruct (gathering_document d1) as (_ & _ & _ & _ & _ & _ & H). exact H. }
  assert (Hsh : shifted (length (split NL d1)) (length (blocks st1)) (blocks st1)
                  init st1).
  { unfold shifted. simpl. rewrite app_nil_r, Hout.
    repeat split; try reflexivity; try congruence; discriminate. }
  destruct (shifted_loop (split NL d2) _ _ 0 _ _ _ Hsh) as (Hb & _).
  exact Hb.
Qed.

Lemma extract_concatenation_witness :
  extractMermaidBlocks (oneBlock ++ NL :: twoFences)
  = [mkBlock (lit "A") 1 2 0; mkBlock (lit "graph TD") 5 6 1;
     mkBlock (lit "pie") 10 11 2].
Proof.
  apply (extract_concatenation oneBlock twoFences). reflexivity.
Defined.

(** *** White space around the markers *)

Lemma trimStart_white (a s : str) :
  forallb isWhiteSpace a = true -> trimStart (a ++ s) = trimStart s.
Proof.
  induction a as [|c a IH]; simpl; [reflexivity|].
  intros H. apply andb_true_iff in H as [Hc Ha]. now rewrite Hc, IH.
Qed.

Lemma trimStart_nil (s : str) :
  trimStart s = [] -> forallb isWhiteSpace s = true.
Proof.
  induction s as [|c s IH]; simpl; [reflexivity|].
  destruct (isWhiteSpace c); [exact IH|discriminate].
Qed.

Lemma trimStart_app (s b : str) :
  trimStart s <> [] -> trimStart (s ++ b) = trimStart s ++ b.
Proof.
  induction s as [|c s IH]; simpl; [congruence|].
  destruct (isWhiteSpace c); [exact IH|reflexivity].
Qed.

Lemma forallb_rev {A : Type} (f : A -> bool) (l : list A) :
  forallb f (rev l) = forallb f l.
Proof.
  induction l as [|a l IH]; simpl; [reflexivity|].
  rewrite forallb_app, IH. simpl. rewrite andb_true_r. apply andb_comm.
Qed.

Lemma trimEnd_white (s b : str) :
  forallb isWhiteSpace b = true -> trimEnd (s ++ b) = trimEnd s.
Proof.
  intros H. unfold trimEnd. rewrite rev_app_distr, trimStart_white; [reflexivity|].
  now rewrite forallb_rev.
Qed.

(** [trim] does not see white space added at either end. *)
Lemma trim_white (a s b : str) :
  forallb isWhiteSpace a = true -> forallb isWhiteSpace b = true ->
  trim (a ++ s ++ b) = trim s.
Proof.
  intros Ha Hb. unfold trim. rewrite trimStart_white by assumption.
  destruct (trimStart s) as [|c t] eqn:E.
  - apply trimStart_nil in E.
    rewrite <- (app_nil_r (s ++ b)), <- app_assoc, trimStart_white by assumption.
    rewrite app_nil_r. replace (trimStart b) with (@nil char); [reflexivity|].
    symmetry. rewrite <- (app_nil_r b). rewrite trimStart_white by assumption.
    reflexivity.
  - rewrite trimStart_app by congruence. rewrite E. now apply trimEnd_white.
Qed.

(** A line is classified (opening fence, closing fence, other) by its text
    without the white space at its ends: indentation, trailing blanks and a
    carriage return before the line break change nothing. *)
Theorem fence_whitespace_ignored (a line b : str) :
  forallb isWhiteSpace a = true -> forallb isWhiteSpace b = true ->
  isOpen (a ++ line ++ b) = isOpen line
  /\ isClose (a ++ line ++ b) = isClose line.
Proof.
  intros Ha Hb. unfold isOpen, isClose. now rewrite trim_white.
Qed.

Lemma fence_whitespace_ignored_witness :
  isOpen (lit "    " ++ OPEN ++ [13%N]) = true
  /\ isClose (lit "    " ++ CLOSE ++ [13%N]) = true.
Proof.
  split.
  - apply (proj1 (fence_whitespace_ignored (lit "    ") OPEN [13%N] eq_refl eq_refl)).
  - apply (proj2 (fence_whitespace_ignored (lit "    ") CLOSE [13%N] eq_refl eq_refl)).
Defined.

End ExtractMore.

(** ** More about diagram-type inference *)

Module DiagramTypeMore.

Lemma leadingWord_idempotent (code : str) :
  leadingWord (leadingWord code) = leadingWord code.
Proof.
  induction code as [|c r IH]; simpl; [reflexivity|].
  destruct (isWordChar c) eqn:E; [|reflexivity]. simpl. now rewrite E, IH.
Qed.

(** Only the leading word decides the type: what follows it in the code
    has no influence. *)
Theorem type_from_leading_word (typeMap : list (str * str)) (code : str) :
  detectDiagramType typeMap code = detectDiagramType typeMap (leadingWord code).
Proof.
  unfold detectDiagramType. now rewrite leadingWord_idempotent.
Qed.

(** Whatever the lookup table, a type returned as a string is never the
    empty string. *)
Theorem type_never_empty (typeMap : list (str * str)) (code s : str) :
  detectDiagramType typeMap code = VString s -> s <> [].
Proof.
  unfold detectDiagramType.
  destruct (leadingWord code) as [|c w]; [intros [= <-]; discriminate|].
  destruct (getProperty typeMap (c :: w)) as [v|].
  - destruct v as [[|c' s']|name]; simpl; intros [= <-]; discriminate.
  - intros [= <-]. discriminate.
Qed.

Lemma type_never_empty_witness : lit "flowchart" <> [].
Proof.
  apply (type_never_empty typeMapScripts (lit "graph LR") (lit "flowchart")).
  reflexivity.
Defined.

Example type_with_empty_label :
  detectDiagramType (typeMapWith []) (lit "journey x") = VString (lit "journey").
Proof. reflexivity. Qed.

End DiagramTypeMore.

(** ** More about mermaid-check.mjs *)

Module MermaidCheckMore.

Import Sample MermaidCheckFacts.

Section WithEnv.

Context {num : Type} (env : Env num).

(** What [validateMarkdownFile] records and does for a readable file. *)
Lemma validateMarkdownFile_log (path content : str) (w : World num) :
  files w path = Some content ->
  exists r w',
    MermaidCheck.validateMarkdownFile env path (validator env) w = (Return r, w')
    /\ trace w' = trace w ++ map (fun b => Parse (code b)) (extractMermaidBlocks content)
    /\ clock w' = clock w + 2 * length (extractMermaidBlocks content)
    /\ map (fun d => valid (result d)) (diagrams r)
       = map (fun b => negb (rejected env b)) (extractMermaidBlocks content)
    /\ map (fun d => error (result d)) (diagrams r)
       = map (fun b => option_map messageOrString (parse env (code b)))
           (extractMermaidBlocks content)
    /\ map (@diagramType num) (diagrams r)
       = map (fun b => detectDiagramType typeMapStandalone (code b))
           (extractMermaidBlocks content)
    /\ validCount r
       = length (filter (fun b => negb (rejected env b)) (extractMermaidBlocks content))
    /\ invalidCount r = length (filter (rejected env) (extractMermaidBlocks content)).
Proof.
  intros Hread.
  unfold MermaidCheck.validateMarkdownFile, bind at 1, readFileSync.
  rewrite Hread.
  match goal with |- context [forOf ?xs ?b ?a w] =>
    set (body := b); set (r0 := a) end.
  assert (Hbody : forall acc x w1,
             body acc x w1 =
               (Return (mkFileResults (Runtime.filePath acc) (fileName acc)
                          (totalDiagrams acc)
                          (if rejected env x then validCount acc
                           else S (validCount acc))
                          (if rejected env x then S (invalidCount acc)
                           else invalidCount acc)
                          (diagrams acc ++
                             [mkDiagram x
                                (detectDiagramType typeMapStandalone (code x))
                                (mkResult (negb (rejected env x))
                                   (sub env (now env (S (clock w1))) (now env (clock w1)))
                                   (option_map messageOrString (parse env (code x))))])
                          (add env (totalTime acc)
                             (sub env (now env (S (clock w1))) (now env (clock w1))))),
                mkWorld (S (S (clock w1))) (trace w1 ++ [Parse (code x)])
                  (existsSync w1) (files w1))).
  { intros acc x w1. unfold body, bind. rewrite ValidatorSpec.validator_run.
    unfold ret, rejected. simpl. destruct (parse env (code x)); reflexivity. }
  destruct (forOf_returns body
              (fun acc x w1 => ex_intro _ _ (ex_intro _ _ (Hbody acc x w1)))
              (extractMermaidBlocks content) r0 w) as (r & w' & Hrun).
  exists r, w'. split; [exact Hrun|].
  apply (forOf_outcome body
           (fun done acc w1 =>
              trace w1 = trace w ++ map (fun b => Parse (code b)) done
              /\ clock w1 = clock w + 2 * length done
              /\ map (fun d => valid (result d)) (diagrams acc)
                 = map (fun b => negb (rejected env b)) done
              /\ map (fun d => error (result d)) (diagrams acc)
                 = map (fun b => option_map messageOrString (parse env (code b))) done
              /\ map (@diagramType num) (diagrams acc)
                 = map (fun b => detectDiagramType typeMapStandalone (code b)) done
              /\ validCount acc = length (filter (fun b => negb (rejected env b)) done)
              /\ invalidCount acc = length (filter (rejected env) done))
           (fun _ => False) (fun _ => False))
    with (xs := extractMermaidBlocks content) (done := []) (acc := r0) (w := w)
         (o := Return r) (w' := w'); [| |exact Hrun].
  - intros done x acc w1 o w2 (Ht & Hc & Hv & He & Hd & Hvc & Hic) Hx.
    rewrite Hbody in Hx. injection Hx as <- <-.
    cbn [trace clock diagrams validCount invalidCount].
    rewrite !map_app, !filter_app, !length_app, Ht, Hv, He, Hd, <- app_assoc.
    cbn [map result valid error diagramType filter length].
    destruct (rejected env x); cbn [negb length];
      repeat split; try reflexivity; lia.
  - simpl. rewrite app_nil_r. repeat split; lia.
Qed.

(** For a readable file, [validateMarkdownFile] calls the parser exactly
    once per extracted block, on the code of the block and in extraction
    order, reads the clock twice per block, and writes nothing else. *)
Theorem parser_called_once_per_block (path content : str) (w : World num) :
  files w path = Some content ->
  exists r w',
    MermaidCheck.validateMarkdownFile env path (validator env) w = (Return r, w')
    /\ trace w' = trace w ++ map (fun b => Parse (code b)) (extractMermaidBlocks content)
    /\ clock w' = clock w + 2 * length (extractMermaidBlocks content)
    /\ files w' = files w.
Proof.
  intros Hread.
  destruct (validateMarkdownFile_log path content w Hread)
    as (r & w' & Hrun & Ht & Hc & _).
  destruct (validateMarkdownFile_run env path content w Hread)
    as (r1 & w1 & Hrun1 & Hf & _).
  rewrite Hrun in Hrun1. injection Hrun1 as <- <-.
  exists r, w'. repeat split; assumption.
Qed.

(** A rejected block never stops the file: every block gets an entry with
    the verdict of the parser and its error text, in extraction order, and
    the two counts are the numbers of accepted and of rejected blocks. *)
Theorem verdicts_recorded (path content : str) (w : World num) :
  files w path = Some content ->
  exists r w',
    MermaidCheck.validateMarkdownFile env path (validator env) w = (Return r, w')
    /\ map (fun d => valid (result d)) (diagrams r)
       = map (fun b => negb (rejected env b)) (extractMermaidBlocks content)
    /\ map (fun d => error (result d)) (diagrams r)
       = map (fun b => option_map messageOrString (parse env (code b)))
           (extractMermaidBlocks content)
    /\ map (@diagramType num) (diagrams r)
       = map (fun b => detectDiagramType typeMapStandalone (code b))
           (extractMermaidBlocks content)
    /\ validCount r
       = length (filter (fun b => negb (rejected env b)) (extractMermaidBlocks content))
    /\ invalidCount r = length (filter (rejected env) (extractMermaidBlocks content)).
Proof.
  intros Hread.
  destruct (validateMarkdownFile_log path content w Hread)
    as (r & w' & Hrun & _ & _ & H).
  exists r, w'. split; assumption.
Qed.

(** The options are removed from the arguments before the first of them is
    compared with [--dir]: the directory mode is never entered, and [glob] is
    only ever called without a working directory.  So it is for [main] with
    its catch handler, and for the file as shipped. *)
Theorem dir_mode_unreachable (g : option str -> option str -> Failure + list str)
    (args : list str) (w : World num) :
  (forall pattern, g pattern None = glob env pattern None) ->
  MermaidCheck.mainCatch (withGlob env g) args w = MermaidCheck.mainCatch env args w
  /\ MermaidCheck.script (withGlob env g) args w = MermaidCheck.script env args w.
Proof.
  intros Hg. split; [|now rewrite !script_run].
  unfold MermaidCheck.mainCatch, MermaidCheck.main.
  destruct args as [|a args]; [reflexivity|].
  fold (firstOperand (a :: args)). rewrite isDir_firstOperand.
  unfold MermaidCheck.globM. cbn [glob withGlob]. rewrite Hg. reflexivity.
Qed.

(** In [main], a failure to load mermaid is not caught by the handler of
    the loop over the files: [main] rejects with that failure right after the
    JSDOM set-up, before a pattern is expanded, a file read or a result
    printed. *)
Theorem setup_failure_is_fatal (e : Failure) (a : str) (args : list str)
    (w : World num) :
  importModule env (lit "mermaid") = Some e ->
  MermaidCheck.main env (a :: args) w
  = (Throw e, mkWorld (clock w) (trace w ++ [Setup]) (existsSync w) (files w)).
Proof.
  intros Himp. unfold MermaidCheck.main.
  pose proof (setup_run env w) as Hsetup. rewrite Himp in Hsetup.
  now apply bind_Throw.
Qed.

Lemma setups_app (a b : list (event num)) : setups (a ++ b) = setups a + setups b.
Proof. unfold setups. now rewrite filter_app, length_app. Qed.

Lemma setups_parse (bs : list Block) :
  setups (map (fun b => Parse (num := num) (code b)) bs) = 0.
Proof. induction bs as [|b bs IH]; [reflexivity|exact IH]. Qed.

Lemma files_loop_setups (quiet : bool) (paths : list str) (w : World num) o w' :
  forOf paths
    (fun results path =>
       tryCatch
         (bind (MermaidCheck.validateMarkdownFile env path (validator env))
            (fun result =>
               bind (emit (PrintResults result (negb quiet)))
                 (fun _ => ret (results ++ [result]))))
         (fun error =>
            bind (emit (Error (lit "Error processing " ++ path ++ lit ": "
                                 ++ showMessage error)))
              (fun _ => ret results)))
    [] w
  = (o, w') ->
  setups (trace w') = setups (trace w)
  /\ exists results, o = Return results.
Proof.
  intros Hrun.
  match type of Hrun with forOf _ ?b _ _ = _ => set (body := b) in * end.
  pose proof (forOf_outcome body
                (fun _ _ w1 => setups (trace w1) = setups (trace w))
                (fun _ => False) (fun _ => False)) as Hinv.
  assert (Hstep : forall (done : list str) x (acc : list (FileResults num)) w1 o1 w2,
             setups (trace w1) = setups (trace w) ->
             body acc x w1 = (o1, w2) ->
             match o1 with
             | Return _ => setups (trace w2) = setups (trace w)
             | _ => False
             end).
  { intros done x acc w1 o1 w2 Hs Hx. unfold body in Hx.
    destruct (files w1 x) as [content|] eqn:Hread.
    - destruct (validateMarkdownFile_log x content w1 Hread)
        as (r & w3 & Hv & Ht & _).
      erewrite tryCatch_Return in Hx
        by (erewrite bind_Return by exact Hv; reflexivity).
      injection Hx as <- <-. simpl.
      rewrite setups_app, Ht, setups_app, setups_parse, Hs.
      unfold setups. simpl. lia.
    - erewrite tryCatch_Throw in Hx
        by (erewrite bind_Throw
              by (apply validateMarkdownFile_unreadable; exact Hread);
            reflexivity).
      injection Hx as <- <-. simpl. rewrite setups_app, Hs.
      unfold setups. simpl. lia. }
  specialize (Hinv Hstep paths [] [] w o w' eq_refl Hrun).
  destruct o as [results| |]; [|contradiction|contradiction].
  split; [exact Hinv|eauto].
Qed.

(** Whatever the number of matched files and of blocks, and whether or not
    the files can be read, one call of [main] sets the validator environment
    up exactly once; a call without arguments never. *)
Theorem setup_once (args : list str) (w : World num) :
  setups (trace (snd (MermaidCheck.main env args w)))
  = setups (trace w) + (match args with [] => 0 | _ :: _ => 1 end).
Proof.
  unfold MermaidCheck.main.
  destruct args as [|a args].
  { simpl. rewrite setups_app. unfold setups. simpl. lia. }
  set (argv := a :: args).
  fold (firstOperand argv). rewrite isDir_firstOperand.
  pose proof (setup_run env w) as Hsetup.
  destruct (importModule env (lit "mermaid")) as [e|].
  { erewrite bind_Throw by exact Hsetup.
    simpl. rewrite !setups_app. unfold setups. simpl. lia. }
  unfold MermaidCheck.globM.
  destruct (glob env (firstOperand argv) None) as [e|paths].
  { erewrite bind_Return by exact Hsetup.
    simpl. rewrite !setups_app. unfold setups. simpl. lia. }
  destruct paths as [|p paths].
  { erewrite bind_Return by exact Hsetup.
    simpl. rewrite !setups_app. unfold setups. simpl. lia. }
  destruct (files_loop env
              (includes argv (lit "-q") || includes argv (lit "--quiet")) (p :: paths)
              (mkWorld (clock w) (trace w ++ [Setup]) (existsSync w) (files w)))
    as (results & w2 & Hloop & _ & _).
  destruct (files_loop_setups _ _ _ _ _ Hloop) as [Hs _].
  simpl in Hs. rewrite setups_app in Hs.
  erewrite bind_Return by exact Hsetup.
  unfold bind at 1, ret at 1. cbv beta iota.
  erewrite bind_Return by exact Hloop.
  destruct (1 <? length results); unfold bind, emit, ret, exit; simpl;
    rewrite ?setups_app; rewrite ?Hs; unfold setups; simpl; lia.
Qed.

Lemma fold_sum {A : Type} (f : A -> nat) (l : list A) (a : nat) :
  fold_left (fun sum r => sum + f r) l a = a + list_sum (map f l).
Proof.
  revert a; induction l as [|x l IH]; intros a; simpl; [lia|].
  rewrite IH. lia.
Qed.

(** The summary over several files: valid and invalid diagrams add up to
    all diagrams when they do in every file; the files with errors are at most
    the files checked, and there is one exactly when some diagram is invalid,
    which is when the exit status is 1. *)
Theorem summary_totals (results : list (FileResults num)) :
  Forall (fun r => validCount r + invalidCount r = totalDiagrams r) results ->
  s_totalValid (printSummary env results) + s_totalInvalid (printSummary env results)
  = s_totalDiagrams (printSummary env results)
  /\ s_filesWithErrors (printSummary env results)
     <= s_totalFiles (printSummary env results)
  /\ (s_filesWithErrors (printSummary env results) = 0
      <-> s_totalInvalid (printSummary env results) = 0)
  /\ existsb bad results
     = negb (s_filesWithErrors (printSummary env results) =? 0).
Proof.
  intros Hall. unfold printSummary. simpl. rewrite !fold_sum. simpl.
  induction results as [|r rs IH]; simpl.
  - repeat split; reflexivity.
  - inversion Hall as [|? ? Hr Hrs]; subst.
    destruct (IH Hrs) as (H1 & H2 & H3 & H4).
    unfold bad at 1. rewrite H4.
    destruct (invalidCount r) as [|n] eqn:Hn; simpl.
    + repeat split; try lia; try tauto.
    + repeat split; try lia.
Qed.

Lemma firstOperand_option (args : list str) (option : str) :
  startsWith option (lit "-") = true ->
  firstOperand (args ++ [option]) = firstOperand args.
Proof.
  intros H. unfold firstOperand. rewrite filter_app. simpl. rewrite H. simpl.
  now rewrite app_nil_r.
Qed.

(** An option added to a non-empty argument list ([-q], [--quiet] or any
    other word starting with a dash) never changes the exit status: not the
    one [main] and its catch handler compute, and not the one of the file as
    shipped. *)
Theorem options_keep_exit_status (a : str) (args : list str) (option : str)
    (w : World num) :
  startsWith option (lit "-") = true ->
  fst (MermaidCheck.mainCatch env ((a :: args) ++ [option]) w)
  = fst (MermaidCheck.mainCatch env (a :: args) w)
  /\ fst (MermaidCheck.script env ((a :: args) ++ [option]) w)
     = fst (MermaidCheck.script env (a :: args) w).
Proof.
  intros H. split; [|now rewrite !script_run].
  rewrite !mainCatch_exit. unfold exitStatus.
  rewrite (firstOperand_option (a :: args) option H). reflexivity.
Qed.

End WithEnv.

Lemma options_keep_exit_status_witness :
  fst (MermaidCheck.mainCatch sampleEnv ([lit "a.md"] ++ [lit "--quiet"])
         (worldOf [(lit "a.md", goodAndBad)]))
  = fst (MermaidCheck.mainCatch sampleEnv [lit "a.md"]
           (worldOf [(lit "a.md", goodAndBad)]))
  /\ fst (MermaidCheck.script sampleEnv ([lit "a.md"] ++ [lit "--quiet"])
            (worldOf [(lit "a.md", goodAndBad)]))
     = fst (MermaidCheck.script sampleEnv [lit "a.md"]
              (worldOf [(lit "a.md", goodAndBad)])).
Proof.
  apply (options_keep_exit_status sampleEnv (lit "a.md") [] (lit "--quiet")).
  reflexivity.
Defined.

Lemma summary_totals_witness :
  s_totalValid (printSummary sampleEnv
                  [mkFileResults (lit "a") (lit "a") 2 1 1 [] 3%Z;
                   mkFileResults (lit "b") (lit "b") 1 1 0 [] 4%Z]) = 2
  /\ s_totalTime (printSummary sampleEnv
                    [mkFileResults (lit "a") (lit "a") 2 1 1 [] 3%Z;
                     mkFileResults (lit "b") (lit "b") 1 1 0 [] 4%Z]) = 7%Z
  /\ s_filesWithErrors (printSummary sampleEnv
                          [mkFileResults (lit "a") (lit "a") 2 1 1 [] 3%Z;
                           mkFileResults (lit "b") (lit "b") 1 1 0 [] 4%Z])
     <= 2.
Proof.
  split; [reflexivity|]. split; [reflexivity|].
  apply (proj1 (proj2 (summary_totals sampleEnv
           [mkFileResults (lit "a") (lit "a") 2 1 1 [] 3%Z;
            mkFileResults (lit "b") (lit "b") 1 1 0 [] 4%Z]
           ltac:(repeat constructor)))).
Defined.

Lemma parser_called_once_per_block_witness :
  exists r w',
    MermaidCheck.validateMarkdownFile sampleEnv (lit "a.md") (validator sampleEnv)
      (worldOf [(lit "a.md", goodAndBad)]) = (Return r, w')
    /\ trace w' = [Parse (lit "graph TD"); Parse (lit "bad ->")]
    /\ clock w' = 4
    /\ files w' = files (worldOf [(lit "a.md", goodAndBad)]).
Proof.
  apply (parser_called_once_per_block sampleEnv (lit "a.md") goodAndBad
           (worldOf [(lit "a.md", goodAndBad)])).
  reflexivity.
Defined.

Lemma verdicts_recorded_witness :
  exists r w',
    MermaidCheck.validateMarkdownFile sampleEnv (lit "a.md") (validator sampleEnv)
      (worldOf [(lit "a.md", goodAndBad)]) = (Return r, w')
    /\ map (fun d => valid (result d)) (diagrams r) = [true; false]
    /\ map (fun d => error (result d)) (diagrams r)
       = [None; Some (lit "Parse error on line 1")]
    /\ map (@diagramType Z) (diagrams r) = [VString (lit "flowchart"); VString (lit "bad")]
    /\ validCount r = 1
    /\ invalidCount r = 1.
Proof.
  apply (verdicts_recorded sampleEnv (lit "a.md") goodAndBad
           (worldOf [(lit "a.md", goodAndBad)])).
  reflexivity.
Defined.

Lemma dir_mode_unreachable_witness :
  MermaidCheck.mainCatch
    (withGlob sampleEnv
       (fun pattern cwd =>
          match cwd with
          | None => sampleGlob pattern None
          | Some d => inr [d ++ lit "/readme.md"]
          end))
    [lit "--dir"; lit "docs"] (worldOf [(lit "docs/readme.md", twoGood)])
  = MermaidCheck.mainCatch sampleEnv [lit "--dir"; lit "docs"]
      (worldOf [(lit "docs/readme.md", twoGood)]).
Proof.
  apply (dir_mode_unreachable sampleEnv).
  intros pattern. reflexivity.
Defined.

(** With [--dir docs] the pattern expanded is [docs] itself. *)
Example dir_argument_is_the_pattern :
  snd (MermaidCheck.mainCatch sampleEnv [lit "--dir"; lit "docs"]
         (worldOf [(lit "docs/readme.md", twoGood)]))
  = mkWorld 0
      [Setup;
       Error (lit "Error processing docs: " ++ showMessage (readError (lit "docs")))]
      (existsSync (worldOf [(lit "docs/readme.md", twoGood)]))
      (files (worldOf [(lit "docs/readme.md", twoGood)])).
Proof. reflexivity. Qed.

Lemma setup_failure_is_fatal_witness :
  MermaidCheck.main noMermaidEnv [lit "a.md"] (worldOf [(lit "a.md", twoGood)])
  = (Throw (errorOf (lit "Cannot find package 'mermaid'")),
     mkWorld 0 [Setup]
       (existsSync (worldOf [(lit "a.md", twoGood)]))
       (files (worldOf [(lit "a.md", twoGood)]))).
Proof.
  apply (setup_failure_is_fatal noMermaidEnv
           (errorOf (lit "Cannot find package 'mermaid'")) (lit "a.md") []
           (worldOf [(lit "a.md", twoGood)])).
  reflexivity.
Defined.

End MermaidCheckMore.

(** ** More about extract.mjs, validate.mjs and check.mjs *)

Module PipelineMore.

Import Sample CheckFacts.

Section WithEnv.

Context {num : Type} (env : Env num).

(** The loop of extract.mjs that writes the block files, when no write is
    refused. *)
Lemma write_loop (outputDir mdFile : str) (blocks : list Block)
    (acc : list BlockInfo) (w : World num) :
  writable env (map (blockPath env outputDir mdFile) blocks) = true ->
  exists w',
    forOf blocks
      (fun results block =>
         let diagramType := detectDiagramType typeMapScripts (code block) in
         let '(fileName, filePath) :=
           blockFile env outputDir mdFile (index block) diagramType in
         bind (writeFileSync env filePath (code block))
           (fun _ =>
              ret (results ++
                     [mkBlockInfo fileName filePath (lineStart block)
                        (lineEnd block) diagramType (index block)])))
      acc w
    = (Return (acc ++ map (blockInfoOf env outputDir mdFile) blocks), w')
    /\ trace w' = trace w
    /\ clock w' = clock w
    /\ (forall p, ~ In p (map (blockPath env outputDir mdFile) blocks) ->
        files w' p = files w p /\ existsSync w' p = existsSync w p)
    /\ (NoDup (map (blockPath env outputDir mdFile) blocks) ->
        forall b, In b blocks ->
          files w' (blockPath env outputDir mdFile b) = Some (code b)
          /\ existsSync w' (blockPath env outputDir mdFile b) = true).
Proof.
  revert acc w; induction blocks as [|x blocks IH]; intros acc w Hwr.
  - exists w. simpl. rewrite app_nil_r. repeat split; try reflexivity;
      contradiction.
  - cbn [forOf]. unfold writable in Hwr. cbn [map forallb] in Hwr.
    apply andb_true_iff in Hwr as [Hx Hwr]. apply negb_true_iff in Hx.
    set (w1 := mkWorld (clock w) (trace w)
                 (fun q => if str_eqb q (blockPath env outputDir mdFile x)
                           then true else existsSync w q)
                 (fun q => if str_eqb q (blockPath env outputDir mdFile x)
                           then Some (code x) else files w q)).
    destruct (IH (acc ++ [blockInfoOf env outputDir mdFile x]) w1 Hwr)
      as (w' & Hrun & Ht & Hc & Hother & Hwritten).
    exists w'. split; [|split; [|split; [|split]]].
    + erewrite bind_Return; [rewrite Hrun; now rewrite <- app_assoc|].
      unfold blockInfoOf, blockPath, blockInfoOf in *. subst w1.
      destruct (blockFile env outputDir mdFile (index x)
                  (detectDiagramType typeMapScripts (code x))) as [fn fp].
      cbn [bi_filePath snd fst] in *. unfold bind, writeFileSync.
      destruct (writeError env fp); [discriminate Hx|reflexivity].
    + exact Ht.
    + exact Hc.
    + intros p Hp. simpl in Hp.
      destruct (Hother p) as [Hf He]; [tauto|].
      rewrite Hf, He. subst w1. simpl.
      assert (Hne : str_eqb p (blockPath env outputDir mdFile x) = false).
      { apply str_eqb_neq. intros E. apply Hp. left. now symmetry. }
      now rewrite Hne.
    + intros Hnd blk Hb. simpl in Hnd. inversion Hnd as [|? ? Hnotin Hnd']; subst.
      destruct Hb as [<-|Hb].
      * destruct (Hother _ Hnotin) as [Hf He]. rewrite Hf, He. subst w1. simpl.
        now rewrite str_eqb_refl.
      * now apply Hwritten.
Qed.

(** extract.mjs on a document with blocks, when the directory can be made
    and the block files written: the code of every block is in its own file,
    and one JSON document is printed: the number of blocks and, for every
    block in extraction order, its file, line numbers, type and index.  Files
    other than the block files stay as they were. *)
Lemma extract_script_run (mdFile : str) (rest : list str)
    (content : str) (w : World num) :
  existsSync w mdFile = true ->
  files w mdFile = Some content ->
  extractMermaidBlocks content <> [] ->
  NoDup (map (blockPath env (tempDir (mdFile :: rest)) mdFile)
           (extractMermaidBlocks content)) ->
  files w (tempDir (mdFile :: rest)) = None ->
  mkdirError env (tempDir (mdFile :: rest)) = None ->
  writable env (map (blockPath env (tempDir (mdFile :: rest)) mdFile)
                  (extractMermaidBlocks content)) = true ->
  exists w',
    ExtractScript.script env (mdFile :: rest) w = (0, w')
    /\ trace w'
       = trace w
         ++ [Mkdir (tempDir (mdFile :: rest));
             StdoutExtract
               (mkExtractOutput mdFile (tempDir (mdFile :: rest))
                  (length (extractMermaidBlocks content))
                  (map (blockInfoOf env (tempDir (mdFile :: rest)) mdFile)
                     (extractMermaidBlocks content)))]
    /\ clock w' = clock w
    /\ (forall b, In b (extractMermaidBlocks content) ->
          files w' (blockPath env (tempDir (mdFile :: rest)) mdFile b) = Some (code b)
          /\ existsSync w' (blockPath env (tempDir (mdFile :: rest)) mdFile b) = true)
    /\ (forall p,
          ~ In p (map (blockPath env (tempDir (mdFile :: rest)) mdFile)
                    (extractMermaidBlocks content)) ->
          files w' p = files w p
          /\ existsSync w' p
             = (inside env p (tempDir (mdFile :: rest)) || existsSync w p)).
Proof.
  intros Hex Hread Hne Hnd Hfree Hmk Hwr.
  set (dir := tempDir (mdFile :: rest)) in *.
  set (w0 := mkWorld (clock w) (trace w ++ [Mkdir dir])
               (fun p => inside env p dir || existsSync w p) (files w)).
  assert (Hmkdir : mkdirSync env dir w = (Return tt, w0)).
  { unfold mkdirSync, bind, emit. cbn [files]. now rewrite Hfree, Hmk. }
  destruct (write_loop dir mdFile (extractMermaidBlocks content) [] w0 Hwr)
    as (w1 & Hrun & Ht & Hc & Hother & Hwritten).
  exists (mkWorld (clock w1)
            (trace w1 ++
               [StdoutExtract
                  (mkExtractOutput mdFile dir (length (extractMermaidBlocks content))
                     (map (blockInfoOf env dir mdFile) (extractMermaidBlocks content)))])
            (existsSync w1) (files w1)).
  split; [|split; [|split; [|split]]].
  - unfold ExtractScript.script, runScript.
    erewrite tryCatch_Return; [reflexivity|].
    unfold ExtractScript.main. fold (tempDir (mdFile :: rest)). fold dir.
    rewrite (bind_Return getWorld _ w w w eq_refl). rewrite Hex. cbn [negb].
    erewrite bind_Return by (unfold readFileSync; rewrite Hread; reflexivity).
    destruct (extractMermaidBlocks content) as [|b bs] eqn:Hblocks; [congruence|].
    rewrite <- Hblocks in *.
    erewrite bind_Return by exact Hmkdir.
    erewrite bind_Return by exact Hrun.
    reflexivity.
  - simpl. rewrite Ht. simpl. now rewrite <- app_assoc.
  - simpl. rewrite Hc. reflexivity.
  - intros b Hb. simpl. now apply Hwritten.
  - intros p Hp. simpl. destruct (Hother p Hp) as [Hf He]. now split.
Qed.

(** extract.mjs when a file has the name of the output directory:
    [fs.mkdirSync] throws, nothing is written, nothing is printed on the
    standard output, and the status is 1. *)
Lemma extract_script_obstacle (mdFile : str) (rest : list str)
    (content other : str) (w : World num) :
  existsSync w mdFile = true ->
  files w mdFile = Some content ->
  extractMermaidBlocks content <> [] ->
  files w (tempDir (mdFile :: rest)) = Some other ->
  ExtractScript.script env (mdFile :: rest) w
  = (1, mkWorld (clock w)
          ((trace w ++ [Mkdir (tempDir (mdFile :: rest))])
             ++ [Error (ExtractScript.errorPrefix
                          ++ showMessage (existsError (tempDir (mdFile :: rest))))])
          (existsSync w) (files w)).
Proof.
  intros Hex Hread Hne Hfile.
  set (dir := tempDir (mdFile :: rest)) in *.
  assert (Hmain : ExtractScript.main env (mdFile :: rest) w
                  = (Throw (existsError dir),
                     mkWorld (clock w) (trace w ++ [Mkdir dir])
                       (existsSync w) (files w))).
  { unfold ExtractScript.main. fold (tempDir (mdFile :: rest)). fold dir.
    rewrite (bind_Return getWorld _ w w w eq_refl). rewrite Hex. cbn [negb].
    erewrite bind_Return by (unfold readFileSync; rewrite Hread; reflexivity).
    destruct (extractMermaidBlocks content) as [|b bs] eqn:Hblocks; [congruence|].
    apply bind_Throw. unfold mkdirSync, bind, emit. cbn [files]. now rewrite Hfile. }
  unfold ExtractScript.script, runScript.
  rewrite (tryCatch_Throw _ _ _ _ _ Hmain). reflexivity.
Qed.

(** validate.mjs on a readable diagram file, the modules loaded: the
    environment is set up, the parser is called once on the content of the
    file, the result is printed as JSON (also for a rejected diagram), and the
    exit status is 0 exactly when the parser accepts the diagram. *)
Lemma validate_script_run (mmdFile : str) (rest : list str) (code : str)
    (w : World num) :
  existsSync w mmdFile = true ->
  files w mmdFile = Some code ->
  importModule env (lit "jsdom") = None ->
  importModule env (lit "mermaid") = None ->
  ValidateScript.script env (mmdFile :: rest) w
  = ((if isSome (parse env code) then 1 else 0),
     mkWorld (S (S (clock w)))
       (((trace w ++ [Setup]) ++ [Parse code])
          ++ [StdoutValidate
                (mkValidateOutput mmdFile (basename env mmdFile)
                   (detectDiagramType typeMapScripts code)
                   (mkResult (negb (isSome (parse env code)))
                      (sub env (now env (S (clock w))) (now env (clock w)))
                      (match parse env code with
                       | None => None
                       | Some e => Some (messageOrString e)
                       end)))])
       (existsSync w) (files w)).
Proof.
  intros Hex Hread Hjs Hmm. unfold ValidateScript.script, runScript.
  pose proof (validate_setup_run env w) as Hsetup. rewrite Hjs, Hmm in Hsetup.
  assert (Hmain : ValidateScript.main env (mmdFile :: rest) w
                  = (Exit (if isSome (parse env code) then 1 else 0),
                     mkWorld (S (S (clock w)))
                       (((trace w ++ [Setup]) ++ [Parse code])
                          ++ [StdoutValidate
                                (mkValidateOutput mmdFile (basename env mmdFile)
                                   (detectDiagramType typeMapScripts code)
                                   (mkResult (negb (isSome (parse env code)))
                                      (sub env (now env (S (clock w)))
                                         (now env (clock w)))
                                      (match parse env code with
                                       | None => None
                                       | Some e => Some (messageOrString e)
                                       end)))])
                       (existsSync w) (files w))).
  { unfold ValidateScript.main.
    rewrite (bind_Return getWorld _ w w w eq_refl). rewrite Hex. cbn [negb].
    erewrite bind_Return by (unfold readFileSync; rewrite Hread; reflexivity).
    erewrite bind_Return by exact Hsetup.
    erewrite bind_Return by apply ValidatorSpec.validator_run.
    unfold bind, emit, exit. simpl.
    destruct (parse env code); reflexivity. }
  rewrite (tryCatch_Exit _ _ _ _ _ Hmain). reflexivity.
Qed.

(** validate.mjs when a module cannot be loaded: status 1, the parser is
    never called and nothing is printed on the standard output. *)
Theorem validate_script_setup_failure (mmdFile : str) (rest : list str)
    (code : str) (w : World num) (e : Failure) :
  existsSync w mmdFile = true ->
  files w mmdFile = Some code ->
  (importModule env (lit "jsdom") = Some e ->
   ValidateScript.script env (mmdFile :: rest) w
   = (1, mkWorld (clock w) (trace w ++ [Error (showMessage e)])
           (existsSync w) (files w)))
  /\ (importModule env (lit "jsdom") = None ->
      importModule env (lit "mermaid") = Some e ->
      ValidateScript.script env (mmdFile :: rest) w
      = (1, mkWorld (clock w) ((trace w ++ [Setup]) ++ [Error (showMessage e)])
              (existsSync w) (files w))).
Proof.
  intros Hex Hread. pose proof (validate_setup_run env w) as Hsetup.
  assert (Hmain : forall w1 e1,
             ValidateScript.setupMermaidValidator env w = (Throw e1, w1) ->
             ValidateScript.main env (mmdFile :: rest) w = (Throw e1, w1)).
  { intros w1 e1 H. unfold ValidateScript.main.
    rewrite (bind_Return getWorld _ w w w eq_refl). rewrite Hex. cbn [negb].
    erewrite bind_Return by (unfold readFileSync; rewrite Hread; reflexivity).
    erewrite bind_Throw by exact H. reflexivity. }
  split.
  - intros Hjs. rewrite Hjs in Hsetup.
    unfold ValidateScript.script, runScript.
    rewrite (tryCatch_Throw _ _ _ _ _ (Hmain _ _ Hsetup)). reflexivity.
  - intros Hjs Hmm. rewrite Hjs, Hmm in Hsetup.
    unfold ValidateScript.script, runScript.
    rewrite (tryCatch_Throw _ _ _ _ _ (Hmain _ _ Hsetup)). reflexivity.
Qed.

(** One validation child of check.mjs on a block file with a plain name. *)
Lemma validateFile_run (path code : str) (w : World num) :
  existsSync w path = true ->
  files w path = Some code ->
  importModule env (lit "jsdom") = None ->
  importModule env (lit "mermaid") = None ->
  CheckScript.plainWord (scriptPath env (lit "validate.mjs")) = true ->
  CheckScript.plainWord path = true ->
  (forall tr, overflows env tr = false) ->
  exists w',
    CheckScript.validateFile env path w
    = (match parse env code with
       | Some _ => Throw CheckScript.commandFailed
       | None =>
           Return (mkValidateOutput path (basename env path)
                     (detectDiagramType typeMapScripts code)
                     (mkResult true
                        (sub env (now env (S (clock w))) (now env (clock w)))
                        None))
       end, w')
    /\ files w' = files w /\ existsSync w' = existsSync w.
Proof.
  intros Hex Hread Hjs Hmm Hps Hpp Hbuf.
  pose proof (validate_script_run path [] code (childWorld w) Hex Hread Hjs Hmm)
    as Hchild.
  unfold CheckScript.validateFile, bind. rewrite execSync_run.
  rewrite shell_plain by (cbn [forallb]; now rewrite Hps, Hpp).
  rewrite Hchild, Hbuf.
  cbn [fst snd trace clock existsSync files childWorld negb].
  rewrite andb_true_r.
  destruct (parse env code) as [e|]; simpl; eexists;
    (split; [reflexivity|split; reflexivity]).
Qed.

Lemma validation_loop_accepts (dir mdFile : str) (blocks : list Block)
    (t : CheckScript.totals) (w : World num) :
  importModule env (lit "jsdom") = None ->
  importModule env (lit "mermaid") = None ->
  CheckScript.plainWord (scriptPath env (lit "validate.mjs")) = true ->
  (forall tr, overflows env tr = false) ->
  forallb CheckScript.plainWord (map (blockPath env dir mdFile) blocks) = true ->
  (forall b, In b blocks ->
     files w (blockPath env dir mdFile b) = Some (code b)
     /\ existsSync w (blockPath env dir mdFile b) = true) ->
  forallb (fun b => negb (rejected env b)) blocks = true ->
  exists t' w',
    forOf (map (blockInfoOf env dir mdFile) blocks)
      (fun t blockInfo =>
         bind (CheckScript.validateFile env (bi_filePath blockInfo))
           (fun validationResult =>
              let r := vo_result validationResult in
              ret (CheckScript.mkTotals
                     (CheckScript.t_blocks t ++
                        [mkCheckedBlock blockInfo
                           (CheckScript.viaJson (bi_diagramType blockInfo))
                           (valid r) (executionTime r) (error r)])
                     (add env (CheckScript.t_totalTime t) (executionTime r))
                     (if valid r then S (CheckScript.t_validCount t)
                      else CheckScript.t_validCount t)
                     (if valid r then CheckScript.t_invalidCount t
                      else S (CheckScript.t_invalidCount t)))))
      t w
    = (Return t', w')
    /\ files w' = files w /\ existsSync w' = existsSync w.
Proof.
  intros Hjs Hmm Hps Hbuf. revert t w.
  induction blocks as [|b blocks IH]; intros t w Hpl Hfiles Hacc.
  - simpl. exists t, w. now repeat split.
  - simpl in Hacc. apply andb_true_iff in Hacc as [Hb Hrest].
    cbn [map forallb] in Hpl. apply andb_true_iff in Hpl as [Hpb Hpl].
    apply negb_true_iff in Hb. unfold rejected in Hb.
    destruct (Hfiles b (or_introl eq_refl)) as [Hread Hex].
    destruct (validateFile_run _ _ w Hex Hread Hjs Hmm Hps Hpb Hbuf)
      as (w1 & Hrun & Hf & He).
    destruct (parse env (code b)) as [e|] eqn:Hp; [discriminate|].
    cbn [map forOf].
    erewrite bind_Return
      by (erewrite bind_Return by exact Hrun; reflexivity).
    match goal with |- exists t' w', forOf _ _ ?t0 w1 = _ /\ _ =>
      destruct (IH t0 w1 Hpl) as (t' & w' & Hloop & Hf' & He'); [|assumption|]
    end.
    { intros b' Hb'. rewrite Hf, He. apply Hfiles. now right. }
    exists t', w'. split; [exact Hloop|]. split; congruence.
Qed.

Lemma validation_loop_rejects (dir mdFile : str) (blocks : list Block)
    (t : CheckScript.totals) (w : World num) :
  importModule env (lit "jsdom") = None ->
  importModule env (lit "mermaid") = None ->
  CheckScript.plainWord (scriptPath env (lit "validate.mjs")) = true ->
  (forall tr, overflows env tr = false) ->
  forallb CheckScript.plainWord (map (blockPath env dir mdFile) blocks) = true ->
  (forall b, In b blocks ->
     files w (blockPath env dir mdFile b) = Some (code b)
     /\ existsSync w (blockPath env dir mdFile b) = true) ->
  existsb (rejected env) blocks = true ->
  exists w',
    forOf (map (blockInfoOf env dir mdFile) blocks)
      (fun t blockInfo =>
         bind (CheckScript.validateFile env (bi_filePath blockInfo))
           (fun validationResult =>
              let r := vo_result validationResult in
              ret (CheckScript.mkTotals
                     (CheckScript.t_blocks t ++
                        [mkCheckedBlock blockInfo
                           (CheckScript.viaJson (bi_diagramType blockInfo))
                           (valid r) (executionTime r) (error r)])
                     (add env (CheckScript.t_totalTime t) (executionTime r))
                     (if valid r then S (CheckScript.t_validCount t)
                      else CheckScript.t_validCount t)
                     (if valid r then CheckScript.t_invalidCount t
                      else S (CheckScript.t_invalidCount t)))))
      t w
    = (Throw CheckScript.commandFailed, w')
    /\ files w' = files w /\ existsSync w' = existsSync w.
Proof.
  intros Hjs Hmm Hps Hbuf. revert t w.
  induction blocks as [|b blocks IH]; intros t w Hpl Hfiles Hrej; [discriminate|].
  cbn [map forallb] in Hpl. apply andb_true_iff in Hpl as [Hpb Hpl].
  destruct (Hfiles b (or_introl eq_refl)) as [Hread Hex].
  destruct (validateFile_run _ _ w Hex Hread Hjs Hmm Hps Hpb Hbuf)
    as (w1 & Hrun & Hf & He).
  cbn [map forOf]. simpl in Hrej. unfold rejected at 1 in Hrej.
  destruct (parse env (code b)) as [e|] eqn:Hp.
  - exists w1.
    erewrite bind_Throw by (erewrite bind_Throw by exact Hrun; reflexivity).
    now repeat split.
  - simpl in Hrej.
    erewrite bind_Return
      by (erewrite bind_Return by exact Hrun; reflexivity).
    match goal with |- exists w', forOf _ _ ?t0 w1 = _ /\ _ =>
      destruct (IH t0 w1 Hpl) as (w' & Hloop & Hf' & He'); [|assumption|]
    end.
    { intros b' Hb'. rewrite Hf, He. apply Hfiles. now right. }
    exists w'. split; [exact Hloop|]. split; congruence.
Qed.

(** The extraction child of check.mjs on a document with blocks, the
    command line made of plain words. *)
Lemma extractBlocks_run (mdFile : str) (rest : list str) (content : str)
    (w : World num) :
  existsSync w mdFile = true ->
  files w mdFile = Some content ->
  extractMermaidBlocks content <> [] ->
  NoDup (map (blockPath env (tempDir (mdFile :: rest)) mdFile)
           (extractMermaidBlocks content)) ->
  files w (tempDir (mdFile :: rest)) = None ->
  mkdirError env (tempDir (mdFile :: rest)) = None ->
  writable env (map (blockPath env (tempDir (mdFile :: rest)) mdFile)
                  (extractMermaidBlocks content)) = true ->
  forallb CheckScript.plainWord
    [scriptPath env (lit "extract.mjs"); mdFile; tempDir (mdFile :: rest)] = true ->
  (forall tr, overflows env tr = false) ->
  exists w',
    CheckScript.extractBlocks env mdFile (tempDir (mdFile :: rest)) w
    = (Return (mkExtractOutput mdFile (tempDir (mdFile :: rest))
                 (length (extractMermaidBlocks content))
                 (map (blockInfoOf env (tempDir (mdFile :: rest)) mdFile)
                    (extractMermaidBlocks content))), w')
    /\ (forall b, In b (extractMermaidBlocks content) ->
          files w' (blockPath env (tempDir (mdFile :: rest)) mdFile b) = Some (code b)
          /\ existsSync w' (blockPath env (tempDir (mdFile :: rest)) mdFile b) = true).
Proof.
  intros Hex Hread Hne Hnd Hfree Hmk Hwr Hplain Hbuf.
  set (dir := tempDir (mdFile :: rest)) in *.
  assert (Hdir : tempDir [mdFile; dir] = dir).
  { unfold tempDir, orDefault. simpl. unfold dir, tempDir, orDefault.
    destruct (nth_error (mdFile :: rest) 1) as [[|c d]|]; reflexivity. }
  destruct (extract_script_run mdFile [dir] content (childWorld w) Hex Hread Hne)
    as (wc & Hscript & Htrace & _ & Hwritten & _);
    try (rewrite Hdir; assumption).
  rewrite Hdir in *.
  unfold CheckScript.extractBlocks, bind. rewrite execSync_run.
  rewrite (shell_plain env _ _ Hplain), Hscript, Hbuf.
  cbn [fst snd Nat.eqb negb andb]. rewrite Htrace. simpl.
  eexists. split; [reflexivity|]. simpl. exact Hwritten.
Qed.

Lemma distinct_NoDup (paths : list str) : distinct paths = true -> NoDup paths.
Proof.
  induction paths as [|p rest IH]; simpl; intros H; [constructor|].
  apply andb_true_iff in H as [Hp Hrest]. apply negb_true_iff in Hp.
  constructor; [|now apply IH].
  intros Hin. assert (existsb (str_eqb p) rest = true); [|congruence].
  apply existsb_exists. exists p. split; [assumption|apply str_eqb_refl].
Qed.

(** extract.mjs on a document with blocks, the block files pairwise
    different.  When no file has the name of the output directory and the
    operating system refuses neither the directory nor a write: status 0; one
    JSON document is printed with the number of blocks and, for every block
    in extraction order, its file, line numbers, type and index; every block
    file afterwards holds the code of its block, and no other file is
    changed.  When a file has the name of the output directory: status 1,
    nothing on the standard output, no file changed. *)
Theorem extract_script_writes_blocks (mdFile : str) (rest : list str)
    (content : str) (w : World num) :
  existsSync w mdFile = true ->
  files w mdFile = Some content ->
  extractMermaidBlocks content <> [] ->
  distinct (map (blockPath env (tempDir (mdFile :: rest)) mdFile)
              (extractMermaidBlocks content)) = true ->
  (files w (tempDir (mdFile :: rest)) = None ->
   mkdirError env (tempDir (mdFile :: rest)) = None ->
   writable env (map (blockPath env (tempDir (mdFile :: rest)) mdFile)
                   (extractMermaidBlocks content)) = true ->
   exists w',
     ExtractScript.script env (mdFile :: rest) w = (0, w')
     /\ trace w'
        = trace w
          ++ [Mkdir (tempDir (mdFile :: rest));
              StdoutExtract
                (mkExtractOutput mdFile (tempDir (mdFile :: rest))
                   (length (extractMermaidBlocks content))
                   (map (blockInfoOf env (tempDir (mdFile :: rest)) mdFile)
                      (extractMermaidBlocks content)))]
     /\ (forall b, In b (extractMermaidBlocks content) ->
           files w' (blockPath env (tempDir (mdFile :: rest)) mdFile b) = Some (code b)
           /\ existsSync w' (blockPath env (tempDir (mdFile :: rest)) mdFile b) = true)
     /\ (forall p,
           ~ In p (map (blockPath env (tempDir (mdFile :: rest)) mdFile)
                     (extractMermaidBlocks content)) ->
           files w' p = files w p))
  /\ (forall other,
        files w (tempDir (mdFile :: rest)) = Some other ->
        fst (ExtractScript.script env (mdFile :: rest) w) = 1
        /\ filter CheckScript.isStdout
             (trace (snd (ExtractScript.script env (mdFile :: rest) w)))
           = filter CheckScript.isStdout (trace w)
        /\ files (snd (ExtractScript.script env (mdFile :: rest) w)) = files w).
Proof.
  intros Hex Hread Hne Hd. split.
  - intros Hfree Hmk Hwr.
    destruct (extract_script_run mdFile rest content w Hex Hread Hne
                (distinct_NoDup _ Hd) Hfree Hmk Hwr) as (w' & H1 & H2 & _ & H4 & H5).
    exists w'. split; [exact H1|]. split; [exact H2|]. split; [exact H4|].
    intros p Hp. now apply H5.
  - intros other Hfile.
    rewrite (extract_script_obstacle mdFile rest content other w Hex Hread Hne Hfile).
    cbn [fst snd trace files]. split; [reflexivity|]. split; [|reflexivity].
    rewrite !filter_app. simpl. now rewrite !app_nil_r.
Qed.

(** validate.mjs on a readable diagram file, the modules loaded: the
    environment is set up, the parser is called once on the content of the
    file, the result is printed as JSON (also for a rejected diagram), and the
    exit status is 0 exactly when the parser accepts the diagram. *)
Theorem validate_script_status (mmdFile : str) (rest : list str) (code : str)
    (w : World num) :
  existsSync w mmdFile = true ->
  files w mmdFile = Some code ->
  importModule env (lit "jsdom") = None ->
  importModule env (lit "mermaid") = None ->
  (fst (ValidateScript.script env (mmdFile :: rest) w) = 0
   <-> parse env code = None)
  /\ trace (snd (ValidateScript.script env (mmdFile :: rest) w))
     = ((trace w ++ [Setup]) ++ [Parse code])
       ++ [StdoutValidate
             (mkValidateOutput mmdFile (basename env mmdFile)
                (detectDiagramType typeMapScripts code)
                (mkResult (negb (isSome (parse env code)))
                   (sub env (now env (S (clock w))) (now env (clock w)))
                   (option_map messageOrString (parse env code))))]
  /\ files (snd (ValidateScript.script env (mmdFile :: rest) w)) = files w.
Proof.
  intros Hex Hread Hjs Hmm.
  rewrite (validate_script_run mmdFile rest code w Hex Hread Hjs Hmm). simpl.
  destruct (parse env code); simpl; repeat split; try reflexivity;
    intros H; discriminate H.
Qed.



(** check.mjs end to end, on a readable document with at least one block:
    the block files pairwise different, the script paths, the two arguments
    and the block files named by plain words, no file with the name of the
    output directory, neither the directory nor a write refused, the modules
    loaded, the output of every child within the buffer.  When the parser accepts every block: status 0 and one report,
    whose entries are the blocks in extraction order, all valid.  When it
    rejects some block: status 1 and no report. *)
Theorem check_end_to_end (mdFile : str) (rest : list str) (content : str)
    (w : World num) :
  existsSync w mdFile = true ->
  files w mdFile = Some content ->
  extractMermaidBlocks content <> [] ->
  distinct (map (blockPath env (tempDir (mdFile :: rest)) mdFile)
              (extractMermaidBlocks content)) = true ->
  forallb CheckScript.plainWord
    (scriptPath env (lit "extract.mjs") :: scriptPath env (lit "validate.mjs")
       :: mdFile :: tempDir (mdFile :: rest)
       :: map (blockPath env (tempDir (mdFile :: rest)) mdFile)
            (extractMermaidBlocks content)) = true ->
  files w (tempDir (mdFile :: rest)) = None ->
  mkdirError env (tempDir (mdFile :: rest)) = None ->
  writable env (map (blockPath env (tempDir (mdFile :: rest)) mdFile)
                  (extractMermaidBlocks content)) = true ->
  importModule env (lit "jsdom") = None ->
  importModule env (lit "mermaid") = None ->
  (forall tr, overflows env tr = false) ->
  (existsb (rejected env) (extractMermaidBlocks content) = false ->
   fst (CheckScript.script env (mdFile :: rest) w) = 0
   /\ exists r,
        reports (trace (snd (CheckScript.script env (mdFile :: rest) w)))
        = reports (trace w)
          ++ [if includes (mdFile :: rest) (lit "--quiet")
              then PrintJson r else PrintReport r]
        /\ totalBlocks r = length (extractMermaidBlocks content)
        /\ r_validCount r = length (extractMermaidBlocks content)
        /\ r_invalidCount r = 0
        /\ map (@cb_info num) (r_blocks r)
           = map (blockInfoOf env (tempDir (mdFile :: rest)) mdFile)
               (extractMermaidBlocks content))
  /\ (existsb (rejected env) (extractMermaidBlocks content) = true ->
      fst (CheckScript.script env (mdFile :: rest) w) = 1
      /\ reports (trace (snd (CheckScript.script env (mdFile :: rest) w)))
         = reports (trace w)).
Proof.
  intros Hex Hread Hne Hd Hplain Hfree Hmk Hwr Hjs Hmm Hbuf.
  set (dir := tempDir (mdFile :: rest)) in *.
  cbn [forallb] in Hplain.
  apply andb_true_iff in Hplain as [Hpe Hplain].
  apply andb_true_iff in Hplain as [Hpv Hplain].
  apply andb_true_iff in Hplain as [Hpm Hplain].
  apply andb_true_iff in Hplain as [Hpd Hpb].
  destruct (extractBlocks_run mdFile rest content w Hex Hread Hne
              (distinct_NoDup _ Hd) Hfree Hmk Hwr) as (w1 & Hext & Hfiles).
  { cbn [forallb]. fold dir. now rewrite Hpe, Hpm, Hpd. }
  { exact Hbuf. }
  fold dir in Hext, Hfiles.
  pose proof (extractBlocks_outcome _ _ _ _ _ _ Hext) as [Hrep1 _].
  assert (Hnz : (length (extractMermaidBlocks content) =? 0) = false).
  { apply Nat.eqb_neq. intros Hz. apply length_zero_iff_nil in Hz. contradiction. }
  unfold CheckScript.script, runScript, tryCatch.
  split.
  - intros Hacc.
    assert (Hacc' : forallb (fun b => negb (rejected env b))
                      (extractMermaidBlocks content) = true).
    { apply forallb_forall. intros b Hb. apply negb_true_iff.
      destruct (rejected env b) eqn:E; [|reflexivity].
      assert (existsb (rejected env) (extractMermaidBlocks content) = true);
        [|congruence].
      apply existsb_exists. eauto. }
    destruct (validation_loop_accepts dir mdFile (extractMermaidBlocks content)
                (CheckScript.mkTotals [] (zero env) 0 0) w1 Hjs Hmm Hpv Hbuf Hpb Hfiles Hacc')
      as (t & w2 & Hloop & _).
    destruct (validation_loop _ _ _ _ _ Hloop) as [Hrep2 (Hb & Hc & Ht)].
    destruct (validation_loop_valid _ _ _ _ _ Hloop) as (Hz & Hv & _).
    assert (Hmain : exists w3 r,
               CheckScript.main env (mdFile :: rest) w = (Exit 0, w3)
               /\ reports (trace w3)
                  = reports (trace w)
                    ++ [if includes (mdFile :: rest) (lit "--quiet")
                        then PrintJson r else PrintReport r]
               /\ totalBlocks r = length (extractMermaidBlocks content)
               /\ r_validCount r = length (extractMermaidBlocks content)
               /\ r_invalidCount r = 0
               /\ map (@cb_info num) (r_blocks r)
                  = map (blockInfoOf env dir mdFile) (extractMermaidBlocks content)).
    { unfold CheckScript.main. fold (tempDir (mdFile :: rest)). fold dir.
      rewrite (bind_Return getWorld _ w w w eq_refl). rewrite Hex. cbn [negb].
      unfold tryCatch, CheckScript.tryBlock.
      rewrite (bind_Return _ _ _ _ _ Hext). cbn [eo_totalBlocks eo_blocks].
      rewrite Hnz. rewrite (bind_Return _ _ _ _ _ Hloop).
      rewrite Hz. cbn [Nat.ltb Nat.leb].
      unfold bind.
      rewrite length_map in Hv.
      destruct (includes (mdFile :: rest) (lit "--quiet"));
        destruct (includes (mdFile :: rest) (lit "--keep-temp"));
        unfold emit, ret, exit; cbv beta iota;
        rewrite ?cleanup_run; cbv beta iota;
        eexists; eexists; (split; [reflexivity|]); cbn [removed trace];
        rewrite !reports_app, Hrep2, Hrep1; simpl; rewrite ?app_nil_r;
        repeat split; assumption. }
    destruct Hmain as (w3 & r & Hmain & Hrep & H1 & H2 & H3 & H4).
    rewrite Hmain. simpl. split; [reflexivity|]. exists r. repeat split; assumption.
  - intros Hrej.
    destruct (validation_loop_rejects dir mdFile (extractMermaidBlocks content)
                (CheckScript.mkTotals [] (zero env) 0 0) w1 Hjs Hmm Hpv Hbuf Hpb Hfiles Hrej)
      as (w2 & Hloop & _).
    pose proof (validation_loop _ _ _ _ _ Hloop) as Hrep2. cbv beta iota in Hrep2.
    assert (Hmain : exists w3,
               CheckScript.main env (mdFile :: rest) w = (Exit 1, w3)
               /\ reports (trace w3) = reports (trace w)).
    { unfold CheckScript.main. fold (tempDir (mdFile :: rest)). fold dir.
      rewrite (bind_Return getWorld _ w w w eq_refl). rewrite Hex. cbn [negb].
      unfold tryCatch, CheckScript.tryBlock.
      rewrite (bind_Return _ _ _ _ _ Hext). cbn [eo_totalBlocks eo_blocks].
      rewrite Hnz. rewrite (bind_Throw _ _ _ _ _ Hloop), catchClause_run.
      eexists. split; [reflexivity|]. cbn [removed trace].
      rewrite !reports_app. simpl. rewrite !app_nil_r. congruence. }
    destruct Hmain as (w3 & Hmain & Hrep).
    rewrite Hmain. simpl. now split.
Qed.

End WithEnv.

Lemma extract_script_writes_blocks_witness :
  (exists w',
     ExtractScript.script sampleEnv [lit "a.md"] (worldOf [(lit "a.md", twoGood)])
     = (0, w')
     /\ files w' (lit ".mermaid_temp/a.md_block0") = Some (lit "graph TD")
     /\ files w' (lit ".mermaid_temp/a.md_block1") = Some (lit "pie")
     /\ files w' (lit "a.md") = Some twoGood)
  /\ fst (ExtractScript.script sampleEnv [lit "a.md"; lit "a.md"]
            (worldOf [(lit "a.md", twoGood)])) = 1.
Proof.
  split.
  - destruct (proj1 (extract_script_writes_blocks sampleEnv (lit "a.md") [] twoGood
                       (worldOf [(lit "a.md", twoGood)]) eq_refl eq_refl
                       ltac:(discriminate) eq_refl) eq_refl eq_refl eq_refl)
      as (w' & Hrun & _ & Hwritten & Hother).
    exists w'. split; [exact Hrun|]. split; [|split].
    + apply (Hwritten (mkBlock (lit "graph TD") 2 3 0)). vm_compute. left. reflexivity.
    + apply (Hwritten (mkBlock (lit "pie") 5 6 1)). vm_compute. right. left. reflexivity.
    + apply (Hother (lit "a.md")). vm_compute. intros [H|[H|[]]]; discriminate H.
  - apply (proj2 (extract_script_writes_blocks sampleEnv (lit "a.md") [lit "a.md"]
                    twoGood (worldOf [(lit "a.md", twoGood)]) eq_refl eq_refl
                    ltac:(discriminate) eq_refl) twoGood).
    reflexivity.
Defined.

Lemma validate_script_status_witness :
  fst (ValidateScript.script sampleEnv [lit "b.mmd"]
         (worldOf [(lit "b.mmd", lit "bad ->")])) <> 0
  /\ trace (snd (ValidateScript.script sampleEnv [lit "b.mmd"]
                   (worldOf [(lit "b.mmd", lit "bad ->")])))
     = [Setup; Parse (lit "bad ->");
        StdoutValidate
          (mkValidateOutput (lit "b.mmd") (lit "b.mmd") (VString (lit "bad"))
             (mkResult false 1%Z (Some (lit "Parse error on line 1"))))].
Proof.
  destruct (validate_script_status sampleEnv (lit "b.mmd") [] (lit "bad ->")
              (worldOf [(lit "b.mmd", lit "bad ->")]) eq_refl eq_refl eq_refl eq_refl)
    as (Hstatus & Htrace & _).
  split; [|exact Htrace].
  intros H. apply Hstatus in H. discriminate H.
Defined.

Lemma validate_script_setup_failure_witness :
  ValidateScript.script noMermaidEnv [lit "b.mmd"] (worldOf [(lit "b.mmd", lit "pie")])
  = (1, mkWorld 0 [Error (lit "Cannot find package 'mermaid'")]
          (existsSync (worldOf [(lit "b.mmd", lit "pie")]))
          (files (worldOf [(lit "b.mmd", lit "pie")])))
  /\ ValidateScript.script jsdomOnlyEnv [lit "b.mmd"]
       (worldOf [(lit "b.mmd", lit "pie")])
     = (1, mkWorld 0 [Setup; Error (lit "Cannot find package 'mermaid'")]
             (existsSync (worldOf [(lit "b.mmd", lit "pie")]))
             (files (worldOf [(lit "b.mmd", lit "pie")]))).
Proof.
  split.
  - apply (proj1 (validate_script_setup_failure noMermaidEnv (lit "b.mmd") []
                    (lit "pie") (worldOf [(lit "b.mmd", lit "pie")])
                    (errorOf (lit "Cannot find package 'mermaid'"))
                    eq_refl eq_refl)).
    reflexivity.
  - apply (proj2 (validate_script_setup_failure jsdomOnlyEnv (lit "b.mmd") []
                    (lit "pie") (worldOf [(lit "b.mmd", lit "pie")])
                    (errorOf (lit "Cannot find package 'mermaid'"))
                    eq_refl eq_refl)); reflexivity.
Defined.



(** A successful run with [--keep-temp] leaves the directory. *)
Example check_keep_temp :
  last (trace (snd (CheckScript.script sampleEnv
                      [lit "a.md"; lit "tmp"; lit "--keep-temp"]
                      (worldOf [(lit "a.md", twoGood)])))) Usage
  <> Cleanup (lit "tmp")
  /\ files (snd (CheckScript.script sampleEnv
                   [lit "a.md"; lit "tmp"; lit "--keep-temp"]
                   (worldOf [(lit "a.md", twoGood)])))
       (lit "tmp/a.md_block0") = Some (lit "graph TD").
Proof. split; [vm_compute; discriminate|reflexivity]. Qed.

Lemma check_end_to_end_witness :
  (fst (CheckScript.script sampleEnv [lit "a.md"] (worldOf [(lit "a.md", twoGood)])) = 0
   /\ exists r,
        reports (trace (snd (CheckScript.script sampleEnv [lit "a.md"]
                               (worldOf [(lit "a.md", twoGood)]))))
        = [PrintReport r]
        /\ totalBlocks r = 2 /\ r_validCount r = 2 /\ r_invalidCount r = 0)
  /\ (fst (CheckScript.script sampleEnv [lit "a.md"]
             (worldOf [(lit "a.md", goodAndBad)])) = 1
      /\ reports (trace (snd (CheckScript.script sampleEnv [lit "a.md"]
                                (worldOf [(lit "a.md", goodAndBad)])))) = []).
Proof.
  split.
  - destruct (proj1 (check_end_to_end sampleEnv (lit "a.md") [] twoGood
                       (worldOf [(lit "a.md", twoGood)]) eq_refl eq_refl
                       ltac:(discriminate) eq_refl eq_refl eq_refl eq_refl eq_refl
                       eq_refl eq_refl (fun _ => eq_refl)) eq_refl)
      as (Hstatus & r & Hrep & Ht & Hv & Hi & _).
    split; [exact Hstatus|]. exists r. repeat split; assumption.
  - apply (proj2 (check_end_to_end sampleEnv (lit "a.md") [] goodAndBad
                    (worldOf [(lit "a.md", goodAndBad)]) eq_refl eq_refl
                    ltac:(discriminate) eq_refl eq_refl eq_refl eq_refl eq_refl
                    eq_refl eq_refl (fun _ => eq_refl))).
    reflexivity.
Defined.

End PipelineMore.
